(** * Construction of the configurable ResNet of [cv_net/resnet.py]

    A shallow embedding of [ResNetBlock], [PreActResNetBlock],
    [resnet_blocks_by_name] and [ResNet] and the properties of the
    network-construction algorithm.

    Modelling boundary.  The tensor runtime ([torch.nn]) is an external
    collaborator: a primitive layer is represented by the arguments its
    constructor was called with, a parameter tensor by the list of
    [nn.init] calls applied to it since construction, and the numeric
    behaviour of a layer by an arbitrary function of the runtime.

    Two argument checks of the runtime bear on the construction.
    [nn.init.kaiming_normal_] raises [ValueError] for a [nonlinearity]
    name it does not know; which names it knows is a parameter,
    [nonlinearity_supported].  The layer constructors raise on a negative
    size, and an initialisation function returns at once on a tensor
    without elements: constructor and [nn.init] calls are modelled for
    positive sizes, and the properties of [ResNet.__init__] that conclude
    that the network is constructed, or that the call fails once layers
    have been constructed, assume positive widths and, where the output
    head is constructed, a positive number of classes.

    Python exceptions are values of [exn]; statements run in a state and
    error monad whose state survives a raised exception, as it does in
    Python.  [assert] statements are enabled (the interpreter's default). *)

From Stdlib Require Import ZArith String List Lia.
From stdpp Require Import base option list gmap strings.

Open Scope string_scope.
Open Scope list_scope.
Open Scope Z_scope.

(** ** Exceptions and the monad of statements *)

Inductive exn : Type :=
| AssertionError
| KeyError (key : string)
| IndexError
| ValueError (msg : string)
| RuntimeError (msg : string).

Definition M (St A : Type) : Type := St -> (exn + A) * St.

Definition ret {St A : Type} (a : A) : M St A := fun s => (inr a, s).

Definition raise {St A : Type} (e : exn) : M St A := fun s => (inl e, s).

Definition bind {St A B : Type} (m : M St A) (k : A -> M St B) : M St B :=
  fun s =>
    match m s with
    | (inr a, s') => k a s'
    | (inl e, s') => (inl e, s')
    end.

Notation "'let!' x ':=' m 'in' k" := (bind m (fun x => k))
  (at level 10, x name, m at level 100, k at level 200).

(** [for x in xs: acc = body(acc, x)] *)
Fixpoint for_each {St A Acc : Type} (xs : list A) (body : Acc -> A -> M St Acc)
    (acc : Acc) : M St Acc :=
  match xs with
  | [] => ret acc
  | x :: xs' => let! acc' := body acc x in for_each xs' body acc'
  end.

(** Visit the elements in order, replacing each by the result of [f]. *)
Fixpoint mapM {St A B : Type} (f : A -> M St B) (xs : list A) : M St (list B) :=
  match xs with
  | [] => ret []
  | x :: xs' => let! y := f x in let! ys := mapM f xs' in ret (y :: ys)
  end.

(** ** Python containers *)

(** [l[i]] on a Python list: a negative index counts from the end, an index
    out of range raises [IndexError]. *)
Definition list_getitem {St A : Type} (l : list A) (i : Z) : M St A :=
  let n := Z.of_nat (length l) in
  let k := if i <? 0 then i + n else i in
  if (k <? 0) || (n <=? k) then raise IndexError
  else match l !! Z.to_nat k with
       | Some x => ret x
       | None => raise IndexError
       end.

(** [d[k]] on a dict with string keys. *)
Definition dict_getitem {St A : Type} (d : gmap string A) (k : string) : M St A :=
  match d !! k with
  | Some v => ret v
  | None => raise (KeyError k)
  end.

(** [k in d] *)
Definition dict_contains {A : Type} (d : gmap string A) (k : string) : bool :=
  bool_decide (is_Some (d !! k)).

(** [assert b] *)
Definition assert_ {St : Type} (b : bool) : M St unit :=
  if b then ret tt else raise AssertionError.

(** [enumerate(l)] *)
Definition enumerate {A : Type} (l : list A) : list (Z * A) :=
  imap (fun i x => (Z.of_nat i, x)) l.

(** [range(n)]: empty when [n <= 0]. *)
Definition range (n : Z) : list Z := seqZ 0 n.

(** ** Layers, blocks and the network *)

(** A call of [torch.nn.init] on a parameter tensor.  [noise] is what
    [kaiming_normal_] drew from the random generator. *)
Inductive InitCall (Sample : Type) : Type :=
| kaiming_normal_ (mode nonlinearity : string) (noise : Sample)
| constant_ (val : Z).
Arguments kaiming_normal_ {Sample} mode nonlinearity noise.
Arguments constant_ {Sample} val.

(** A parameter tensor: the [nn.init] calls applied to it since its
    constructor returned, oldest first.  [[]] is the runtime's default. *)
Definition Param (Sample : Type) : Type := list (InitCall Sample).

(** The primitive layers the module constructs, each with the arguments of
    its constructor call (defaults of the runtime written out: a
    convolution has padding 0 and stride 1 unless given). *)
Inductive Layer (ActCtor Sample : Type) : Type :=
| Conv2d (in_channels out_channels kernel_size padding stride : Z)
    (bias : bool) (weight : Param Sample)
| BatchNorm2d (num_features : Z) (bn_weight bn_bias : Param Sample)
| Activation (ctor : ActCtor)
| AdaptiveAvgPool2d (out_h out_w : Z)
| Flatten
| Linear (in_features out_features : Z).
Arguments Conv2d {ActCtor Sample}.
Arguments BatchNorm2d {ActCtor Sample}.
Arguments Activation {ActCtor Sample}.
Arguments AdaptiveAvgPool2d {ActCtor Sample}.
Arguments Flatten {ActCtor Sample}.
Arguments Linear {ActCtor Sample}.

(** [nn.Sequential] *)
Definition Sequential (ActCtor Sample : Type) : Type := list (Layer ActCtor Sample).

(** Instances of the two block classes, with their attributes.
    [down_sample] is [None] or a module. *)
Inductive Block (ActCtor Sample : Type) : Type :=
| ResNetBlock (net : Sequential ActCtor Sample)
    (down_sample : option (Layer ActCtor Sample)) (act_fn : Layer ActCtor Sample)
| PreActResNetBlock (net : Sequential ActCtor Sample)
    (down_sample : option (Sequential ActCtor Sample)).
Arguments ResNetBlock {ActCtor Sample}.
Arguments PreActResNetBlock {ActCtor Sample}.

(** The two block classes as objects. *)
Inductive BlockClass : Type := class_ResNetBlock | class_PreActResNetBlock.

#[global] Instance BlockClass_eq_dec : EqDecision BlockClass.
Proof. solve_decision. Defined.

Definition resnet_blocks_by_name : gmap string BlockClass :=
  {[ "ResNetBlock" := class_ResNetBlock;
     "PreActResNetBlock" := class_PreActResNetBlock ]}.

(** [self.hparams] *)
Record HParams (ActCtor : Type) : Type := mkHParams {
  num_classes : Z;
  num_blocks : list Z;
  c_hidden : list Z;
  act_fn_name : string;
  act_fn : ActCtor;
  block_class : BlockClass
}.
Arguments mkHParams {ActCtor}.
Arguments num_classes {ActCtor}.
Arguments num_blocks {ActCtor}.
Arguments c_hidden {ActCtor}.
Arguments act_fn_name {ActCtor}.
Arguments act_fn {ActCtor}.
Arguments block_class {ActCtor}.

(** A [ResNet] instance. *)
Record ResNet (ActCtor Sample : Type) : Type := mkResNet {
  hparams : HParams ActCtor;
  input_net : Sequential ActCtor Sample;
  blocks : list (Block ActCtor Sample);
  output_net : Sequential ActCtor Sample
}.
Arguments mkResNet {ActCtor Sample}.
Arguments hparams {ActCtor Sample}.
Arguments input_net {ActCtor Sample}.
Arguments blocks {ActCtor Sample}.
Arguments output_net {ActCtor Sample}.

(** What a run of the program can change outside the object it builds: the
    state of the runtime's random generator and the layers allocated so
    far, in allocation order and as their constructors returned them. *)
Record World (ActCtor Sample Rng : Type) : Type := mkWorld {
  generator : Rng;
  allocated : list (Layer ActCtor Sample)
}.
Arguments mkWorld {ActCtor Sample Rng}.
Arguments generator {ActCtor Sample Rng}.
Arguments allocated {ActCtor Sample Rng}.

(** The sub-modules of a block and of the network that are primitive
    layers, in the order [modules()] visits them (registration order). *)
Definition Block_layers {ActCtor Sample : Type} (b : Block ActCtor Sample)
    : list (Layer ActCtor Sample) :=
  match b with
  | ResNetBlock net down a => net ++ option_list down ++ [a]
  | PreActResNetBlock net down => net ++ default [] down
  end.

Definition ResNet_layers {ActCtor Sample : Type} (n : ResNet ActCtor Sample)
    : list (Layer ActCtor Sample) :=
  input_net n ++ concat (map Block_layers (blocks n)) ++ output_net n.

(** ** Forward computation *)

Section Forward.
Context {ActCtor Sample Tensor Store : Type}.

(** The runtime: applying a primitive layer and adding two tensors.  Both
    may raise (a shape error) and may change the runtime's buffers (the
    running statistics of a normalisation layer). *)
Variable layer_forward : Layer ActCtor Sample -> Tensor -> M Store Tensor.
Variable tensor_add : Tensor -> Tensor -> M Store Tensor.

Local Abbreviation layer := (Layer ActCtor Sample).
Local Abbreviation block := (Block ActCtor Sample).

Definition Sequential_forward (net : list layer) (x : Tensor) : M Store Tensor :=
  for_each net (fun x m => layer_forward m x) x.

Definition ResNetBlock_forward (net : list layer) (down_sample : option layer)
    (act_fn : layer) (x : Tensor) : M Store Tensor :=
  let! z := Sequential_forward net x in
  let! x := (match down_sample with
             | Some d => layer_forward d x
             | None => ret x
             end) in
  let! out := tensor_add z x in
  let! out := layer_forward act_fn out in
  ret out.

Definition PreActResNetBlock_forward (net : list layer)
    (down_sample : option (list layer)) (x : Tensor) : M Store Tensor :=
  let! z := Sequential_forward net x in
  let! x := (match down_sample with
             | Some d => Sequential_forward d x
             | None => ret x
             end) in
  let! out := tensor_add z x in
  ret out.

Definition Block_forward (b : block) (x : Tensor) : M Store Tensor :=
  match b with
  | ResNetBlock net down act => ResNetBlock_forward net down act x
  | PreActResNetBlock net down => PreActResNetBlock_forward net down x
  end.

Definition ResNet_forward (self : ResNet ActCtor Sample) (x : Tensor) : M Store Tensor :=
  let! x := Sequential_forward (input_net self) x in
  let! x := for_each (blocks self) (fun x b => Block_forward b x) x in
  let! x := Sequential_forward (output_net self) x in
  ret x.

(** *** The blocks as the specification describes them *)

(** Transform of the Standard block: Conv, Normalize, Activation, Conv,
    Normalize, with [c_out] forced to [c_in] unless subsampling. *)
Definition spec_Standard_transform (c_in : Z) (act : ActCtor) (subsample : bool)
    (c_out : Z) : list layer :=
  let width := if subsample then c_out else c_in in
  [ Conv2d c_in width 3 1 (if subsample then 2 else 1) false [];
    BatchNorm2d width [] [];
    Activation act;
    Conv2d width width 3 1 1 false [];
    BatchNorm2d width [] [] ].



(** Transform of the Pre-Activation block: Normalize, Activation, Conv,
    Normalize, Activation, Conv. *)
Definition spec_PreAct_transform (c_in : Z) (act : ActCtor) (subsample : bool)
    (c_out : Z) : list layer :=
  let width := if subsample then c_out else c_in in
  [ BatchNorm2d c_in [] [];
    Activation act;
    Conv2d c_in width 3 1 (if subsample then 2 else 1) false [];
    BatchNorm2d width [] [];
    Activation act;
    Conv2d width width 3 1 1 false [] ].



End Forward.

(** ** Views of a built network *)

(** A layer as its constructor returned it: the [nn.init] calls forgotten. *)
Definition Layer_as_constructed {ActCtor Sample : Type} (l : Layer ActCtor Sample)
    : Layer ActCtor Sample :=
  match l with
  | Conv2d ci co k p s b _ => Conv2d ci co k p s b []
  | BatchNorm2d n _ _ => BatchNorm2d n [] []
  | other => other
  end.

Definition Block_as_constructed {ActCtor Sample : Type} (b : Block ActCtor Sample)
    : Block ActCtor Sample :=
  match b with
  | ResNetBlock net down act =>
      ResNetBlock (map Layer_as_constructed net) (option_map Layer_as_constructed down)
        (Layer_as_constructed act)
  | PreActResNetBlock net down =>
      PreActResNetBlock (map Layer_as_constructed net)
        (option_map (map Layer_as_constructed) down)
  end.

(** The structure of a layer: its configuration and the kind of
    initialisation of its tensors, without the random values drawn. *)
Definition InitCall_structure {Sample : Type} (c : InitCall Sample) : InitCall unit :=
  match c with
  | kaiming_normal_ mode nonlinearity _ => kaiming_normal_ mode nonlinearity tt
  | constant_ v => constant_ v
  end.

Definition Layer_structure {ActCtor Sample : Type} (l : Layer ActCtor Sample)
    : Layer ActCtor unit :=
  match l with
  | Conv2d ci co k p s b w => Conv2d ci co k p s b (map InitCall_structure w)
  | BatchNorm2d n w b =>
      BatchNorm2d n (map InitCall_structure w) (map InitCall_structure b)
  | Activation a => Activation a
  | AdaptiveAvgPool2d h w => AdaptiveAvgPool2d h w
  | Flatten => Flatten
  | Linear i o => Linear i o
  end.

Definition Block_structure {ActCtor Sample : Type} (b : Block ActCtor Sample)
    : Block ActCtor unit :=
  match b with
  | ResNetBlock net down act =>
      ResNetBlock (map Layer_structure net) (option_map Layer_structure down)
        (Layer_structure act)
  | PreActResNetBlock net down =>
      PreActResNetBlock (map Layer_structure net) (option_map (map Layer_structure) down)
  end.

Definition ResNet_structure {ActCtor Sample : Type} (n : ResNet ActCtor Sample)
    : ResNet ActCtor unit :=
  mkResNet (hparams n) (map Layer_structure (input_net n))
    (map Block_structure (blocks n)) (map Layer_structure (output_net n)).

(** Whether a block has a [down_sample] module, that is, subsamples. *)
Definition Block_subsamples {ActCtor Sample : Type} (b : Block ActCtor Sample) : bool :=
  match b with
  | ResNetBlock _ down _ => bool_decide (is_Some down)
  | PreActResNetBlock _ down => bool_decide (is_Some down)
  end.

(** No [nn.init] call has been applied to the layer. *)
Definition Layer_untouched {ActCtor Sample : Type} (l : Layer ActCtor Sample) : bool :=
  match l with
  | Conv2d _ _ _ _ _ _ [] => true
  | Conv2d _ _ _ _ _ _ _ => false
  | BatchNorm2d _ [] [] => true
  | BatchNorm2d _ _ _ => false
  | _ => true
  end.

(** The state section 4.6 of the specification asks of a layer: a
    convolution weight has received exactly one call, Kaiming-normal in
    fan-out mode for the given nonlinearity; a normalisation layer exactly
    one call per parameter, scale constant 1 and shift constant 0. *)
Definition Layer_initialized {ActCtor Sample : Type} (nonlinearity : string)
    (l : Layer ActCtor Sample) : bool :=
  match l with
  | Conv2d _ _ _ _ _ _ [kaiming_normal_ mode nl _] =>
      String.eqb mode "fan_out" && String.eqb nl nonlinearity
  | Conv2d _ _ _ _ _ _ _ => false
  | BatchNorm2d _ [constant_ 1] [constant_ 0] => true
  | BatchNorm2d _ _ _ => false
  | _ => true
  end.

(** A layer with positive sizes: positive channel and feature counts,
    kernel, stride and output size, and a padding that is not negative. *)
Definition Layer_sized {ActCtor Sample : Type} (l : Layer ActCtor Sample) : bool :=
  match l with
  | Conv2d ci co k p s _ _ => (0 <? ci) && (0 <? co) && (0 <? k) && (0 <=? p) && (0 <? s)
  | BatchNorm2d nf _ _ => 0 <? nf
  | Activation _ => true
  | AdaptiveAvgPool2d oh ow => (0 <? oh) && (0 <? ow)
  | Flatten => true
  | Linear i o => (0 <? i) && (0 <? o)
  end.

(** The layer [init_module] leaves when the generator gives [noise]. *)
Definition initialized_layer {ActCtor Sample : Type} (nonlinearity : string)
    (noise : Sample) (m : Layer ActCtor Sample) : Layer ActCtor Sample :=
  match m with
  | Conv2d ci co k p s b weight =>
      Conv2d ci co k p s b (weight ++ [kaiming_normal_ "fan_out" nonlinearity noise])
  | BatchNorm2d n weight bias =>
      BatchNorm2d n (weight ++ [constant_ 1]) (bias ++ [constant_ 0])
  | _ => m
  end.

Definition initialized_block {ActCtor Sample : Type} (nonlinearity : string)
    (noise : Sample) (b : Block ActCtor Sample) : Block ActCtor Sample :=
  match b with
  | ResNetBlock net down act =>
      ResNetBlock (map (initialized_layer nonlinearity noise) net)
        (option_map (initialized_layer nonlinearity noise) down)
        (initialized_layer nonlinearity noise act)
  | PreActResNetBlock net down =>
      PreActResNetBlock (map (initialized_layer nonlinearity noise) net)
        (option_map (map (initialized_layer nonlinearity noise)) down)
  end.

Definition initialized_network {ActCtor Sample : Type} (noise : Sample)
    (n : ResNet ActCtor Sample) : ResNet ActCtor Sample :=
  let name := act_fn_name (hparams n) in
  mkResNet (hparams n) (map (initialized_layer name noise) (input_net n))
    (map (initialized_block name noise) (blocks n))
    (map (initialized_layer name noise) (output_net n)).

(** ** Shapes *)

(** The shape of a tensor is the list of its dimensions, the batch
    dimension first.  What follows are the shape rules of the runtime's
    layers in the cases the network meets: a layer with positive sizes
    applied to a batch with positive dimensions, an image batch
    [[n, c, h, w]] for convolution, normalisation, pooling and flattening,
    a feature batch [[n, f]] for the linear layer.  In such a case the
    runtime either returns a tensor of a known shape or raises; in any
    other case (a size that is not positive, another rank) no rule is
    stated and nothing is asked of the runtime.  [training] is the mode of
    the modules ([True] after construction, until [eval()] is called): in
    training mode a normalisation layer rejects an input with a single
    value per channel. *)
Inductive ShapeRule : Type :=
| Unstated
| Raises
| Gives (sh : list Z).

Definition rule_bind (r : ShapeRule) (k : list Z -> ShapeRule) : ShapeRule :=
  match r with
  | Gives sh => k sh
  | Raises => Raises
  | Unstated => Unstated
  end.

Definition positive_dims (sh : list Z) : bool := forallb (fun d => 0 <? d) sh.

(** Output size of a convolution along one spatial dimension. *)
Definition conv_size (size kernel padding stride : Z) : Z :=
  (size + 2 * padding - kernel) / stride + 1.

(** [ceil(size / 2)] for a positive size: what a stride of 2 leaves. *)
Definition halve (size : Z) : Z := (size - 1) / 2 + 1.

Section ShapeRules.
Variable training : bool.

Definition Layer_shape {ActCtor Sample : Type} (l : Layer ActCtor Sample)
    (sh : list Z) : ShapeRule :=
  if Layer_sized l && positive_dims sh
  then
    match l, sh with
    | Conv2d ci co k p s _ _, [n; c; h; w] =>
        if (c =? ci) && (k <=? h + 2 * p) && (k <=? w + 2 * p)
        then Gives [n; co; conv_size h k p s; conv_size w k p s]
        else Raises
    | BatchNorm2d nf _ _, [n; c; h; w] =>
        if (c =? nf) && negb (training && (n * h * w =? 1)) then Gives sh else Raises
    | Activation _, _ => Gives sh
    | AdaptiveAvgPool2d oh ow, [n; c; h; w] => Gives [n; c; oh; ow]
    | Flatten, [n; c; h; w] => Gives [n; c * h * w]
    | Linear i o, [n; f] => if f =? i then Gives [n; o] else Raises
    | _, _ => Unstated
    end
  else Unstated.

(** Broadcasting of two shapes, last dimension first: two dimensions fit
    when they are equal or one of them is 1. *)
Fixpoint broadcast_rev (a b : list Z) : option (list Z) :=
  match a, b with
  | [], _ => Some b
  | _, [] => Some a
  | x :: a', y :: b' =>
      match (if x =? y then Some x
             else if x =? 1 then Some y
             else if y =? 1 then Some x else None),
            broadcast_rev a' b' with
      | Some d, Some r => Some (d :: r)
      | _, _ => None
      end
  end.

(** Shape of [z + x], for positive dimensions. *)
Definition add_shape (a b : list Z) : ShapeRule :=
  if positive_dims a && positive_dims b
  then
    match broadcast_rev (rev a) (rev b) with
    | Some r => Gives (rev r)
    | None => Raises
    end
  else Unstated.

(** The shape rule of the [forward] methods, composed as they compose the
    layers. *)
Fixpoint Sequential_shape {ActCtor Sample : Type} (net : list (Layer ActCtor Sample))
    (sh : list Z) : ShapeRule :=
  match net with
  | [] => Gives sh
  | l :: net' => rule_bind (Layer_shape l sh) (Sequential_shape net')
  end.

Definition Block_shape {ActCtor Sample : Type} (b : Block ActCtor Sample)
    (sh : list Z) : ShapeRule :=
  match b with
  | ResNetBlock net down act =>
      rule_bind (Sequential_shape net sh) (fun z =>
      rule_bind (match down with Some d => Layer_shape d sh | None => Gives sh end) (fun x =>
      rule_bind (add_shape z x) (fun out =>
      Layer_shape act out)))
  | PreActResNetBlock net down =>
      rule_bind (Sequential_shape net sh) (fun z =>
      rule_bind (match down with Some d => Sequential_shape d sh | None => Gives sh end)
        (fun x => add_shape z x))
  end.

Fixpoint Blocks_shape {ActCtor Sample : Type} (bs : list (Block ActCtor Sample))
    (sh : list Z) : ShapeRule :=
  match bs with
  | [] => Gives sh
  | b :: bs' => rule_bind (Block_shape b sh) (Blocks_shape bs')
  end.

Definition ResNet_shape {ActCtor Sample : Type} (n : ResNet ActCtor Sample)
    (sh : list Z) : ShapeRule :=
  rule_bind (Sequential_shape (input_net n) sh) (fun a =>
  rule_bind (Blocks_shape (blocks n) a) (fun b =>
  Sequential_shape (output_net n) b)).

(** A run follows a rule when it returns a tensor of the shape the rule
    gives, or raises when the rule says so; an unstated rule asks nothing. *)
Definition follows_shape {Tensor Store : Type} (shape_of : Tensor -> list Z)
    (rule : ShapeRule) (res : (exn + Tensor) * Store) : Prop :=
  match rule with
  | Gives sh => exists y s', res = (inr y, s') /\ shape_of y = sh
  | Raises => exists e s', res = (inl e, s')
  | Unstated => True
  end.

(** A runtime follows the shape rules when the application of a layer to
    a tensor, and the addition of two tensors, follow the rule of the
    case, where one is stated. *)
Definition shape_respecting {ActCtor Sample Tensor Store : Type}
    (layer_forward : Layer ActCtor Sample -> Tensor -> M Store Tensor)
    (tensor_add : Tensor -> Tensor -> M Store Tensor)
    (shape_of : Tensor -> list Z) : Prop :=
  (forall l x s, follows_shape shape_of (Layer_shape l (shape_of x)) (layer_forward l x s))
  /\ (forall x y s,
        follows_shape shape_of (add_shape (shape_of x) (shape_of y)) (tensor_add x y s)).

End ShapeRules.

(** An example runtime whose tensors are their shapes, in training mode;
    it raises where no rule is stated. *)
Definition example_layer_forward (l : Layer string nat) (sh : list Z) : M unit (list Z) :=
  match Layer_shape true l sh with
  | Gives r => ret r
  | _ => raise (RuntimeError "shape")
  end.

Definition example_tensor_add (a b : list Z) : M unit (list Z) :=
  match add_shape a b with
  | Gives r => ret r
  | _ => raise (RuntimeError "shape")
  end.

(** ** Example registry and runtime *)

(** Modelled from the spec: [cv_net/util/util.py], which defines
    [act_fn_by_name], is not among the sources.  An example registry with
    ReLU-family entries and smooth variants, among them LeakyReLU and GELU
    (section 4.1), for running the construction on concrete inputs; a
    constructor is represented by the name of its class. *)
Definition example_act_fn_by_name : gmap string string :=
  {[ "relu" := "ReLU"; "leakyrelu" := "LeakyReLU"; "tanh" := "Tanh"; "gelu" := "GELU" ]}.

(** An example runtime: the generator state counts the draws, a draw
    returns the count, and allocating a layer draws nothing.  The
    nonlinearity names [kaiming_normal_] accepts are those that torch's
    [calculate_gain] lists. *)
Definition example_default_init (l : Layer string nat) (g : nat) : nat := g.
Definition example_normal_ (g : nat) : nat * nat := (g, S g).
Definition example_world : World string nat nat := mkWorld 0%nat [].

Definition example_nonlinearity_supported (name : string) : bool :=
  existsb (String.eqb name)
    [ "linear"; "conv1d"; "conv2d"; "conv3d"; "conv_transpose1d"; "conv_transpose2d";
      "conv_transpose3d"; "sigmoid"; "tanh"; "relu"; "leaky_relu"; "selu" ].

(** ** Construction *)

Section Construction.
Context {ActCtor Sample Rng : Type}.

(** [cv_net/util/util.py] is not among the sources: the activation
    registry it defines is a parameter. *)
Variable act_fn_by_name : gmap string ActCtor.

(** The runtime: what allocating a layer (with the default initialisation
    of its tensors) does to the random generator, and a draw of
    [kaiming_normal_]. *)
Variable default_init : Layer ActCtor Sample -> Rng -> Rng.
Variable normal_ : Rng -> Sample * Rng.

(** The names [nn.init.kaiming_normal_] accepts as its [nonlinearity]
    argument, those its gain table knows; for any other name it raises
    [ValueError], before it draws. *)
Variable nonlinearity_supported : string -> bool.

Local Abbreviation layer := (Layer ActCtor Sample).
Local Abbreviation block := (Block ActCtor Sample).
Local Abbreviation world := (World ActCtor Sample Rng).
Local Abbreviation resnet := (ResNet ActCtor Sample).

Definition alloc (l : layer) (w : world) : world :=
  {| generator := default_init l (generator w);
     allocated := allocated w ++ [l] |}.

(** A call of a layer constructor of the runtime, with sizes the runtime
    accepts (it raises on a negative size): the layer is allocated, with
    the default initialisation of its tensors.  With positive widths and
    a positive number of classes every constructor call of
    [ResNet.__init__] has positive sizes, as is shown further down. *)
Definition new (l : layer) : M world layer :=
  fun w => (inr l, alloc l w).

Definition ResNetBlock_init (c_in : Z) (act_fn : ActCtor) (subsample : bool)
    (c_out : Z) : M world block :=
  let c_out := if negb subsample then c_in else c_out in
  let! conv1 := new (Conv2d c_in c_out 3 1 (if subsample then 2 else 1) false []) in
  let! bn1 := new (BatchNorm2d c_out [] []) in
  let! act1 := new (Activation act_fn) in
  let! conv2 := new (Conv2d c_out c_out 3 1 1 false []) in
  let! bn2 := new (BatchNorm2d c_out [] []) in
  let! down_sample :=
    (if subsample
     then let! d := new (Conv2d c_in c_out 1 0 2 false []) in ret (Some d)
     else ret None) in
  let! act := new (Activation act_fn) in
  ret (ResNetBlock [conv1; bn1; act1; conv2; bn2] down_sample act).

Definition PreActResNetBlock_init (c_in : Z) (act_fn : ActCtor) (subsample : bool)
    (c_out : Z) : M world block :=
  let c_out := if negb subsample then c_in else c_out in
  let! bn1 := new (BatchNorm2d c_in [] []) in
  let! act1 := new (Activation act_fn) in
  let! conv1 := new (Conv2d c_in c_out 3 1 (if negb subsample then 1 else 2) false []) in
  let! bn2 := new (BatchNorm2d c_out [] []) in
  let! act2 := new (Activation act_fn) in
  let! conv2 := new (Conv2d c_out c_out 3 1 1 false []) in
  let! down_sample :=
    (if subsample
     then let! bn := new (BatchNorm2d c_in [] []) in
          let! a := new (Activation act_fn) in
          let! d := new (Conv2d c_in c_out 1 0 2 false []) in
          ret (Some [bn; a; d])
     else ret None) in
  ret (PreActResNetBlock [bn1; act1; conv1; bn2; act2; conv2] down_sample).

(** Calling a class object. *)
Definition call_block_class (cls : BlockClass)
    : Z -> ActCtor -> bool -> Z -> M world block :=
  match cls with
  | class_ResNetBlock => ResNetBlock_init
  | class_PreActResNetBlock => PreActResNetBlock_init
  end.

(** The loop of [_create_network] that fills the list [blocks]. *)
Definition create_blocks (hp : HParams ActCtor) : M world (list block) :=
  for_each (enumerate (num_blocks hp))
    (fun blocks '(block_idx, block_count) =>
       for_each (range block_count)
         (fun blocks bc =>
            let subsample := (bc =? 0) && (0 <? block_idx) in
            let! c_in :=
              (if subsample then list_getitem (c_hidden hp) (block_idx - 1)
               else list_getitem (c_hidden hp) block_idx) in
            let! c_out := list_getitem (c_hidden hp) block_idx in
            let! b := call_block_class (block_class hp) c_in (act_fn hp) subsample c_out in
            ret (blocks ++ [b]))
         blocks)
    [].

(** The first statement of [_create_network], which sets [input_net]. *)
Definition create_input_net (hp : HParams ActCtor) : M world (list layer) :=
  if decide (block_class hp = class_PreActResNetBlock)
  then
    let! c0 := list_getitem (c_hidden hp) 0 in
    let! conv := new (Conv2d 3 c0 3 1 1 false []) in
    ret [conv]
  else
    let! c0 := list_getitem (c_hidden hp) 0 in
    let! conv := new (Conv2d 3 c0 3 1 1 false []) in
    let! c0' := list_getitem (c_hidden hp) 0 in
    let! bn := new (BatchNorm2d c0' [] []) in
    let! act := new (Activation (act_fn hp)) in
    ret [conv; bn; act].

Definition _create_network (hp : HParams ActCtor) : M world resnet :=
  let! input_net := create_input_net hp in
  let! blocks := create_blocks hp in
  let! pool := new (AdaptiveAvgPool2d 1 1) in
  let! flatten := new Flatten in
  let! c_last := list_getitem (c_hidden hp) (-1) in
  let! linear := new (Linear c_last (num_classes hp)) in
  ret (mkResNet hp input_net blocks [pool; flatten; linear]).

(** [nn.init.kaiming_normal_(weight, mode='fan_out', nonlinearity=...)] on
    a weight with elements: [ValueError] for a name the runtime does not
    know, and otherwise one draw from the generator. *)
Definition kaiming_normal_fan_out (nonlinearity : string) (weight : Param Sample)
    : M world (Param Sample) :=
  if nonlinearity_supported nonlinearity
  then
    fun w =>
      let '(noise, g) := normal_ (generator w) in
      (inr (weight ++ [kaiming_normal_ "fan_out" nonlinearity noise]),
       {| generator := g; allocated := allocated w |})
  else raise (ValueError nonlinearity).

(** The body of the loop of [_init_params] on one module.  The tensors
    are changed in place; no layer is referenced from two places, so the
    tree is rebuilt with the changed layer. *)
Definition init_module (nonlinearity : string) (m : layer) : M world layer :=
  match m with
  | Conv2d ci co k p s b weight =>
      let! weight' := kaiming_normal_fan_out nonlinearity weight in
      ret (Conv2d ci co k p s b weight')
  | BatchNorm2d n weight bias =>
      ret (BatchNorm2d n (weight ++ [constant_ 1]) (bias ++ [constant_ 0]))
  | _ => ret m
  end.

Definition init_block (nonlinearity : string) (b : block) : M world block :=
  match b with
  | ResNetBlock net down act =>
      let! net' := mapM (init_module nonlinearity) net in
      let! down' :=
        (match down with
         | Some d => let! d' := init_module nonlinearity d in ret (Some d')
         | None => ret None
         end) in
      let! act' := init_module nonlinearity act in
      ret (ResNetBlock net' down' act')
  | PreActResNetBlock net down =>
      let! net' := mapM (init_module nonlinearity) net in
      let! down' :=
        (match down with
         | Some d => let! d' := mapM (init_module nonlinearity) d in ret (Some d')
         | None => ret None
         end) in
      ret (PreActResNetBlock net' down')
  end.

(** [for m in self.modules(): ...], in the order of [modules()]. *)
Definition _init_params (self : resnet) : M world resnet :=
  let name := act_fn_name (hparams self) in
  let! input_net' := mapM (init_module name) (input_net self) in
  let! blocks' := mapM (init_block name) (blocks self) in
  let! output_net' := mapM (init_module name) (output_net self) in
  ret (mkResNet (hparams self) input_net' blocks' output_net').

(** [ResNet.__init__]: the specification's [build]. *)
Definition ResNet_init (num_classes : Z) (num_blocks c_hidden : list Z)
    (act_fn_name block_name : string) : M world resnet :=
  let! _ := assert_ (dict_contains resnet_blocks_by_name block_name) in
  let! act_fn := dict_getitem act_fn_by_name act_fn_name in
  let! block_class := dict_getitem resnet_blocks_by_name block_name in
  let hp := mkHParams num_classes num_blocks c_hidden act_fn_name act_fn block_class in
  let! self := _create_network hp in
  _init_params self.


(** *** The network as the specification describes it *)

(** The positions of the flat block sequence: for each stage index [i]
    in [0..len(num_blocks)-1], each position [j] in [0..num_blocks[i]-1]. *)
Definition spec_positions (num_blocks : list Z) : list (nat * nat) :=
  concat (map (fun i => map (fun j => (i, j)) (seq 0 (Z.to_nat (nth i num_blocks 0))))
            (seq 0 (length num_blocks))).

(** [subsample = (j == 0 and i > 0)] *)
Definition spec_subsample (i j : nat) : bool := (j =? 0)%nat && (0 <? i)%nat.

(** [c_in = c_hidden[i-1] if subsample else c_hidden[i]] *)
Definition spec_c_in (c_hidden : list Z) (i j : nat) : option Z :=
  if spec_subsample i j then c_hidden !! (i - 1)%nat else c_hidden !! i.

(** The computation [m] returns [a], whatever the state it starts from. *)
Definition returns {St A : Type} (m : M St A) (a : A) : Prop :=
  forall s, fst (m s) = inr a.

(** Valid hyperparameters (section 3 of the specification), for names
    the two registries know and at least one stage. *)
Definition valid_hparams (num_classes : Z) (num_blocks c_hidden : list Z)
    (act_fn_name block_name : string) : Prop :=
  0 < num_classes /\
  Forall (fun n => 0 < n) num_blocks /\
  Forall (fun c => 0 < c) c_hidden /\
  length num_blocks = length c_hidden /\
  c_hidden <> [] /\
  is_Some (act_fn_by_name !! act_fn_name) /\
  is_Some (resnet_blocks_by_name !! block_name).

(** *** The value the construction computes *)

(** What runs of the loops need of the two lists: a first width, and a
    width for every stage that has a block to build. *)
Definition stages_indexable (num_blocks c_hidden : list Z) : Prop :=
  c_hidden <> [] /\
  forall (i : nat) (n : Z), num_blocks !! i = Some n -> 0 < n -> (i < length c_hidden)%nat.

Definition alloc_all (ls : list layer) (w : world) : world :=
  fold_left (fun w l => alloc l w) ls w.

(** The block a block class returns. *)
Definition built_block (cls : BlockClass) (c_in : Z) (act : ActCtor)
    (subsample : bool) (c_out : Z) : block :=
  match cls with
  | class_ResNetBlock =>
      ResNetBlock (spec_Standard_transform c_in act subsample c_out)
        (if subsample then Some (Conv2d c_in c_out 1 0 2 false []) else None)
        (Activation act)
  | class_PreActResNetBlock =>
      PreActResNetBlock (spec_PreAct_transform c_in act subsample c_out)
        (if subsample
         then Some [ BatchNorm2d c_in [] []; Activation act;
                     Conv2d c_in c_out 1 0 2 false [] ]
         else None)
  end.

Definition nth_Z (l : list Z) (i : Z) : Z := default 0 (l !! Z.to_nat i).

Definition block_at (hp : HParams ActCtor) (i j : Z) : block :=
  let subsample := (j =? 0) && (0 <? i) in
  built_block (block_class hp)
    (nth_Z (c_hidden hp) (if subsample then i - 1 else i))
    (act_fn hp) subsample (nth_Z (c_hidden hp) i).

Definition expected_blocks (hp : HParams ActCtor) : list block :=
  concat (map (fun '(i, n) => map (block_at hp i) (range n)) (enumerate (num_blocks hp))).

Definition expected_input_net (hp : HParams ActCtor) : list layer :=
  let c0 := nth_Z (c_hidden hp) 0 in
  if decide (block_class hp = class_PreActResNetBlock)
  then [ Conv2d 3 c0 3 1 1 false [] ]
  else [ Conv2d 3 c0 3 1 1 false []; BatchNorm2d c0 [] []; Activation (act_fn hp) ].

Definition expected_output_net (hp : HParams ActCtor) : list layer :=
  [ AdaptiveAvgPool2d 1 1; Flatten;
    Linear (default 0 (last (c_hidden hp))) (num_classes hp) ].

Definition expected_network (hp : HParams ActCtor) : resnet :=
  mkResNet hp (expected_input_net hp) (expected_blocks hp) (expected_output_net hp).

(** How [init_module] changes a layer. *)
Definition init_rel (nonlinearity : string) (m m' : layer) : Prop :=
  match m with
  | Conv2d _ _ _ _ _ _ _ => exists noise, m' = initialized_layer nonlinearity noise m
  | BatchNorm2d n weight bias =>
      m' = BatchNorm2d n (weight ++ [constant_ 1]) (bias ++ [constant_ 0])
  | _ => m' = m
  end.

Inductive init_block_rel (nonlinearity : string) : block -> block -> Prop :=
| init_rel_ResNetBlock net net' down down' act act' :
    Forall2 (init_rel nonlinearity) net net' ->
    option_Forall2 (init_rel nonlinearity) down down' ->
    init_rel nonlinearity act act' ->
    init_block_rel nonlinearity (ResNetBlock net down act) (ResNetBlock net' down' act')
| init_rel_PreActResNetBlock net net' down down' :
    Forall2 (init_rel nonlinearity) net net' ->
    option_Forall2 (Forall2 (init_rel nonlinearity)) down down' ->
    init_block_rel nonlinearity (PreActResNetBlock net down) (PreActResNetBlock net' down').

(** How [_init_params] changes a network. *)
Record init_net_rel (net net' : resnet) : Prop := mk_init_net_rel {
  init_hparams : hparams net' = hparams net;
  init_input_net :
    Forall2 (init_rel (act_fn_name (hparams net))) (input_net net) (input_net net');
  init_blocks :
    Forall2 (init_block_rel (act_fn_name (hparams net))) (blocks net) (blocks net');
  init_output_net :
    Forall2 (init_rel (act_fn_name (hparams net))) (output_net net) (output_net net')
}.

(** The block [b] of the built network sits at position [p = (i, j)]: it
    is, up to the initialisation of its tensors, what the block class
    returns when called with [(c_in, act, subsample, c_hidden[i])]. *)
Definition built_at (cls : BlockClass) (act : ActCtor) (c_hidden : list Z)
    (p : nat * nat) (b : block) : Prop :=
  exists c_in c_out,
    spec_c_in c_hidden (fst p) (snd p) = Some c_in /\
    c_hidden !! fst p = Some c_out /\
    returns (call_block_class cls c_in act (spec_subsample (fst p) (snd p)) c_out)
      (Block_as_constructed b).

(** The computation raises no exception other than [e]. *)
Definition only_raises {St A : Type} (e : exn) (m : M St A) : Prop :=
  forall s, match fst (m s) with inl e' => e' = e | inr _ => True end.

(** The computation keeps the invariant [I] of the world, whether it
    returns or raises, and what it returns satisfies [Q]. *)
Definition keeps {A : Type} (I : world -> Prop) (m : M world A) (Q : A -> Prop) : Prop :=
  forall w, I w ->
    I (snd (m w)) /\ match fst (m w) with inr a => Q a | inl _ => True end.

(** Every layer allocated since [w0] has positive sizes. *)
Definition allocated_sized (w0 w : world) : Prop :=
  exists ls, allocated w = allocated w0 ++ ls /\ forallb Layer_sized ls = true.

(** [enumerate], counting from [k]. *)
Definition enumerate_from {A : Type} (k : nat) (l : list A) : list (Z * A) :=
  imap (fun i x => (Z.of_nat (k + i), x)) l.

(** A layer as the module builds them: a convolution has no bias and is
    3x3 with padding 1 and stride 1 or 2, or 1x1 with padding 0 and stride
    2; an activation is an instance of [act]. *)
Definition Layer_conforms (act : ActCtor) (l : layer) : Prop :=
  match l with
  | Conv2d _ _ k p s b _ =>
      b = false
      /\ ((k = 3 /\ p = 1 /\ s = 1) \/ (k = 3 /\ p = 1 /\ s = 2)
          \/ (k = 1 /\ p = 0 /\ s = 2))
  | Activation a => a = act
  | _ => True
  end.

(** *** Running the monad *)

Lemma bind_run {St A B : Type} (m : M St A) (k : A -> M St B) s a s' :
  m s = (inr a, s') -> bind m k s = k a s'.
Proof. intros H. unfold bind. now rewrite H. Qed.

Lemma bind_raise {St A B : Type} (m : M St A) (k : A -> M St B) s e s' :
  m s = (inl e, s') -> bind m k s = (inl e, s').
Proof. intros H. unfold bind. now rewrite H. Qed.

Lemma bind_inv {St A B : Type} (m : M St A) (k : A -> M St B) s b s' :
  bind m k s = (inr b, s') -> exists a s1, m s = (inr a, s1) /\ k a s1 = (inr b, s').
Proof.
  unfold bind. destruct (m s) as [[e|a] s1]; [discriminate|]. eauto.
Qed.

Lemma alloc_all_app ls1 ls2 w :
  alloc_all (ls1 ++ ls2) w = alloc_all ls2 (alloc_all ls1 w).
Proof. unfold alloc_all. apply fold_left_app. Qed.

Lemma allocated_alloc_all ls w :
  allocated (alloc_all ls w) = allocated w ++ ls.
Proof.
  revert w. induction ls as [|l ls IH]; intros w; simpl.
  - now rewrite app_nil_r.
  - rewrite IH. simpl. now rewrite <- app_assoc.
Qed.

Lemma list_getitem_in_range {St : Type} (l : list Z) (i : Z) (s : St) :
  0 <= i < Z.of_nat (length l) ->
  list_getitem l i s = (inr (nth_Z l i), s).
Proof.
  intros Hi. unfold list_getitem, nth_Z.
  destruct (Z.ltb_spec i 0) as [?|_]; [lia|].
  destruct (Z.ltb_spec i 0) as [?|_]; [lia|].
  destruct (Z.leb_spec (Z.of_nat (length l)) i) as [?|_]; [lia|]. simpl.
  destruct (l !! Z.to_nat i) as [x|] eqn:E; [reflexivity|].
  apply lookup_ge_None in E. lia.
Qed.

Lemma list_getitem_last {St : Type} (l : list Z) (s : St) :
  l <> [] -> list_getitem l (-1) s = (inr (default 0 (last l)), s).
Proof.
  intros Hl. unfold list_getitem.
  assert (0 < length l)%nat by (destruct l; [congruence | simpl; lia]).
  destruct (Z.ltb_spec (-1) 0) as [_|?]; [|lia].
  destruct (Z.ltb_spec (-1 + Z.of_nat (length l)) 0) as [?|_]; [lia|].
  destruct (Z.leb_spec (Z.of_nat (length l)) (-1 + Z.of_nat (length l))) as [?|_]; [lia|].
  simpl. rewrite last_lookup.
  replace (Z.to_nat (-1 + Z.of_nat (length l))) with (pred (length l)) by lia.
  destruct (l !! pred (length l)) as [x|] eqn:E; [reflexivity|].
  apply lookup_ge_None in E. lia.
Qed.

Lemma list_getitem_out_of_range {St : Type} (l : list Z) (i : Z) (s : St) :
  Z.of_nat (length l) <= i ->
  list_getitem l i s = (inl IndexError, s).
Proof.
  intros Hi. unfold list_getitem.
  destruct (Z.ltb_spec i 0) as [?|_]; [lia|].
  destruct (Z.ltb_spec i 0) as [?|_]; [lia|].
  destruct (Z.leb_spec (Z.of_nat (length l)) i) as [_|?]; [|lia].
  reflexivity.
Qed.

Lemma elem_of_enumerate {A : Type} (l : list A) (i : Z) (x : A) :
  (i, x) ∈ enumerate l -> exists k : nat, i = Z.of_nat k /\ l !! k = Some x.
Proof.
  unfold enumerate. intros H.
  apply elem_of_lookup_imap in H as (k & y & Heq & Hk).
  inversion Heq; subst. eauto.
Qed.

Lemma elem_of_range (n j : Z) : j ∈ range n -> 0 <= j < n.
Proof. unfold range. intros H. apply elem_of_seqZ in H. lia. Qed.

(** A loop whose body appends to the accumulator and allocates. *)
Lemma for_each_app {A B : Type} (xs : list A) (body : list B -> A -> M world (list B))
    (f : A -> list B) (g : A -> list layer) :
  (forall x acc w, x ∈ xs -> body acc x w = (inr (acc ++ f x), alloc_all (g x) w)) ->
  forall acc w,
    for_each xs body acc w
    = (inr (acc ++ concat (map f xs)), alloc_all (concat (map g xs)) w).
Proof.
  induction xs as [|x xs IH]; intros Hbody acc w; simpl.
  - unfold ret. now rewrite app_nil_r.
  - erewrite bind_run by (apply Hbody; left).
    rewrite IH by (intros; apply Hbody; now right).
    now rewrite alloc_all_app, <- app_assoc.
Qed.

(** *** Running the constructors *)

Lemma call_block_class_run cls c_in act subsample c_out w :
  call_block_class cls c_in act subsample c_out w
  = (inr (built_block cls c_in act subsample c_out),
     alloc_all (Block_layers (built_block cls c_in act subsample c_out)) w).
Proof. destruct cls, subsample; reflexivity. Qed.

Lemma stage_body_run hp (k : nat) (j : Z) acc w :
  (k < length (c_hidden hp))%nat ->
  (let subsample := (j =? 0) && (0 <? Z.of_nat k) in
   let! c_in :=
     (if subsample then list_getitem (c_hidden hp) (Z.of_nat k - 1)
      else list_getitem (c_hidden hp) (Z.of_nat k)) in
   let! c_out := list_getitem (c_hidden hp) (Z.of_nat k) in
   let! b := call_block_class (block_class hp) c_in (act_fn hp) subsample c_out in
   ret (acc ++ [b])) w
  = (inr (acc ++ [block_at hp (Z.of_nat k) j]),
     alloc_all (Block_layers (block_at hp (Z.of_nat k) j)) w).
Proof.
  intros Hlt. cbv zeta. unfold block_at.
  destruct ((j =? 0) && (0 <? Z.of_nat k)) eqn:Hsub.
  - apply andb_prop in Hsub as [_ Hpos]. apply Z.ltb_lt in Hpos.
    erewrite bind_run by (apply list_getitem_in_range; lia).
    erewrite bind_run by (apply list_getitem_in_range; lia).
    erewrite bind_run by apply call_block_class_run.
    reflexivity.
  - erewrite bind_run by (apply list_getitem_in_range; lia).
    erewrite bind_run by (apply list_getitem_in_range; lia).
    erewrite bind_run by apply call_block_class_run.
    reflexivity.
Qed.

(** The inner loop, for a stage whose width exists (or that has no block
    to build). *)
Lemma stage_run hp (k : nat) (n : Z) acc w :
  (0 < n -> (k < length (c_hidden hp))%nat) ->
  for_each (range n)
    (fun blocks bc =>
       let subsample := (bc =? 0) && (0 <? Z.of_nat k) in
       let! c_in :=
         (if subsample then list_getitem (c_hidden hp) (Z.of_nat k - 1)
          else list_getitem (c_hidden hp) (Z.of_nat k)) in
       let! c_out := list_getitem (c_hidden hp) (Z.of_nat k) in
       let! b := call_block_class (block_class hp) c_in (act_fn hp) subsample c_out in
       ret (blocks ++ [b]))
    acc w
  = (inr (acc ++ map (block_at hp (Z.of_nat k)) (range n)),
     alloc_all (concat (map Block_layers (map (block_at hp (Z.of_nat k)) (range n)))) w).
Proof.
  intros Hlt.
  rewrite (for_each_app _ _
             (fun j => [block_at hp (Z.of_nat k) j])
             (fun j => Block_layers (block_at hp (Z.of_nat k) j))).
  - f_equal.
    + do 2 f_equal. induction (range n) as [|j js IH]; simpl; [done|]. now rewrite IH.
    + f_equal. now rewrite map_map.
  - intros j acc' w' Hj. apply elem_of_range in Hj.
    apply (stage_body_run hp k j). apply Hlt. lia.
Qed.

Lemma concat_stage_layers hp (xs : list (Z * Z)) :
  concat (map (fun '(i, n) => concat (map Block_layers (map (block_at hp i) (range n)))) xs)
  = concat (map Block_layers
              (concat (map (fun '(i, n) => map (block_at hp i) (range n)) xs))).
Proof.
  induction xs as [|[i n] xs IH]; simpl; [done|].
  rewrite map_app, concat_app. now rewrite IH.
Qed.

Lemma create_blocks_run hp w :
  stages_indexable (num_blocks hp) (c_hidden hp) ->
  create_blocks hp w
  = (inr (expected_blocks hp),
     alloc_all (concat (map Block_layers (expected_blocks hp))) w).
Proof.
  intros [_ Hidx]. unfold create_blocks, expected_blocks.
  rewrite (for_each_app _ _
             (fun '(i, n) => map (block_at hp i) (range n))
             (fun '(i, n) => concat (map Block_layers (map (block_at hp i) (range n))))).
  - simpl. now rewrite concat_stage_layers.
  - intros [i n] acc w' Hin.
    apply elem_of_enumerate in Hin as (k & -> & Hk).
    apply stage_run. intros Hn. now apply (Hidx k n).
Qed.

Lemma create_input_net_run hp w :
  c_hidden hp <> [] ->
  create_input_net hp w
  = (inr (expected_input_net hp), alloc_all (expected_input_net hp) w).
Proof.
  intros Hne.
  assert (0 < length (c_hidden hp))%nat
    by (destruct (c_hidden hp); [congruence | simpl; lia]).
  unfold create_input_net, expected_input_net.
  destruct (decide (block_class hp = class_PreActResNetBlock)) as [Hc|Hc].
  - erewrite bind_run by (apply list_getitem_in_range; lia).
    erewrite bind_run by reflexivity. reflexivity.
  - erewrite bind_run by (apply list_getitem_in_range; lia).
    erewrite bind_run by reflexivity.
    erewrite bind_run by (apply list_getitem_in_range; lia).
    erewrite bind_run by reflexivity.
    erewrite bind_run by reflexivity. reflexivity.
Qed.

Lemma create_input_net_raise hp w :
  c_hidden hp = [] -> create_input_net hp w = (inl IndexError, w).
Proof.
  intros Hch. unfold create_input_net. rewrite Hch.
  destruct (decide _); apply bind_raise; reflexivity.
Qed.

Lemma _create_network_run hp w :
  stages_indexable (num_blocks hp) (c_hidden hp) ->
  _create_network hp w
  = (inr (expected_network hp), alloc_all (ResNet_layers (expected_network hp)) w).
Proof.
  intros Hidx. pose proof Hidx as [Hne _].
  unfold _create_network.
  erewrite bind_run by (now apply create_input_net_run).
  erewrite bind_run by (now apply create_blocks_run).
  erewrite bind_run by reflexivity.
  erewrite bind_run by reflexivity.
  erewrite bind_run by (now apply list_getitem_last).
  erewrite bind_run by reflexivity.
  unfold ret, expected_network, ResNet_layers. simpl. f_equal.
  rewrite !alloc_all_app. reflexivity.
Qed.

(** *** Running the initialisation *)

Lemma kaiming_normal_fan_out_run name (wt : Param Sample) (w : world) :
  nonlinearity_supported name = true ->
  exists noise g,
    kaiming_normal_fan_out name wt w
    = (inr (wt ++ [kaiming_normal_ "fan_out" name noise]), mkWorld g (allocated w)).
Proof.
  intros Hs. unfold kaiming_normal_fan_out. rewrite Hs.
  destruct (normal_ (generator w)) as [noise g]. now exists noise, g.
Qed.

Lemma kaiming_normal_fan_out_raise name (wt : Param Sample) (w : world) :
  nonlinearity_supported name = false ->
  kaiming_normal_fan_out name wt w = (inl (ValueError name), w).
Proof. intros Hs. unfold kaiming_normal_fan_out. now rewrite Hs. Qed.

Lemma kaiming_normal_fan_out_inv name (wt wt' : Param Sample) (w w' : world) :
  kaiming_normal_fan_out name wt w = (inr wt', w') ->
  nonlinearity_supported name = true
  /\ (exists noise, wt' = wt ++ [kaiming_normal_ "fan_out" name noise])
  /\ allocated w' = allocated w.
Proof.
  unfold kaiming_normal_fan_out.
  destruct (nonlinearity_supported name); [|discriminate].
  destruct (normal_ (generator w)) as [noise g]. intros H. inversion H; subst. eauto.
Qed.

Lemma init_module_run name (m : layer) (w : world) :
  nonlinearity_supported name = true ->
  exists m' g,
    init_module name m w = (inr m', mkWorld g (allocated w)) /\ init_rel name m m'.
Proof.
  intros Hs. destruct m as [ci co k p s b wt| | | | |].
  - destruct (kaiming_normal_fan_out_run name wt w Hs) as (noise & g & Hk).
    exists (initialized_layer name noise (Conv2d ci co k p s b wt)), g.
    split; [|now exists noise].
    unfold init_module. erewrite bind_run by exact Hk. reflexivity.
  - destruct w as [g0 al]. eexists _, g0. split; reflexivity.
  - destruct w as [g0 al]. eexists _, g0. split; reflexivity.
  - destruct w as [g0 al]. eexists _, g0. split; reflexivity.
  - destruct w as [g0 al]. eexists _, g0. split; reflexivity.
  - destruct w as [g0 al]. eexists _, g0. split; reflexivity.
Qed.

Lemma init_module_inv name (m m' : layer) (w w' : world) :
  init_module name m w = (inr m', w') ->
  init_rel name m m' /\ allocated w' = allocated w.
Proof.
  destruct m as [ci co k p s b wt| | | | |]; unfold init_module; intros H.
  - apply bind_inv in H as (wt' & w1 & Hk & H).
    apply kaiming_normal_fan_out_inv in Hk as (_ & [noise ->] & Ha).
    inversion H; subst. split; [now exists noise | exact Ha].
  - inversion H; subst. split; reflexivity.
  - inversion H; subst. split; reflexivity.
  - inversion H; subst. split; reflexivity.
  - inversion H; subst. split; reflexivity.
  - inversion H; subst. split; reflexivity.
Qed.

(** A convolution is where the initialisation can fail. *)
Lemma init_module_raise name ci co k p s b (wt : Param Sample) (w : world) :
  nonlinearity_supported name = false ->
  init_module name (Conv2d (ActCtor := ActCtor) ci co k p s b wt) w
  = (inl (ValueError name), w).
Proof.
  intros Hs. unfold init_module. apply bind_raise.
  now apply kaiming_normal_fan_out_raise.
Qed.

Lemma mapM_run {A B : Type} (f : A -> M world B) (R : A -> B -> Prop) :
  (forall a w, exists b g, f a w = (inr b, mkWorld g (allocated w)) /\ R a b) ->
  forall xs w,
    exists ys g, mapM f xs w = (inr ys, mkWorld g (allocated w)) /\ Forall2 R xs ys.
Proof.
  intros Hf xs. induction xs as [|x xs IH]; intros w.
  - destruct w as [g al]. exists [], g. split; [reflexivity | constructor].
  - destruct (Hf x w) as (y & g1 & Hx & Hr).
    destruct (IH (mkWorld g1 (allocated w))) as (ys & g2 & Hxs & Hrs).
    exists (y :: ys), g2. split; [|now constructor].
    simpl. erewrite bind_run by exact Hx. erewrite bind_run by exact Hxs. reflexivity.
Qed.

Lemma mapM_inv {A B : Type} (f : A -> M world B) (R : A -> B -> Prop) :
  (forall a w b w', f a w = (inr b, w') -> R a b /\ allocated w' = allocated w) ->
  forall xs w ys w',
    mapM f xs w = (inr ys, w') -> Forall2 R xs ys /\ allocated w' = allocated w.
Proof.
  intros Hf xs. induction xs as [|x xs IH]; intros w ys w' H; simpl in H.
  - inversion H; subst. split; [constructor | reflexivity].
  - apply bind_inv in H as (y & w1 & Hx & H).
    apply bind_inv in H as (ys1 & w2 & Hxs & H).
    inversion H; subst.
    apply Hf in Hx as [Hr Ha1]. apply IH in Hxs as [Hrs Ha2].
    split; [now constructor | congruence].
Qed.

Lemma mapM_init_module_run name (ms : list layer) (w : world) :
  nonlinearity_supported name = true ->
  exists ms' g,
    mapM (init_module name) ms w = (inr ms', mkWorld g (allocated w))
    /\ Forall2 (init_rel name) ms ms'.
Proof. intros Hs. apply mapM_run. intros m w0. now apply init_module_run. Qed.

Lemma mapM_init_module_inv name (ms ms' : list layer) (w w' : world) :
  mapM (init_module name) ms w = (inr ms', w') ->
  Forall2 (init_rel name) ms ms' /\ allocated w' = allocated w.
Proof. apply mapM_inv. intros m w0 m' w0'. apply init_module_inv. Qed.

Lemma init_block_run name (b : block) (w : world) :
  nonlinearity_supported name = true ->
  exists b' g,
    init_block name b w = (inr b', mkWorld g (allocated w))
    /\ init_block_rel name b b'.
Proof.
  intros Hs. destruct b as [net down act | net down]; simpl.
  - destruct (mapM_init_module_run name net w Hs) as (net' & g1 & Hn & Rn).
    erewrite bind_run by exact Hn.
    destruct down as [d|].
    + destruct (init_module_run name d (mkWorld g1 (allocated w)) Hs)
        as (d' & g2 & Hd & Rd).
      erewrite bind_run by (erewrite bind_run by exact Hd; reflexivity).
      destruct (init_module_run name act (mkWorld g2 (allocated w)) Hs)
        as (a' & g3 & Ha & Ra).
      erewrite bind_run by exact Ha.
      exists (ResNetBlock net' (Some d') a'), g3.
      split; [reflexivity | constructor; [done | now constructor | done]].
    + erewrite bind_run by reflexivity.
      destruct (init_module_run name act (mkWorld g1 (allocated w)) Hs)
        as (a' & g3 & Ha & Ra).
      erewrite bind_run by exact Ha.
      exists (ResNetBlock net' None a'), g3.
      split; [reflexivity | constructor; [done | constructor | done]].
  - destruct (mapM_init_module_run name net w Hs) as (net' & g1 & Hn & Rn).
    erewrite bind_run by exact Hn.
    destruct down as [d|].
    + destruct (mapM_init_module_run name d (mkWorld g1 (allocated w)) Hs)
        as (d' & g2 & Hd & Rd).
      erewrite bind_run by (erewrite bind_run by exact Hd; reflexivity).
      exists (PreActResNetBlock net' (Some d')), g2.
      split; [reflexivity | constructor; [done | now constructor]].
    + erewrite bind_run by reflexivity.
      exists (PreActResNetBlock net' None), g1.
      split; [reflexivity | constructor; [done | constructor]].
Qed.

Lemma init_block_inv name (b b' : block) (w w' : world) :
  init_block name b w = (inr b', w') ->
  init_block_rel name b b' /\ allocated w' = allocated w.
Proof.
  destruct b as [net down act | net down]; simpl; intros H.
  - apply bind_inv in H as (net' & w1 & Hn & H).
    apply mapM_init_module_inv in Hn as [Rn A1].
    apply bind_inv in H as (down' & w2 & Hd & H).
    apply bind_inv in H as (act' & w3 & Ha & H).
    apply init_module_inv in Ha as [Ra A3].
    inversion H; subst.
    destruct down as [d|].
    + apply bind_inv in Hd as (d' & w4 & Hd & Hret).
      apply init_module_inv in Hd as [Rd A2]. inversion Hret; subst.
      split; [constructor; [done | now constructor | done] | congruence].
    + inversion Hd; subst.
      split; [constructor; [done | constructor | done] | congruence].
  - apply bind_inv in H as (net' & w1 & Hn & H).
    apply mapM_init_module_inv in Hn as [Rn A1].
    apply bind_inv in H as (down' & w2 & Hd & H).
    inversion H; subst.
    destruct down as [d|].
    + apply bind_inv in Hd as (d' & w4 & Hd & Hret).
      apply mapM_init_module_inv in Hd as [Rd A2]. inversion Hret; subst.
      split; [constructor; [done | now constructor] | congruence].
    + inversion Hd; subst.
      split; [constructor; [done | constructor] | congruence].
Qed.

Lemma mapM_init_block_run name (bs : list block) (w : world) :
  nonlinearity_supported name = true ->
  exists bs' g,
    mapM (init_block name) bs w = (inr bs', mkWorld g (allocated w))
    /\ Forall2 (init_block_rel name) bs bs'.
Proof. intros Hs. apply mapM_run. intros b w0. now apply init_block_run. Qed.

Lemma mapM_init_block_inv name (bs bs' : list block) (w w' : world) :
  mapM (init_block name) bs w = (inr bs', w') ->
  Forall2 (init_block_rel name) bs bs' /\ allocated w' = allocated w.
Proof. apply mapM_inv. intros b w0 b' w0'. apply init_block_inv. Qed.

Lemma _init_params_run (net : resnet) (w : world) :
  nonlinearity_supported (act_fn_name (hparams net)) = true ->
  exists net' g,
    _init_params net w = (inr net', mkWorld g (allocated w))
    /\ init_net_rel net net'.
Proof.
  intros Hs. unfold _init_params.
  destruct (mapM_init_module_run (act_fn_name (hparams net)) (input_net net) w Hs)
    as (i' & g1 & Hi & Ri).
  destruct (mapM_init_block_run (act_fn_name (hparams net)) (blocks net)
              (mkWorld g1 (allocated w)) Hs) as (b' & g2 & Hb & Rb).
  destruct (mapM_init_module_run (act_fn_name (hparams net)) (output_net net)
              (mkWorld g2 (allocated w)) Hs) as (o' & g3 & Ho & Ro).
  exists (mkResNet (hparams net) i' b' o'), g3. split.
  - cbv zeta. erewrite bind_run by exact Hi. erewrite bind_run by exact Hb.
    erewrite bind_run by exact Ho. reflexivity.
  - now constructor.
Qed.

Lemma _init_params_inv (net net' : resnet) (w w' : world) :
  _init_params net w = (inr net', w') ->
  init_net_rel net net' /\ allocated w' = allocated w.
Proof.
  unfold _init_params. cbv zeta. intros H.
  apply bind_inv in H as (i' & w1 & Hi & H).
  apply mapM_init_module_inv in Hi as [Ri A1].
  apply bind_inv in H as (b' & w2 & Hb & H).
  apply mapM_init_block_inv in Hb as [Rb A2].
  apply bind_inv in H as (o' & w3 & Ho & H).
  apply mapM_init_module_inv in Ho as [Ro A3].
  inversion H; subst. split; [now constructor | congruence].
Qed.

(** The first module visited that is a convolution is the input
    convolution: with a name the runtime does not know the initialisation
    of a constructed network fails there, before any draw. *)
Lemma _init_params_raise hp (w : world) :
  nonlinearity_supported (act_fn_name hp) = false ->
  _init_params (expected_network hp) w = (inl (ValueError (act_fn_name hp)), w).
Proof.
  intros Hs. unfold _init_params. cbv zeta. apply bind_raise.
  cbn [expected_network input_net hparams]. unfold expected_input_net.
  destruct (decide _); cbn [mapM]; apply bind_raise; now apply init_module_raise.
Qed.

(** *** What the initialisation keeps and what it establishes *)

Lemma init_rel_as_constructed name (m m' : layer) :
  init_rel name m m' -> Layer_as_constructed m' = Layer_as_constructed m.
Proof. destruct m; simpl; [intros [noise ->] | intros -> ..]; reflexivity. Qed.

Lemma init_rel_structure name (m m' : layer) :
  init_rel name m m' ->
  Layer_structure m' = initialized_layer name tt (Layer_structure m).
Proof.
  destruct m; simpl; [intros [noise ->] | intros -> ..]; simpl;
    rewrite ?map_app; reflexivity.
Qed.

Lemma init_rel_initialized name (m m' : layer) :
  init_rel name m m' -> Layer_untouched m = true -> Layer_initialized name m' = true.
Proof.
  destruct m as [? ? ? ? ? ? [|]|? [|] [|]| | | |]; simpl;
    try discriminate; [intros [noise ->] | intros -> ..]; intros _; simpl; try reflexivity.
  now rewrite String.eqb_refl.
Qed.

Lemma Forall2_init_rel_as_constructed name (ms ms' : list layer) :
  Forall2 (init_rel name) ms ms' ->
  map Layer_as_constructed ms' = map Layer_as_constructed ms.
Proof.
  induction 1 as [|m m' ms ms' H _ IH]; simpl; [done|].
  now rewrite IH, (init_rel_as_constructed name m m').
Qed.

Lemma Forall2_init_rel_structure name (ms ms' : list layer) :
  Forall2 (init_rel name) ms ms' ->
  map Layer_structure ms' = map (initialized_layer name tt) (map Layer_structure ms).
Proof.
  induction 1 as [|m m' ms ms' H _ IH]; simpl; [done|].
  now rewrite IH, (init_rel_structure name m m').
Qed.

Lemma Forall2_init_rel_initialized name (ms ms' : list layer) :
  Forall2 (init_rel name) ms ms' ->
  forallb Layer_untouched ms = true -> forallb (Layer_initialized name) ms' = true.
Proof.
  induction 1 as [|m m' ms ms' H _ IH]; simpl; [done|].
  intros [Hm Hms]%andb_prop.
  now rewrite IH, (init_rel_initialized name m m').
Qed.

Lemma init_block_rel_layers name (b b' : block) :
  init_block_rel name b b' ->
  Forall2 (init_rel name) (Block_layers b) (Block_layers b').
Proof.
  destruct 1 as [net net' down down' act act' Hn Hd Ha | net net' down down' Hn Hd]; simpl.
  - apply Forall2_app; [done|]. apply Forall2_app; [|now constructor].
    destruct Hd; simpl; [now constructor | constructor].
  - apply Forall2_app; [done|]. destruct Hd; simpl; [done | constructor].
Qed.

Lemma init_block_rel_as_constructed name (b b' : block) :
  init_block_rel name b b' -> Block_as_constructed b' = Block_as_constructed b.
Proof.
  destruct 1 as [net net' down down' act act' Hn Hd Ha | net net' down down' Hn Hd]; simpl.
  - rewrite (Forall2_init_rel_as_constructed name net net') by done.
    rewrite (init_rel_as_constructed name act act') by done.
    destruct Hd as [d d' Hd|]; simpl; [|done].
    now rewrite (init_rel_as_constructed name d d').
  - rewrite (Forall2_init_rel_as_constructed name net net') by done.
    destruct Hd as [d d' Hd|]; simpl; [|done].
    now rewrite (Forall2_init_rel_as_constructed name d d').
Qed.

Lemma init_block_rel_structure name (b b' : block) :
  init_block_rel name b b' ->
  Block_structure b' = initialized_block name tt (Block_structure b).
Proof.
  destruct 1 as [net net' down down' act act' Hn Hd Ha | net net' down down' Hn Hd]; simpl.
  - rewrite (Forall2_init_rel_structure name net net') by done.
    rewrite (init_rel_structure name act act') by done.
    destruct Hd as [d d' Hd|]; simpl; [|done].
    now rewrite (init_rel_structure name d d').
  - rewrite (Forall2_init_rel_structure name net net') by done.
    destruct Hd as [d d' Hd|]; simpl; [|done].
    now rewrite (Forall2_init_rel_structure name d d').
Qed.

Lemma init_block_rel_subsamples name (b b' : block) :
  init_block_rel name b b' -> Block_subsamples b' = Block_subsamples b.
Proof.
  destruct 1 as [net net' down down' act act' Hn Hd Ha | net net' down down' Hn Hd];
    simpl; destruct Hd; reflexivity.
Qed.

Lemma init_net_rel_layers (net net' : resnet) :
  init_net_rel net net' ->
  Forall2 (init_rel (act_fn_name (hparams net))) (ResNet_layers net) (ResNet_layers net').
Proof.
  intros [_ Hi Hb Ho]. unfold ResNet_layers.
  apply Forall2_app; [done|]. apply Forall2_app; [|done].
  induction Hb as [|b b' bs bs' H _ IH]; simpl; [constructor|].
  apply Forall2_app; [|done]. now apply init_block_rel_layers.
Qed.

Lemma init_net_rel_blocks_as_constructed (net net' : resnet) :
  init_net_rel net net' ->
  map Block_as_constructed (blocks net') = map Block_as_constructed (blocks net).
Proof.
  intros [_ _ Hb _].
  induction Hb as [|b b' bs bs' H _ IH]; simpl; [done|].
  now rewrite IH, (init_block_rel_as_constructed _ b b' H).
Qed.

Lemma init_net_rel_structure (net net' : resnet) :
  init_net_rel net net' ->
  ResNet_structure net' = initialized_network tt (ResNet_structure net).
Proof.
  intros [Hh Hi Hb Ho]. unfold ResNet_structure, initialized_network. simpl.
  rewrite Hh. f_equal.
  - now apply Forall2_init_rel_structure.
  - clear Hi Ho. induction Hb as [|b b' bs bs' H _ IH]; simpl; [done|].
    now rewrite IH, (init_block_rel_structure _ b b' H).
  - now apply Forall2_init_rel_structure.
Qed.

(** Nothing the constructors return has been initialised. *)
Lemma built_block_untouched cls c_in act subsample c_out :
  forallb Layer_untouched (Block_layers (built_block cls c_in act subsample c_out)) = true.
Proof. destruct cls, subsample; reflexivity. Qed.

Lemma expected_network_untouched hp :
  forallb Layer_untouched (ResNet_layers (expected_network hp)) = true.
Proof.
  unfold ResNet_layers, expected_network. simpl.
  rewrite !forallb_app.
  apply andb_true_intro; split; [|apply andb_true_intro; split].
  - unfold expected_input_net. now destruct (decide _).
  - unfold expected_blocks.
    induction (enumerate (num_blocks hp)) as [|[i n] xs IH]; simpl; [done|].
    rewrite map_app, concat_app, forallb_app, IH, andb_true_r.
    induction (range n) as [|j js IHj]; simpl; [done|].
    rewrite forallb_app, IHj, andb_true_r. apply built_block_untouched.
  - reflexivity.
Qed.

Lemma as_constructed_untouched (ms : list layer) :
  forallb Layer_untouched ms = true -> map Layer_as_constructed ms = ms.
Proof.
  induction ms as [|m ms IH]; simpl; [done|].
  intros [Hm Hms]%andb_prop. rewrite IH by done. f_equal.
  destruct m as [? ? ? ? ? ? [|]|? [|] [|]| | | |]; simpl in *; done.
Qed.

Lemma built_block_as_constructed cls c_in act subsample c_out :
  Block_as_constructed (built_block cls c_in act subsample c_out)
  = built_block cls c_in act subsample c_out.
Proof. destruct cls, subsample; reflexivity. Qed.

(** *** A run of [ResNet.__init__] that gets through *)

(** With both names known, the call is [_create_network] followed by
    [_init_params]. *)
Lemma ResNet_init_known num_classes num_blocks c_hidden act_fn_name block_name act cls w :
  act_fn_by_name !! act_fn_name = Some act ->
  resnet_blocks_by_name !! block_name = Some cls ->
  ResNet_init num_classes num_blocks c_hidden act_fn_name block_name w
  = bind (_create_network (mkHParams num_classes num_blocks c_hidden act_fn_name act cls))
      _init_params w.
Proof.
  intros Hact Hcls. unfold ResNet_init, dict_contains, dict_getitem.
  rewrite bool_decide_eq_true_2 by (rewrite Hcls; eauto).
  erewrite bind_run by reflexivity.
  rewrite Hact, Hcls.
  erewrite bind_run by reflexivity.
  erewrite bind_run by reflexivity.
  reflexivity.
Qed.

Lemma ResNet_init_run num_classes num_blocks c_hidden act_fn_name block_name act cls w :
  act_fn_by_name !! act_fn_name = Some act ->
  resnet_blocks_by_name !! block_name = Some cls ->
  stages_indexable num_blocks c_hidden ->
  nonlinearity_supported act_fn_name = true ->
  let hp := mkHParams num_classes num_blocks c_hidden act_fn_name act cls in
  exists net g,
    ResNet_init num_classes num_blocks c_hidden act_fn_name block_name w
    = (inr net, mkWorld g (allocated w ++ ResNet_layers (expected_network hp)))
    /\ _create_network hp w
       = (inr (expected_network hp), alloc_all (ResNet_layers (expected_network hp)) w)
    /\ _init_params (expected_network hp)
         (alloc_all (ResNet_layers (expected_network hp)) w)
       = (inr net, mkWorld g (allocated w ++ ResNet_layers (expected_network hp)))
    /\ init_net_rel (expected_network hp) net.
Proof.
  intros Hact Hcls Hidx Hs hp.
  pose proof (_create_network_run hp w Hidx) as Hcreate.
  destruct (_init_params_run (expected_network hp)
              (alloc_all (ResNet_layers (expected_network hp)) w) Hs)
    as (net & g & Hinit & Hrel).
  rewrite allocated_alloc_all in Hinit.
  exists net, g.
  split; [|split; [exact Hcreate | split; [exact Hinit | exact Hrel]]].
  rewrite (ResNet_init_known _ _ _ _ _ act cls w Hact Hcls).
  erewrite bind_run by exact Hcreate.
  exact Hinit.
Qed.

(** With a name [kaiming_normal_] does not know, the call fails once the
    network has been constructed. *)
Lemma ResNet_init_unsupported num_classes num_blocks c_hidden act_fn_name block_name
    act cls w :
  act_fn_by_name !! act_fn_name = Some act ->
  resnet_blocks_by_name !! block_name = Some cls ->
  stages_indexable num_blocks c_hidden ->
  nonlinearity_supported act_fn_name = false ->
  let hp := mkHParams num_classes num_blocks c_hidden act_fn_name act cls in
  ResNet_init num_classes num_blocks c_hidden act_fn_name block_name w
  = (inl (ValueError act_fn_name), alloc_all (ResNet_layers (expected_network hp)) w).
Proof.
  intros Hact Hcls Hidx Hs hp.
  rewrite (ResNet_init_known _ _ _ _ _ act cls w Hact Hcls).
  erewrite bind_run by exact (_create_network_run hp w Hidx).
  exact (_init_params_raise hp _ Hs).
Qed.

(** *** The loops visit the positions of the specification *)

Lemma enumerate_seq (l : list Z) :
  enumerate l = map (fun i => (Z.of_nat i, nth i l 0)) (seq 0 (length l)).
Proof.
  apply list_eq. intros k. unfold enumerate.
  rewrite list_lookup_imap, list_lookup_fmap.
  destruct (l !! k) as [x|] eqn:E; simpl.
  - rewrite lookup_seq_lt by (now apply lookup_lt_Some in E). simpl.
    now rewrite nth_lookup, E.
  - rewrite lookup_seq_ge by (now apply lookup_ge_None in E). reflexivity.
Qed.

Lemma range_seq (n : Z) : range n = map Z.of_nat (seq 0 (Z.to_nat n)).
Proof.
  unfold range, seqZ. apply map_ext. intros i. lia.
Qed.

Lemma expected_blocks_positions hp :
  expected_blocks hp
  = map (fun p => block_at hp (Z.of_nat (fst p)) (Z.of_nat (snd p)))
      (spec_positions (num_blocks hp)).
Proof.
  unfold expected_blocks, spec_positions.
  rewrite enumerate_seq, concat_map, !map_map. f_equal.
  apply map_ext. intros i. rewrite range_seq, !map_map. reflexivity.
Qed.

Lemma elem_of_spec_positions (num_blocks : list Z) (i j : nat) :
  (i, j) ∈ spec_positions num_blocks ->
  exists n, num_blocks !! i = Some n /\ Z.of_nat j < n.
Proof.
  unfold spec_positions. intros H.
  apply list_elem_of_In, in_concat in H as (l & Hl & Hin).
  apply in_map_iff in Hl as (i' & <- & Hi').
  apply in_map_iff in Hin as (j' & Heq & Hj').
  inversion Heq; subst.
  apply in_seq in Hi'. apply in_seq in Hj'.
  destruct (num_blocks !! i) as [n|] eqn:E.
  - exists n. split; [done|]. rewrite nth_lookup, E in Hj'. simpl in Hj'. lia.
  - apply lookup_ge_None in E. lia.
Qed.

Lemma block_at_built_at hp (i j : nat) (b : block) :
  (i < length (c_hidden hp))%nat ->
  Block_as_constructed b = block_at hp (Z.of_nat i) (Z.of_nat j) ->
  built_at (block_class hp) (act_fn hp) (c_hidden hp) (i, j) b.
Proof.
  intros Hlt Hb. unfold built_at, spec_c_in, block_at in *. simpl.
  assert ((Z.of_nat j =? 0) && (0 <? Z.of_nat i) = spec_subsample i j) as Hs.
  { unfold spec_subsample. f_equal.
    - destruct (Nat.eqb_spec j 0), (Z.eqb_spec (Z.of_nat j) 0); try done; lia.
    - destruct (Nat.ltb_spec 0 i), (Z.ltb_spec 0 (Z.of_nat i)); try done; lia. }
  rewrite Hs in Hb.
  assert (forall k : nat, (k < length (c_hidden hp))%nat ->
            c_hidden hp !! k = Some (nth_Z (c_hidden hp) (Z.of_nat k))) as Hnth.
  { intros k Hk. unfold nth_Z. rewrite Nat2Z.id.
    destruct (c_hidden hp !! k) eqn:E; [done|]. apply lookup_ge_None in E. lia. }
  exists (nth_Z (c_hidden hp) (if spec_subsample i j then Z.of_nat i - 1 else Z.of_nat i)),
    (nth_Z (c_hidden hp) (Z.of_nat i)).
  split; [|split; [now apply Hnth|]].
  - destruct (spec_subsample i j) eqn:Hsub.
    + apply andb_prop in Hsub as [_ Hpos]. apply Nat.ltb_lt in Hpos.
      rewrite (Hnth (i - 1)%nat) by lia. do 2 f_equal. lia.
    + now apply Hnth.
  - intros w. rewrite call_block_class_run. simpl. now rewrite Hb.
Qed.

Lemma Forall2_strengthen {A B : Type} (Q : A -> Prop) (R S : A -> B -> Prop) xs ys :
  Forall Q xs -> Forall2 R xs ys ->
  (forall x y, Q x -> R x y -> S x y) -> Forall2 S xs ys.
Proof.
  intros HQ HR HS. induction HR as [|x y xs ys Hxy _ IH]; [constructor|].
  inversion HQ; subst. constructor; auto.
Qed.

Lemma Forall2_of_map_eq {A B C : Type} (f : A -> C) (g : B -> C) xs ys :
  map g ys = map f xs -> Forall2 (fun x y => g y = f x) xs ys.
Proof.
  revert ys. induction xs as [|x xs IH]; intros [|y ys] H; simpl in *;
    try discriminate; [constructor|].
  inversion H. constructor; auto.
Qed.

Lemma expected_blocks_as_constructed hp :
  map Block_as_constructed (expected_blocks hp) = expected_blocks hp.
Proof.
  rewrite expected_blocks_positions, map_map. apply map_ext.
  intros p. apply built_block_as_constructed.
Qed.

Lemma blocks_built_at_constructed hp (bs : list block) :
  stages_indexable (num_blocks hp) (c_hidden hp) ->
  map Block_as_constructed bs = expected_blocks hp ->
  Forall2 (built_at (block_class hp) (act_fn hp) (c_hidden hp))
    (spec_positions (num_blocks hp)) bs.
Proof.
  intros [_ Hidx] Heq.
  rewrite expected_blocks_positions in Heq.
  apply (Forall2_strengthen
           (fun p => p ∈ spec_positions (num_blocks hp))
           (fun p b => Block_as_constructed b
                       = block_at hp (Z.of_nat (fst p)) (Z.of_nat (snd p)))).
  - apply Forall_forall. auto.
  - now apply Forall2_of_map_eq.
  - intros [i j] b Hin Hb.
    apply elem_of_spec_positions in Hin as (n & Hn & Hj).
    apply block_at_built_at; [|done].
    apply (Hidx i n); [done | lia].
Qed.

Lemma init_net_rel_expected_blocks hp (net : resnet) :
  init_net_rel (expected_network hp) net ->
  map Block_as_constructed (blocks net) = expected_blocks hp.
Proof.
  intros Hrel. rewrite (init_net_rel_blocks_as_constructed _ _ Hrel).
  apply expected_blocks_as_constructed.
Qed.

Lemma blocks_built_at hp (net : resnet) :
  stages_indexable (num_blocks hp) (c_hidden hp) ->
  init_net_rel (expected_network hp) net ->
  Forall2 (built_at (block_class hp) (act_fn hp) (c_hidden hp))
    (spec_positions (num_blocks hp)) (blocks net).
Proof.
  intros Hidx Hrel. apply blocks_built_at_constructed; [done|].
  now apply init_net_rel_expected_blocks.
Qed.

Lemma Block_subsamples_as_constructed (b : block) :
  Block_subsamples (Block_as_constructed b) = Block_subsamples b.
Proof. destruct b as [net [d|] act | net [d|]]; reflexivity. Qed.

(** The first block built, when stage 0 has a block, does not subsample. *)
Lemma first_block_no_subsample hp (bs : list block) :
  map Block_as_constructed bs = expected_blocks hp ->
  Forall (fun n => 0 < n) (num_blocks hp) -> num_blocks hp <> [] ->
  exists b, head bs = Some b /\ Block_subsamples b = false.
Proof.
  intros Heq Hnb Hne. unfold expected_blocks in Heq.
  destruct (num_blocks hp) as [|n0 ns]; [done|].
  apply Forall_cons in Hnb as [Hn0 _].
  unfold enumerate, range in Heq. simpl in Heq.
  rewrite seqZ_cons in Heq by done. simpl in Heq.
  destruct bs as [|b bs]; [discriminate|]. exists b. split; [done|].
  injection Heq as Hb _. rewrite <- Block_subsamples_as_constructed, Hb.
  unfold block_at. simpl. now destruct (block_class hp).
Qed.

Lemma valid_stages_indexable num_classes num_blocks c_hidden act_fn_name block_name :
  valid_hparams num_classes num_blocks c_hidden act_fn_name block_name ->
  stages_indexable num_blocks c_hidden.
Proof.
  intros (_ & _ & _ & Hlen & Hne & _). split; [done|].
  intros i n Hi _. apply lookup_lt_Some in Hi. lia.
Qed.

Lemma valid_num_blocks num_classes num_blocks c_hidden act_fn_name block_name :
  valid_hparams num_classes num_blocks c_hidden act_fn_name block_name ->
  Forall (fun n => 0 < n) num_blocks /\ num_blocks <> [].
Proof.
  intros (_ & Hnb & _ & Hlen & Hne & _). split; [done|].
  intros ->. destruct c_hidden; simpl in *; congruence.
Qed.

(** Lists of equal length, or a shorter [num_blocks], can be indexed. *)
Lemma shorter_stages_indexable (num_blocks c_hidden : list Z) :
  (length num_blocks <= length c_hidden)%nat -> c_hidden <> [] ->
  stages_indexable num_blocks c_hidden.
Proof.
  intros Hlen Hne. split; [done|].
  intros k n Hk _. apply lookup_lt_Some in Hk. lia.
Qed.

(** *** A stage without a width *)

(** A loop whose body raises at the element after [xs1]. *)
Lemma for_each_app_raise {A B : Type} (xs1 : list A) (x : A) (xs2 : list A)
    (body : list B -> A -> M world (list B))
    (f : A -> list B) (g : A -> list layer) (e : exn) :
  (forall x' acc w, x' ∈ xs1 -> body acc x' w = (inr (acc ++ f x'), alloc_all (g x') w)) ->
  (forall acc w, body acc x w = (inl e, w)) ->
  forall acc w,
    for_each (xs1 ++ x :: xs2) body acc w
    = (inl e, alloc_all (concat (map g xs1)) w).
Proof.
  intros Hok Hraise. induction xs1 as [|x1 xs1 IH]; intros acc w; simpl.
  - now erewrite bind_raise by apply Hraise.
  - erewrite bind_run by (apply Hok; left).
    rewrite IH by (intros; apply Hok; now right).
    now rewrite alloc_all_app.
Qed.

Lemma create_blocks_raise hp w :
  (0 < length (c_hidden hp) < length (num_blocks hp))%nat ->
  Forall (fun n => 0 < n) (num_blocks hp) ->
  exists ls, create_blocks hp w = (inl IndexError, alloc_all ls w).
Proof.
  intros [Hpos Hlen] Hnb.
  destruct (lookup_lt_is_Some_2 (num_blocks hp) (length (c_hidden hp)) Hlen) as [n Hn].
  assert (0 < n) as Hnpos by (eapply Forall_lookup_1 in Hnb; eauto).
  assert (enumerate (num_blocks hp) !! length (c_hidden hp)
          = Some (Z.of_nat (length (c_hidden hp)), n)) as Hmid.
  { unfold enumerate. now rewrite list_lookup_imap, Hn. }
  unfold create_blocks. rewrite <- (take_drop_middle _ _ _ Hmid).
  eexists. apply (for_each_app_raise _ _ _ _
             (fun '(i, n) => map (block_at hp i) (range n))
             (fun '(i, n) => concat (map Block_layers (map (block_at hp i) (range n))))).
  - intros [i m] acc w' Hin.
    apply elem_of_take in Hin as (k & Hk & Hlt).
    unfold enumerate in Hk. rewrite list_lookup_imap in Hk.
    destruct (num_blocks hp !! k) eqn:E; [|discriminate]. simpl in Hk.
    inversion Hk; subst. apply stage_run. intros _. exact Hlt.
  - intros acc w'. unfold range. rewrite seqZ_cons by done. simpl.
    apply bind_raise.
    replace (0 <? Z.of_nat (length (c_hidden hp))) with true
      by (symmetry; apply Z.ltb_lt; lia).
    simpl.
    erewrite bind_run by (apply list_getitem_in_range; lia).
    apply bind_raise. apply list_getitem_out_of_range. lia.
Qed.

Lemma _create_network_raise hp w :
  (length (c_hidden hp) < length (num_blocks hp))%nat ->
  Forall (fun n => 0 < n) (num_blocks hp) ->
  exists ls,
    _create_network hp w = (inl IndexError, alloc_all ls w)
    /\ (c_hidden hp <> [] -> ls <> []).
Proof.
  intros Hlen Hnb. unfold _create_network.
  destruct (decide (c_hidden hp = [])) as [Hch|Hch].
  - exists []. split; [|done].
    apply bind_raise. now apply create_input_net_raise.
  - destruct (create_blocks_raise hp
                (alloc_all (expected_input_net hp) w)) as [ls Hls]; [|done|].
    { destruct (c_hidden hp); [done | simpl in *; lia]. }
    exists (expected_input_net hp ++ ls). split.
    + erewrite bind_run by (now apply create_input_net_run).
      erewrite bind_raise by exact Hls.
      now rewrite alloc_all_app.
    + intros _. unfold expected_input_net. now destruct (decide _).
Qed.

(** *** The registries *)

Lemma resnet_blocks_by_name_closed (name : string) :
  name <> "ResNetBlock" -> name <> "PreActResNetBlock" ->
  resnet_blocks_by_name !! name = None.
Proof.
  intros H1 H2. unfold resnet_blocks_by_name.
  rewrite lookup_insert_ne by congruence.
  now rewrite lookup_singleton_ne by congruence.
Qed.

(** Why [valid_hparams] asks for a first width: without one the first
    statement of [_create_network] raises. *)
Lemma ResNet_init_no_width num_classes num_blocks act_fn_name block_name act cls w :
  act_fn_by_name !! act_fn_name = Some act ->
  resnet_blocks_by_name !! block_name = Some cls ->
  ResNet_init num_classes num_blocks [] act_fn_name block_name w = (inl IndexError, w).
Proof.
  intros Hact Hcls. unfold ResNet_init, dict_contains, dict_getitem.
  rewrite bool_decide_eq_true_2 by (rewrite Hcls; eauto).
  erewrite bind_run by reflexivity.
  rewrite Hact, Hcls.
  erewrite bind_run by reflexivity.
  erewrite bind_run by reflexivity.
  apply bind_raise. unfold _create_network.
  apply bind_raise. now apply create_input_net_raise.
Qed.

(** *** What any returning construction has built *)

(** A loop keeps what each returning run of its body keeps. *)
Lemma for_each_inv {St A Acc : Type} (P : Acc -> Prop) (xs : list A)
    (body : Acc -> A -> M St Acc) :
  (forall acc x s acc' s', P acc -> body acc x s = (inr acc', s') -> P acc') ->
  forall acc s acc' s', P acc -> for_each xs body acc s = (inr acc', s') -> P acc'.
Proof.
  intros Hbody. induction xs as [|x xs IH]; intros acc s acc' s' HP Hrun; simpl in Hrun.
  - inversion Hrun; subst. exact HP.
  - apply bind_inv in Hrun as (acc1 & s1 & H1 & H2).
    eapply IH; [|exact H2]. eapply Hbody; eauto.
Qed.

Lemma create_blocks_untouched hp w bs w' :
  create_blocks hp w = (inr bs, w') ->
  forallb Layer_untouched (concat (map Block_layers bs)) = true.
Proof.
  unfold create_blocks.
  set (P := fun acc : list block =>
              forallb Layer_untouched (concat (map Block_layers acc)) = true).
  intros Hrun. apply (for_each_inv P) in Hrun; [exact Hrun | | reflexivity].
  clear. intros acc [i n] s acc' s' HP Hstage.
  apply (for_each_inv P) in Hstage; [exact Hstage | | exact HP].
  clear. intros acc j s acc' s' HP Hbody.
  apply bind_inv in Hbody as (c_in & s1 & _ & Hbody).
  apply bind_inv in Hbody as (c_out & s2 & _ & Hbody).
  apply bind_inv in Hbody as (b & s3 & Hb & Hbody).
  rewrite call_block_class_run in Hb.
  inversion Hb; subst. inversion Hbody; subst.
  unfold P in *. rewrite map_app, concat_app, forallb_app, HP. simpl.
  rewrite app_nil_r. apply built_block_untouched.
Qed.

Lemma create_input_net_untouched hp w ls w' :
  create_input_net hp w = (inr ls, w') -> forallb Layer_untouched ls = true.
Proof.
  unfold create_input_net. destruct (decide _); intros Hrun.
  - apply bind_inv in Hrun as (c0 & s1 & _ & Hrun).
    apply bind_inv in Hrun as (conv & s2 & Hconv & Hrun).
    inversion Hconv; subst. inversion Hrun; subst. reflexivity.
  - apply bind_inv in Hrun as (c0 & s1 & _ & Hrun).
    apply bind_inv in Hrun as (conv & s2 & Hconv & Hrun).
    apply bind_inv in Hrun as (c0' & s3 & _ & Hrun).
    apply bind_inv in Hrun as (bn & s4 & Hbn & Hrun).
    apply bind_inv in Hrun as (a & s5 & Ha & Hrun).
    inversion Hconv; subst. inversion Hbn; subst. inversion Ha; subst.
    inversion Hrun; subst. reflexivity.
Qed.

Lemma _create_network_untouched hp w net w' :
  _create_network hp w = (inr net, w') ->
  hparams net = hp /\ forallb Layer_untouched (ResNet_layers net) = true.
Proof.
  unfold _create_network. intros Hrun.
  apply bind_inv in Hrun as (inp & s1 & Hinp & Hrun).
  apply bind_inv in Hrun as (bs & s2 & Hbs & Hrun).
  apply bind_inv in Hrun as (pool & s3 & Hpool & Hrun).
  apply bind_inv in Hrun as (fl & s4 & Hfl & Hrun).
  apply bind_inv in Hrun as (c_last & s5 & _ & Hrun).
  apply bind_inv in Hrun as (lin & s6 & Hlin & Hrun).
  inversion Hpool; subst. inversion Hfl; subst. inversion Hlin; subst.
  inversion Hrun; subst. split; [reflexivity|].
  unfold ResNet_layers. simpl. rewrite !forallb_app.
  rewrite (create_input_net_untouched _ _ _ _ Hinp).
  rewrite (create_blocks_untouched _ _ _ _ Hbs). reflexivity.
Qed.

(** *** Which exceptions can be raised *)

Lemma only_raises_ret {St A : Type} (e : exn) (a : A) : only_raises (St := St) e (ret a).
Proof. intros s. exact I. Qed.

Lemma only_raises_bind {St A B : Type} (e : exn) (m : M St A) (k : A -> M St B) :
  only_raises e m -> (forall a, only_raises e (k a)) -> only_raises e (bind m k).
Proof.
  intros Hm Hk s. unfold bind. specialize (Hm s).
  destruct (m s) as [[e'|a] s1]; simpl in *; [exact Hm | apply Hk].
Qed.

Lemma only_raises_for_each {St A Acc : Type} (e : exn) (xs : list A)
    (body : Acc -> A -> M St Acc) (acc : Acc) :
  (forall acc x, only_raises e (body acc x)) -> only_raises e (for_each xs body acc).
Proof.
  intros Hbody. revert acc. induction xs as [|x xs IH]; intros acc; simpl.
  - apply only_raises_ret.
  - apply only_raises_bind; [apply Hbody | exact IH].
Qed.

Lemma only_raises_list_getitem {St A : Type} (l : list A) (i : Z) :
  only_raises (St := St) IndexError (list_getitem l i).
Proof.
  intros s. unfold list_getitem.
  destruct (_ || _); [reflexivity|]. now destruct (l !! _).
Qed.

Lemma only_raises_new (e : exn) (l : layer) : only_raises e (new l).
Proof. intros s. exact I. Qed.

Lemma only_raises_call_block_class (e : exn) cls c_in act subsample c_out :
  only_raises e (call_block_class cls c_in act subsample c_out).
Proof. intros s. now rewrite call_block_class_run. Qed.

Lemma only_raises_create_input_net hp : only_raises IndexError (create_input_net hp).
Proof.
  unfold create_input_net. destruct (decide _);
    repeat first [ apply only_raises_bind; [|intros ?]
                 | apply only_raises_list_getitem
                 | apply only_raises_new
                 | apply only_raises_ret ].
Qed.

Lemma only_raises_create_blocks hp : only_raises IndexError (create_blocks hp).
Proof.
  unfold create_blocks. apply only_raises_for_each. intros acc [i n].
  apply only_raises_for_each. intros acc' j. cbv zeta.
  apply only_raises_bind; [destruct (_ && _); apply only_raises_list_getitem | intros c_in].
  apply only_raises_bind; [apply only_raises_list_getitem | intros c_out].
  apply only_raises_bind; [apply only_raises_call_block_class | intros b].
  apply only_raises_ret.
Qed.

Lemma only_raises__create_network hp : only_raises IndexError (_create_network hp).
Proof.
  unfold _create_network.
  apply only_raises_bind; [apply only_raises_create_input_net | intros inp].
  apply only_raises_bind; [apply only_raises_create_blocks | intros bs].
  repeat first [ apply only_raises_bind; [|intros ?]
               | apply only_raises_list_getitem
               | apply only_raises_new
               | apply only_raises_ret ].
Qed.

(** A loop raises when the body raises at one of the elements and can
    raise nothing else. *)
Lemma for_each_must_raise {St A Acc : Type} (e : exn) (xs : list A)
    (body : Acc -> A -> M St Acc) (x0 : A) :
  (forall acc x, only_raises e (body acc x)) ->
  x0 ∈ xs ->
  (forall acc s, exists s', body acc x0 s = (inl e, s')) ->
  forall acc s, exists s', for_each xs body acc s = (inl e, s').
Proof.
  intros Honly Hin Hraise. induction xs as [|x xs IH]; intros acc s.
  - now apply elem_of_nil in Hin.
  - simpl. unfold bind. pose proof (Honly acc x s) as Hx.
    destruct (body acc x s) as [[e'|acc'] s1] eqn:Hbody; simpl in Hx.
    + subst e'. eauto.
    + apply elem_of_cons in Hin as [->|Hin].
      * destruct (Hraise acc s) as [s' Hs']. congruence.
      * now apply IH.
Qed.

Lemma list_getitem_nonneg {St : Type} (l : list Z) (i : Z) (s : St) :
  0 <= i ->
  list_getitem l i s = (inr (nth_Z l i), s) \/ list_getitem l i s = (inl IndexError, s).
Proof.
  intros Hi. destruct (Z.lt_ge_cases i (Z.of_nat (length l))).
  - left. apply list_getitem_in_range. lia.
  - right. now apply list_getitem_out_of_range.
Qed.

(** A stage with a block to build and no width makes the loop raise. *)
Lemma create_blocks_no_width hp (i : nat) (n : Z) w :
  num_blocks hp !! i = Some n -> 0 < n -> (length (c_hidden hp) <= i)%nat ->
  exists w', create_blocks hp w = (inl IndexError, w').
Proof.
  intros Hi Hn Hlen. unfold create_blocks.
  apply (for_each_must_raise IndexError _ _ (Z.of_nat i, n)).
  - intros acc [k m]. apply only_raises_for_each. intros acc' j. cbv zeta.
    apply only_raises_bind; [destruct (_ && _); apply only_raises_list_getitem | intros c_in].
    apply only_raises_bind; [apply only_raises_list_getitem | intros c_out].
    apply only_raises_bind; [apply only_raises_call_block_class | intros b].
    apply only_raises_ret.
  - unfold enumerate. apply elem_of_lookup_imap. eauto.
  - intros acc s. unfold range. rewrite seqZ_cons by done. simpl.
    change (0 =? 0) with true. cbn [andb].
    destruct (0 <? Z.of_nat i) eqn:Hpos.
    + apply Z.ltb_lt in Hpos.
      destruct (list_getitem_nonneg (St := world) (c_hidden hp) (Z.of_nat i - 1) s)
        as [Hok|Hbad]; [lia | |].
      * exists s. apply bind_raise. erewrite bind_run by exact Hok.
        apply bind_raise. apply list_getitem_out_of_range. lia.
      * exists s. apply bind_raise. now apply bind_raise.
    + apply Z.ltb_ge in Hpos.
      exists s. apply bind_raise. apply bind_raise.
      apply list_getitem_out_of_range. lia.
Qed.

Lemma _create_network_returns_indexable hp w net w' :
  _create_network hp w = (inr net, w') ->
  stages_indexable (num_blocks hp) (c_hidden hp).
Proof.
  intros Hrun. unfold _create_network in Hrun. split.
  - intros Hch.
    erewrite bind_raise in Hrun by (now apply create_input_net_raise). discriminate.
  - intros i n Hi Hn.
    destruct (decide (i < length (c_hidden hp))%nat) as [|Hge]; [done|].
    exfalso.
    apply bind_inv in Hrun as (inp & s1 & _ & Hrun).
    destruct (create_blocks_no_width hp i n s1 Hi Hn) as [s2 Hraise]; [lia|].
    erewrite bind_raise in Hrun by exact Hraise. discriminate.
Qed.

(** What a returning call tells about its arguments, its steps and its
    result. *)
Lemma ResNet_init_returns_steps num_classes num_blocks c_hidden act_fn_name block_name
    w net w' :
  ResNet_init num_classes num_blocks c_hidden act_fn_name block_name w = (inr net, w') ->
  exists act cls,
    act_fn_by_name !! act_fn_name = Some act
    /\ resnet_blocks_by_name !! block_name = Some cls
    /\ stages_indexable num_blocks c_hidden
    /\ nonlinearity_supported act_fn_name = true
    /\ _create_network (mkHParams num_classes num_blocks c_hidden act_fn_name act cls) w
       = (inr (expected_network
                 (mkHParams num_classes num_blocks c_hidden act_fn_name act cls)),
          alloc_all
            (ResNet_layers
               (expected_network
                  (mkHParams num_classes num_blocks c_hidden act_fn_name act cls))) w)
    /\ _init_params
         (expected_network (mkHParams num_classes num_blocks c_hidden act_fn_name act cls))
         (alloc_all
            (ResNet_layers
               (expected_network
                  (mkHParams num_classes num_blocks c_hidden act_fn_name act cls))) w)
       = (inr net, w')
    /\ init_net_rel
         (expected_network
            (mkHParams num_classes num_blocks c_hidden act_fn_name act cls)) net
    /\ allocated w'
       = allocated w
         ++ ResNet_layers
              (expected_network
                 (mkHParams num_classes num_blocks c_hidden act_fn_name act cls)).
Proof.
  intros Hrun. pose proof Hrun as Hrun0. unfold ResNet_init in Hrun.
  apply bind_inv in Hrun as ([] & s1 & Hassert & Hrun).
  apply bind_inv in Hrun as (act & s2 & Hact & Hrun).
  apply bind_inv in Hrun as (cls & s3 & Hcls & _).
  unfold dict_getitem in Hact, Hcls.
  destruct (act_fn_by_name !! act_fn_name) as [act'|] eqn:Eact; [|discriminate].
  destruct (resnet_blocks_by_name !! block_name) as [cls'|] eqn:Ecls; [|discriminate].
  inversion Hact; subst. inversion Hcls; subst.
  exists act, cls. split; [done|]. split; [done|].
  rewrite (ResNet_init_known _ _ _ _ _ act cls w Eact Ecls) in Hrun0.
  set (hp := mkHParams num_classes num_blocks c_hidden act_fn_name act cls) in *.
  apply bind_inv in Hrun0 as (net0 & w0 & Hcreate & Hinit).
  pose proof (_create_network_returns_indexable hp _ net0 w0 Hcreate) as Hidx.
  split; [exact Hidx|].
  rewrite (_create_network_run hp w Hidx) in Hcreate.
  injection Hcreate as <- <-.
  pose proof (_init_params_inv _ _ _ _ Hinit) as [Hrel Halloc].
  rewrite allocated_alloc_all in Halloc.
  assert (nonlinearity_supported act_fn_name = true) as Hs.
  { destruct (nonlinearity_supported act_fn_name) eqn:Hs; [reflexivity|].
    rewrite (_init_params_raise hp _ Hs) in Hinit. discriminate. }
  split; [exact Hs|].
  split; [apply (_create_network_run hp w Hidx)|].
  split; [exact Hinit|]. split; [exact Hrel | exact Halloc].
Qed.

Lemma ResNet_init_returns_inv num_classes num_blocks c_hidden act_fn_name block_name
    w net w' :
  ResNet_init num_classes num_blocks c_hidden act_fn_name block_name w = (inr net, w') ->
  exists act cls,
    act_fn_by_name !! act_fn_name = Some act
    /\ resnet_blocks_by_name !! block_name = Some cls
    /\ stages_indexable num_blocks c_hidden
    /\ init_net_rel
         (expected_network
            (mkHParams num_classes num_blocks c_hidden act_fn_name act cls)) net.
Proof.
  intros Hrun.
  apply ResNet_init_returns_steps in Hrun
    as (act & cls & Hact & Hcls & Hidx & _ & _ & _ & Hrel & _).
  now exists act, cls.
Qed.

(** ** The claims *)

(** C5.  A call of [ResNet.__init__] (the specification's [build]) with a
    block name other than the two names of [resnet_blocks_by_name] fails
    at its first statement, the assertion of line 96, whatever the other
    arguments are: the exception is [AssertionError], the failure the
    specification calls UnknownBlockVariant; no layer has been allocated
    and the random generator has not been used (the world is unchanged). *)
Theorem build_unknown_block_variant
    (num_classes : Z) (num_blocks c_hidden : list Z)
    (act_fn_name block_name : string) (w : world) :
  block_name <> "ResNetBlock" -> block_name <> "PreActResNetBlock" ->
  ResNet_init num_classes num_blocks c_hidden act_fn_name block_name w
  = (inl AssertionError, w).
Proof.
  intros H1 H2. unfold ResNet_init, dict_contains.
  rewrite resnet_blocks_by_name_closed by done.
  rewrite bool_decide_eq_false_2 by (intros [? ?]; discriminate).
  reflexivity.
Qed.

(** C8.  When [act_fn_name] is not a key of [act_fn_by_name], the
    resolution of the activation (the lookup of line 101) fails with
    [KeyError], the failure the specification calls UnknownActivation;
    a call of [ResNet.__init__] with a known block name fails with that
    exception, and every call fails, with the world unchanged. *)
Theorem build_unknown_activation
    (num_classes : Z) (num_blocks c_hidden : list Z)
    (act_fn_name block_name : string) (w : world) :
  act_fn_by_name !! act_fn_name = None ->
  dict_getitem act_fn_by_name act_fn_name w = (inl (KeyError act_fn_name), w)
  /\ (is_Some (resnet_blocks_by_name !! block_name) ->
      ResNet_init num_classes num_blocks c_hidden act_fn_name block_name w
      = (inl (KeyError act_fn_name), w))
  /\ exists e,
      ResNet_init num_classes num_blocks c_hidden act_fn_name block_name w = (inl e, w).
Proof.
  intros Hnone.
  assert (dict_getitem act_fn_by_name act_fn_name w = (inl (KeyError act_fn_name), w))
    as Hget by (unfold dict_getitem; now rewrite Hnone).
  assert (is_Some (resnet_blocks_by_name !! block_name) ->
          ResNet_init num_classes num_blocks c_hidden act_fn_name block_name w
          = (inl (KeyError act_fn_name), w)) as Hknown.
  { intros Hsome. unfold ResNet_init, dict_contains.
    rewrite bool_decide_eq_true_2 by done.
    erewrite bind_run by reflexivity.
    now erewrite bind_raise by exact Hget. }
  split; [exact Hget | split; [exact Hknown |]].
  destruct (resnet_blocks_by_name !! block_name) as [cls|] eqn:Hcls.
  - exists (KeyError act_fn_name). apply Hknown. eauto.
  - exists AssertionError. unfold ResNet_init, dict_contains.
    rewrite Hcls.
    rewrite bool_decide_eq_false_2 by (intros [? ?]; discriminate).
    reflexivity.
Qed.

Lemma expected_input_net_lookup hp (c0 : Z) :
  c_hidden hp !! 0%nat = Some c0 ->
  expected_input_net hp
  = if decide (block_class hp = class_PreActResNetBlock)
    then [ Conv2d 3 c0 3 1 1 false [] ]
    else [ Conv2d 3 c0 3 1 1 false []; BatchNorm2d c0 [] []; Activation (act_fn hp) ].
Proof.
  intros Hc0. unfold expected_input_net, nth_Z.
  change (Z.to_nat 0) with 0%nat. now rewrite Hc0.
Qed.

(** C6.  For valid hyperparameters [_create_network] sets the input
    adapter to one 3x3 convolution without bias (padding 1, stride 1) from
    3 channels to [c_hidden[0]], alone when the resolved block class is
    the Pre-Activation one, and followed by a normalisation of
    [c_hidden[0]] channels and an activation otherwise.  The input adapter
    of every network [ResNet.__init__] returns is that sequence, as
    constructed, and the call does return a network when
    [kaiming_normal_] accepts the activation name as nonlinearity. *)
Theorem build_input_adapter
    (num_classes : Z) (num_blocks c_hidden : list Z)
    (act_fn_name block_name : string) (act : ActCtor) (cls : BlockClass) (c0 : Z)
    (w : world) :
  valid_hparams num_classes num_blocks c_hidden act_fn_name block_name ->
  act_fn_by_name !! act_fn_name = Some act ->
  resnet_blocks_by_name !! block_name = Some cls ->
  c_hidden !! 0%nat = Some c0 ->
  (exists net0 w0,
     _create_network (mkHParams num_classes num_blocks c_hidden act_fn_name act cls) w
     = (inr net0, w0)
     /\ input_net net0
        = if decide (cls = class_PreActResNetBlock)
          then [ Conv2d 3 c0 3 1 1 false [] ]
          else [ Conv2d 3 c0 3 1 1 false []; BatchNorm2d c0 [] []; Activation act ])
  /\ (forall net w',
        ResNet_init num_classes num_blocks c_hidden act_fn_name block_name w
        = (inr net, w') ->
        map Layer_as_constructed (input_net net)
        = if decide (cls = class_PreActResNetBlock)
          then [ Conv2d 3 c0 3 1 1 false [] ]
          else [ Conv2d 3 c0 3 1 1 false []; BatchNorm2d c0 [] []; Activation act ])
  /\ (nonlinearity_supported act_fn_name = true ->
      exists net w',
        ResNet_init num_classes num_blocks c_hidden act_fn_name block_name w
        = (inr net, w')).
Proof.
  intros Hvalid Hact Hcls Hc0.
  pose proof (valid_stages_indexable _ _ _ _ _ Hvalid) as Hidx.
  pose proof (expected_input_net_lookup
                (mkHParams num_classes num_blocks c_hidden act_fn_name act cls) c0 Hc0)
    as Hinp.
  cbn [block_class act_fn] in Hinp.
  split; [|split].
  - eexists _, _. split.
    + exact (_create_network_run
               (mkHParams num_classes num_blocks c_hidden act_fn_name act cls) w Hidx).
    + exact Hinp.
  - intros net w' Hrun.
    apply ResNet_init_returns_inv in Hrun as (act' & cls' & Hact' & Hcls' & _ & Hrel).
    rewrite Hact in Hact'. rewrite Hcls in Hcls'.
    injection Hact' as <-. injection Hcls' as <-.
    rewrite (Forall2_init_rel_as_constructed _ _ _ (init_input_net _ _ Hrel)).
    cbn [input_net expected_network]. rewrite Hinp.
    now destruct (decide _).
  - intros Hs.
    destruct (ResNet_init_run num_classes num_blocks c_hidden act_fn_name block_name
                act cls w Hact Hcls Hidx Hs) as (net & g & Hrun & _).
    eauto.
Qed.

(** C2.  For valid hyperparameters the flat block sequence that
    [_create_network] builds lists, in the order of the positions "stage
    [i] in [0..len(num_blocks)-1], position [j] in [0..num_blocks[i]-1]",
    the block the resolved class returns for [(c_in, act, subsample,
    c_hidden[i])] with [subsample = (j == 0 and i > 0)] and
    [c_in = c_hidden[i-1] if subsample else c_hidden[i]]; its first block,
    the first of stage 0, does not subsample.  The blocks of every network
    [ResNet.__init__] returns are these, and the call does return a
    network when [kaiming_normal_] accepts the activation name as
    nonlinearity. *)
Theorem build_block_sequence
    (num_classes : Z) (num_blocks c_hidden : list Z)
    (act_fn_name block_name : string) (act : ActCtor) (cls : BlockClass)
    (w : world) :
  valid_hparams num_classes num_blocks c_hidden act_fn_name block_name ->
  act_fn_by_name !! act_fn_name = Some act ->
  resnet_blocks_by_name !! block_name = Some cls ->
  (exists net0 w0,
     _create_network (mkHParams num_classes num_blocks c_hidden act_fn_name act cls) w
     = (inr net0, w0)
     /\ Forall2 (built_at cls act c_hidden) (spec_positions num_blocks) (blocks net0)
     /\ exists b, head (blocks net0) = Some b /\ Block_subsamples b = false)
  /\ (forall net w',
        ResNet_init num_classes num_blocks c_hidden act_fn_name block_name w
        = (inr net, w') ->
        Forall2 (built_at cls act c_hidden) (spec_positions num_blocks) (blocks net)
        /\ exists b, head (blocks net) = Some b /\ Block_subsamples b = false)
  /\ (nonlinearity_supported act_fn_name = true ->
      exists net w',
        ResNet_init num_classes num_blocks c_hidden act_fn_name block_name w
        = (inr net, w')).
Proof.
  intros Hvalid Hact Hcls.
  pose proof (valid_stages_indexable _ _ _ _ _ Hvalid) as Hidx.
  pose proof (valid_num_blocks _ _ _ _ _ Hvalid) as [Hnb Hne].
  split; [|split].
  - eexists _, _. split; [|split].
    + exact (_create_network_run
               (mkHParams num_classes num_blocks c_hidden act_fn_name act cls) w Hidx).
    + exact (blocks_built_at_constructed
               (mkHParams num_classes num_blocks c_hidden act_fn_name act cls) _ Hidx
               (expected_blocks_as_constructed _)).
    + exact (first_block_no_subsample
               (mkHParams num_classes num_blocks c_hidden act_fn_name act cls) _
               (expected_blocks_as_constructed _) Hnb Hne).
  - intros net w' Hrun.
    apply ResNet_init_returns_inv in Hrun as (act' & cls' & Hact' & Hcls' & _ & Hrel).
    rewrite Hact in Hact'. rewrite Hcls in Hcls'.
    injection Hact' as <-. injection Hcls' as <-.
    split.
    + exact (blocks_built_at
               (mkHParams num_classes num_blocks c_hidden act_fn_name act cls)
               net Hidx Hrel).
    + exact (first_block_no_subsample
               (mkHParams num_classes num_blocks c_hidden act_fn_name act cls) _
               (init_net_rel_expected_blocks _ _ Hrel) Hnb Hne).
  - intros Hs.
    destruct (ResNet_init_run num_classes num_blocks c_hidden act_fn_name block_name
                act cls w Hact Hcls Hidx Hs) as (net & g & Hrun & _).
    eauto.
Qed.

Lemma init_net_rel_layers_as_constructed (net0 net : resnet) :
  init_net_rel net0 net ->
  forallb Layer_untouched (ResNet_layers net0) = true ->
  map Layer_as_constructed (ResNet_layers net) = ResNet_layers net0.
Proof.
  intros Hrel Hun.
  rewrite (Forall2_init_rel_as_constructed _ _ _ (init_net_rel_layers _ _ Hrel)).
  now apply as_constructed_untouched.
Qed.

(** C9.  For valid hyperparameters two calls of [ResNet.__init__] with the
    same arguments, started in any two worlds (any states of the random
    generator, any earlier allocations), have the same outcome: both
    return a network, or both raise the same exception.  Two returned
    networks have the same structure: the same layers with the same
    configuration and the same kind of initialisation, differing at most
    in the random values drawn.  Besides the use of the generator, the only
    effect of a call is the allocation of layers: the two calls allocate
    the same layers, which are those of the returned network.  Both calls
    return a network when [kaiming_normal_] accepts the activation name as
    nonlinearity. *)
Theorem build_deterministic
    (num_classes : Z) (num_blocks c_hidden : list Z)
    (act_fn_name block_name : string) (w1 w2 : world) :
  valid_hparams num_classes num_blocks c_hidden act_fn_name block_name ->
  (exists ls,
     allocated
       (snd (ResNet_init num_classes num_blocks c_hidden act_fn_name block_name w1))
     = allocated w1 ++ ls
     /\ allocated
          (snd (ResNet_init num_classes num_blocks c_hidden act_fn_name block_name w2))
        = allocated w2 ++ ls
     /\ match
          fst (ResNet_init num_classes num_blocks c_hidden act_fn_name block_name w1),
          fst (ResNet_init num_classes num_blocks c_hidden act_fn_name block_name w2)
        with
        | inr net1, inr net2 =>
            ResNet_structure net1 = ResNet_structure net2
            /\ map Layer_as_constructed (ResNet_layers net1) = ls
            /\ map Layer_as_constructed (ResNet_layers net2) = ls
        | inl e1, inl e2 => e1 = e2
        | _, _ => False
        end)
  /\ (nonlinearity_supported act_fn_name = true ->
      exists net1 net2,
        fst (ResNet_init num_classes num_blocks c_hidden act_fn_name block_name w1)
        = inr net1
        /\ fst (ResNet_init num_classes num_blocks c_hidden act_fn_name block_name w2)
           = inr net2).
Proof.
  intros Hvalid.
  pose proof (valid_stages_indexable _ _ _ _ _ Hvalid) as Hidx.
  destruct Hvalid as (_ & _ & _ & _ & _ & [act Hact] & [cls Hcls]).
  destruct (nonlinearity_supported act_fn_name) eqn:Hs.
  - destruct (ResNet_init_run num_classes num_blocks c_hidden act_fn_name block_name
                act cls w1 Hact Hcls Hidx Hs) as (net1 & g1 & Hrun1 & _ & _ & Hrel1).
    destruct (ResNet_init_run num_classes num_blocks c_hidden act_fn_name block_name
                act cls w2 Hact Hcls Hidx Hs) as (net2 & g2 & Hrun2 & _ & _ & Hrel2).
    rewrite Hrun1, Hrun2. cbn [fst snd allocated].
    split; [|intros _; now exists net1, net2].
    eexists. split; [reflexivity|]. split; [reflexivity|]. split; [|split].
    + now rewrite (init_net_rel_structure _ _ Hrel1), (init_net_rel_structure _ _ Hrel2).
    + apply init_net_rel_layers_as_constructed; [done | apply expected_network_untouched].
    + apply init_net_rel_layers_as_constructed; [done | apply expected_network_untouched].
  - rewrite (ResNet_init_unsupported num_classes num_blocks c_hidden act_fn_name
               block_name act cls w1 Hact Hcls Hidx Hs).
    rewrite (ResNet_init_unsupported num_classes num_blocks c_hidden act_fn_name
               block_name act cls w2 Hact Hcls Hidx Hs).
    cbn [fst snd]. rewrite !allocated_alloc_all.
    split; [|discriminate].
    eexists. split; [reflexivity|]. split; reflexivity.
Qed.


(** C1, as the code has it.  [ResNet.__init__] does not compare the
    lengths of [num_blocks] and [c_hidden].  With known names and positive
    widths: when [num_blocks] is the shorter list, the number of classes
    is positive and [kaiming_normal_] accepts the activation name, a
    network is returned, built from the first [len(num_blocks)] widths;
    when [num_blocks] is the longer list and its counts are positive, the
    call fails with [IndexError], raised by the indexing of [c_hidden],
    and returns no network; unless [c_hidden] is empty, layers have been
    allocated by then. *)
Theorem build_mismatched_stage_lengths
    (num_classes : Z) (num_blocks c_hidden : list Z)
    (act_fn_name block_name : string) (act : ActCtor) (cls : BlockClass)
    (w : world) :
  act_fn_by_name !! act_fn_name = Some act ->
  resnet_blocks_by_name !! block_name = Some cls ->
  Forall (fun c => 0 < c) c_hidden ->
  ((length num_blocks < length c_hidden)%nat ->
   0 < num_classes ->
   nonlinearity_supported act_fn_name = true ->
   exists net w',
     ResNet_init num_classes num_blocks c_hidden act_fn_name block_name w = (inr net, w')
     /\ Forall2 (built_at cls act c_hidden) (spec_positions num_blocks) (blocks net))
  /\ ((length c_hidden < length num_blocks)%nat ->
      Forall (fun n => 0 < n) num_blocks ->
      exists w',
        ResNet_init num_classes num_blocks c_hidden act_fn_name block_name w
        = (inl IndexError, w')
        /\ (c_hidden <> [] -> (length (allocated w) < length (allocated w'))%nat)).
Proof.
  intros Hact Hcls _. split.
  - intros Hlen _ Hs.
    assert (stages_indexable num_blocks c_hidden) as Hidx.
    { apply shorter_stages_indexable; [lia|].
      destruct c_hidden; [simpl in *; lia | done]. }
    destruct (ResNet_init_run num_classes num_blocks c_hidden act_fn_name block_name
                act cls w Hact Hcls Hidx Hs) as (net & g & Hrun & _ & _ & Hrel).
    eexists net, _. split; [exact Hrun|].
    exact (blocks_built_at
             (mkHParams num_classes num_blocks c_hidden act_fn_name act cls)
             net Hidx Hrel).
  - intros Hlen Hnb.
    destruct (_create_network_raise
                (mkHParams num_classes num_blocks c_hidden act_fn_name act cls) w
                Hlen Hnb) as (ls & Hraise & Hls).
    exists (alloc_all ls w). split.
    + rewrite (ResNet_init_known _ _ _ _ _ act cls w Hact Hcls).
      now erewrite bind_raise by exact Hraise.
    + intros Hne. rewrite allocated_alloc_all, length_app.
      specialize (Hls Hne). destruct ls; [done | simpl; lia].
Qed.

(** C7.  When [ResNet.__init__] returns a network, the call has been
    [_create_network], which allocates the layers of a network [net0] and
    leaves every one of them without any [nn.init] call, followed at once
    by one run of [_init_params] on [net0], which allocates nothing.  The
    returned network is [net0] with its tensors initialised: its input
    adapter, blocks and output head are, as constructed, those of [net0],
    layer by layer, and every primitive layer among its sub-modules is
    initialised as section 4.6 asks: each convolution weight has received
    exactly one [nn.init] call, [kaiming_normal_] with mode fan_out and
    the configured activation name as nonlinearity, each normalisation
    layer exactly one call per parameter, constant 1 for the scale and
    constant 0 for the shift, and no other layer any. *)
Theorem build_initializes_parameters
    (num_classes : Z) (num_blocks c_hidden : list Z)
    (act_fn_name block_name : string) (w w' : world) (net : resnet) :
  ResNet_init num_classes num_blocks c_hidden act_fn_name block_name w = (inr net, w') ->
  exists net0 w0,
    _create_network (hparams net) w = (inr net0, w0)
    /\ _init_params net0 w0 = (inr net, w')
    /\ allocated w0 = allocated w ++ ResNet_layers net0
    /\ allocated w' = allocated w0
    /\ forallb Layer_untouched (ResNet_layers net0) = true
    /\ hparams net = hparams net0
    /\ map Layer_as_constructed (input_net net) = input_net net0
    /\ map Block_as_constructed (blocks net) = blocks net0
    /\ map Layer_as_constructed (output_net net) = output_net net0
    /\ map Layer_as_constructed (ResNet_layers net) = ResNet_layers net0
    /\ Forall2 (init_rel act_fn_name) (ResNet_layers net0) (ResNet_layers net)
    /\ forallb (Layer_initialized act_fn_name) (ResNet_layers net) = true.
Proof.
  intros Hrun.
  apply ResNet_init_returns_steps in Hrun
    as (act & cls & _ & _ & _ & _ & Hcreate & Hinit & Hrel & Halloc).
  pose proof (expected_network_untouched
                (mkHParams num_classes num_blocks c_hidden act_fn_name act cls)) as Hun.
  pose proof (init_net_rel_layers _ _ Hrel) as Hlayers.
  pose proof (init_hparams _ _ Hrel) as Hhp.
  simpl in Hlayers, Hhp.
  eexists _, _. rewrite Hhp.
  split; [exact Hcreate|]. split; [exact Hinit|].
  split; [apply allocated_alloc_all|].
  split; [now rewrite allocated_alloc_all|].
  split; [exact Hun|]. split; [reflexivity|].
  split.
  { rewrite (Forall2_init_rel_as_constructed _ _ _ (init_input_net _ _ Hrel)).
    apply as_constructed_untouched. cbn [input_net expected_network].
    unfold expected_input_net. now destruct (decide _). }
  split.
  { rewrite (init_net_rel_blocks_as_constructed _ _ Hrel).
    apply expected_blocks_as_constructed. }
  split.
  { now rewrite (Forall2_init_rel_as_constructed _ _ _ (init_output_net _ _ Hrel)). }
  split; [now apply init_net_rel_layers_as_constructed|].
  split; [exact Hlayers|].
  now apply (Forall2_init_rel_initialized _ _ _ Hlayers).
Qed.

(** ** The two blocks *)




(** ** Further properties of the construction *)

Lemma enumerate_from_0 {A : Type} (l : list A) : enumerate l = enumerate_from 0 l.
Proof. reflexivity. Qed.

Lemma enumerate_from_cons {A : Type} (k : nat) (x : A) (l : list A) :
  enumerate_from k (x :: l) = (Z.of_nat k, x) :: enumerate_from (S k) l.
Proof.
  unfold enumerate_from. rewrite imap_cons. f_equal.
  - now rewrite Nat.add_0_r.
  - apply imap_ext. intros i y _. simpl. do 2 f_equal. lia.
Qed.

Lemma length_stages {B : Type} (F : Z -> Z -> B) (k : nat) (l : list Z) :
  length (concat (map (fun '(i, n) => map (F i) (range n)) (enumerate_from k l)))
  = sum_list_with Z.to_nat l.
Proof.
  revert k. induction l as [|n l IH]; intros k; [reflexivity|].
  rewrite enumerate_from_cons. simpl.
  rewrite length_app, length_map, IH. unfold range. now rewrite length_seqZ.
Qed.

(** X1.  The outcome of [ResNet.__init__], case by case, for positive
    widths and a positive number of classes.  It returns a network exactly
    when both names are keys of their registries, [c_hidden] is not empty,
    every stage with a positive block count has a width, and
    [kaiming_normal_] accepts the activation name as nonlinearity.
    Otherwise it raises [AssertionError] when the block name is unknown,
    else [KeyError] with the activation name when that name is unknown,
    else [IndexError] when a width is missing, else [ValueError]; it raises
    nothing else. *)
Theorem ResNet_init_outcome
    (num_classes : Z) (num_blocks c_hidden : list Z)
    (act_fn_name block_name : string) (w : world) :
  0 < num_classes ->
  Forall (fun c => 0 < c) c_hidden ->
  match fst (ResNet_init num_classes num_blocks c_hidden act_fn_name block_name w) with
  | inr _ =>
      is_Some (resnet_blocks_by_name !! block_name)
      /\ is_Some (act_fn_by_name !! act_fn_name)
      /\ stages_indexable num_blocks c_hidden
      /\ nonlinearity_supported act_fn_name = true
  | inl e =>
      (resnet_blocks_by_name !! block_name = None /\ e = AssertionError)
      \/ (is_Some (resnet_blocks_by_name !! block_name)
          /\ act_fn_by_name !! act_fn_name = None /\ e = KeyError act_fn_name)
      \/ (is_Some (resnet_blocks_by_name !! block_name)
          /\ is_Some (act_fn_by_name !! act_fn_name)
          /\ ~ stages_indexable num_blocks c_hidden /\ e = IndexError)
      \/ (is_Some (resnet_blocks_by_name !! block_name)
          /\ is_Some (act_fn_by_name !! act_fn_name)
          /\ stages_indexable num_blocks c_hidden
          /\ nonlinearity_supported act_fn_name = false
          /\ e = ValueError act_fn_name)
  end.
Proof.
  intros _ _.
  destruct (resnet_blocks_by_name !! block_name) as [cls|] eqn:Hcls.
  - destruct (act_fn_by_name !! act_fn_name) as [act|] eqn:Hact.
    + destruct (ResNet_init num_classes num_blocks c_hidden act_fn_name block_name w)
        as [[e|net] w'] eqn:Hrun; simpl.
      * right. right.
        rewrite (ResNet_init_known _ _ _ _ _ act cls w Hact Hcls) in Hrun.
        unfold bind in Hrun.
        pose proof (only_raises__create_network
                      (mkHParams num_classes num_blocks c_hidden act_fn_name act cls) w)
          as Honly.
        destruct (_create_network _ w) as [[e'|net0] w0] eqn:Hcreate; simpl in Honly.
        -- left. split; [eauto|]. split; [eauto|]. split; [|congruence].
           intros Hidx.
           rewrite (_create_network_run
                      (mkHParams num_classes num_blocks c_hidden act_fn_name act cls)
                      w Hidx) in Hcreate.
           discriminate.
        -- right. split; [eauto|]. split; [eauto|].
           pose proof (_create_network_returns_indexable _ _ _ _ Hcreate) as Hidx.
           simpl in Hidx.
           split; [exact Hidx|].
           rewrite (_create_network_run
                      (mkHParams num_classes num_blocks c_hidden act_fn_name act cls)
                      w Hidx) in Hcreate.
           injection Hcreate as <- <-.
           destruct (nonlinearity_supported act_fn_name) eqn:Hs.
           ++ destruct (_init_params_run
                          (expected_network
                             (mkHParams num_classes num_blocks c_hidden act_fn_name
                                act cls))
                          (alloc_all
                             (ResNet_layers
                                (expected_network
                                   (mkHParams num_classes num_blocks c_hidden
                                      act_fn_name act cls))) w) Hs)
                as (net' & g & Hinit & _).
              congruence.
           ++ split; [reflexivity|].
              rewrite (_init_params_raise
                         (mkHParams num_classes num_blocks c_hidden act_fn_name act cls)
                         _ Hs) in Hrun.
              simpl in Hrun. congruence.
      * apply ResNet_init_returns_steps in Hrun
          as (act' & cls' & _ & _ & Hidx & Hs & _).
        split; [eauto|]. split; [eauto|]. split; [exact Hidx | exact Hs].
    + replace (ResNet_init num_classes num_blocks c_hidden act_fn_name block_name w)
        with (@inl exn resnet (KeyError act_fn_name), w); [simpl; right; left; eauto|].
      unfold ResNet_init, dict_contains, dict_getitem.
      rewrite bool_decide_eq_true_2 by (rewrite Hcls; eauto).
      erewrite bind_run by reflexivity. now rewrite Hact.
  - replace (ResNet_init num_classes num_blocks c_hidden act_fn_name block_name w)
      with (@inl exn resnet AssertionError, w); [simpl; left; eauto|].
    unfold ResNet_init, dict_contains. rewrite Hcls.
    now rewrite bool_decide_eq_false_2 by (intros [? ?]; discriminate).
Qed.

(** X2.  The output head of every network [ResNet.__init__] returns is
    [AdaptiveAvgPool2d((1,1))], [Flatten()], [Linear(c_hidden[-1],
    num_classes)]: its input width is the last entry of [c_hidden],
    whatever the number of stages built, and [_init_params] leaves the
    three layers as their constructors returned them. *)
Theorem build_output_head
    (num_classes : Z) (num_blocks c_hidden : list Z)
    (act_fn_name block_name : string) (w w' : world) (net : resnet) :
  ResNet_init num_classes num_blocks c_hidden act_fn_name block_name w = (inr net, w') ->
  exists c_last,
    last c_hidden = Some c_last
    /\ output_net net = [ AdaptiveAvgPool2d 1 1; Flatten; Linear c_last num_classes ].
Proof.
  intros Hrun.
  apply ResNet_init_returns_inv in Hrun as (act & cls & _ & _ & [Hne _] & Hrel).
  destruct (last c_hidden) as [c_last|] eqn:Hlast;
    [|apply last_None in Hlast; contradiction].
  exists c_last. split; [reflexivity|].
  destruct Hrel as [_ _ _ Ho]. simpl in Ho. unfold expected_output_net in Ho.
  simpl in Ho. rewrite Hlast in Ho. simpl in Ho.
  apply Forall2_cons_inv_l in Ho as (m1 & l1 & Hm1 & Ho & ->).
  apply Forall2_cons_inv_l in Ho as (m2 & l2 & Hm2 & Ho & ->).
  apply Forall2_cons_inv_l in Ho as (m3 & l3 & Hm3 & Ho & ->).
  apply Forall2_nil_inv_l in Ho as ->.
  simpl in Hm1, Hm2, Hm3. now subst.
Qed.

(** X3.  The number of blocks of every network [ResNet.__init__] returns
    is the sum of the entries of [num_blocks], a negative entry counting
    as zero. *)
Theorem build_block_count
    (num_classes : Z) (num_blocks c_hidden : list Z)
    (act_fn_name block_name : string) (w w' : world) (net : resnet) :
  ResNet_init num_classes num_blocks c_hidden act_fn_name block_name w = (inr net, w') ->
  length (blocks net) = sum_list_with Z.to_nat num_blocks.
Proof.
  intros Hrun.
  apply ResNet_init_returns_inv in Hrun as (act & cls & _ & _ & _ & Hrel).
  destruct Hrel as [_ _ Hb _]. apply Forall2_length in Hb. rewrite <- Hb. simpl.
  unfold expected_blocks. rewrite enumerate_from_0. apply length_stages.
Qed.

(** X4.  [_init_params] on any network, built by [ResNet.__init__] or not.
    Whenever it returns, it has allocated no layer and changed no
    constructor argument of any layer: a [Conv2d] has received one more
    [kaiming_normal_] call with the network's activation name, a
    [BatchNorm2d] one more [constant_] call on each parameter, and every
    other layer is as it was.  It returns when [kaiming_normal_] accepts
    the network's activation name as nonlinearity; when it does not, the
    run fails with [ValueError] on a network whose first sub-module is a
    convolution with positive sizes, with nothing drawn or allocated. *)
Theorem _init_params_keeps_architecture (net : resnet) (w : world) :
  (forall net' w',
     _init_params net w = (inr net', w') ->
     allocated w' = allocated w
     /\ hparams net' = hparams net
     /\ map Layer_as_constructed (input_net net') = map Layer_as_constructed (input_net net)
     /\ map Block_as_constructed (blocks net') = map Block_as_constructed (blocks net)
     /\ map Layer_as_constructed (output_net net')
        = map Layer_as_constructed (output_net net)
     /\ Forall2 (init_rel (act_fn_name (hparams net)))
          (ResNet_layers net) (ResNet_layers net'))
  /\ (nonlinearity_supported (act_fn_name (hparams net)) = true ->
      exists net' w', _init_params net w = (inr net', w'))
  /\ (nonlinearity_supported (act_fn_name (hparams net)) = false ->
      forall ci co k p s b wt rest,
        input_net net = Conv2d ci co k p s b wt :: rest ->
        0 < ci -> 0 < co -> 0 < k ->
        _init_params net w = (inl (ValueError (act_fn_name (hparams net))), w)).
Proof.
  split; [|split].
  - intros net' w' Hrun. apply _init_params_inv in Hrun as [Hrel Halloc].
    split; [exact Halloc|].
    split; [apply (init_hparams _ _ Hrel)|].
    split; [apply (Forall2_init_rel_as_constructed _ _ _ (init_input_net _ _ Hrel))|].
    split; [apply (init_net_rel_blocks_as_constructed _ _ Hrel)|].
    split; [apply (Forall2_init_rel_as_constructed _ _ _ (init_output_net _ _ Hrel))|].
    now apply init_net_rel_layers.
  - intros Hs. destruct (_init_params_run net w Hs) as (net' & g & Hrun & _). eauto.
  - intros Hs ci co k p s b wt rest Hinp _ _ _.
    unfold _init_params. cbv zeta. apply bind_raise. rewrite Hinp.
    cbn [mapM]. apply bind_raise. now apply init_module_raise.
Qed.

(** *** What a call allocates *)

Lemma keeps_ret {A : Type} (I : world -> Prop) (a : A) (Q : A -> Prop) :
  Q a -> keeps I (ret a) Q.
Proof. intros Ha w Hw. now split. Qed.

Lemma keeps_raise {A : Type} (I : world -> Prop) (e : exn) (Q : A -> Prop) :
  keeps I (raise e) Q.
Proof. intros w Hw. now split. Qed.

Lemma keeps_bind {A B : Type} (I : world -> Prop) (m : M world A) (k : A -> M world B)
    (Q : A -> Prop) (R : B -> Prop) :
  keeps I m Q -> (forall a, Q a -> keeps I (k a) R) -> keeps I (bind m k) R.
Proof.
  intros Hm Hk w Hw. unfold bind. destruct (Hm w Hw) as [HI HQ].
  destruct (m w) as [[e|a] w1]; simpl in *; [now split|].
  now apply Hk.
Qed.

Lemma keeps_for_each {A Acc : Type} (I : world -> Prop) (xs : list A)
    (body : Acc -> A -> M world Acc) :
  (forall acc x, keeps I (body acc x) (fun _ => True)) ->
  forall acc, keeps I (for_each xs body acc) (fun _ => True).
Proof.
  intros Hbody. induction xs as [|x xs IH]; intros acc; simpl.
  - now apply keeps_ret.
  - apply (keeps_bind _ _ _ (fun _ => True)); [apply Hbody | intros acc' _; apply IH].
Qed.

Lemma keeps_mapM {A B : Type} (I : world -> Prop) (f : A -> M world B) (xs : list A) :
  (forall x, keeps I (f x) (fun _ => True)) -> keeps I (mapM f xs) (fun _ => True).
Proof.
  intros Hf. induction xs as [|x xs IH]; simpl.
  - now apply keeps_ret.
  - apply (keeps_bind _ _ _ (fun _ => True)); [apply Hf | intros y _].
    apply (keeps_bind _ _ _ (fun _ => True)); [apply IH | intros ys _].
    now apply keeps_ret.
Qed.

(** Indexing changes nothing and returns an element of the list. *)
Lemma keeps_list_getitem (I : world -> Prop) (l : list Z) (i : Z) :
  keeps I (list_getitem l i) (fun x => x ∈ l).
Proof.
  intros w Hw. unfold list_getitem.
  destruct (_ || _); [now split|].
  destruct (l !! _) as [x|] eqn:E; simpl; [|now split].
  split; [done|]. now apply list_elem_of_lookup_2 in E.
Qed.

Lemma allocated_sized_alloc_all (w0 w : world) (ls : list layer) :
  forallb Layer_sized ls = true ->
  allocated_sized w0 w -> allocated_sized w0 (alloc_all ls w).
Proof.
  intros Hls (ls0 & Hw & Hs). exists (ls0 ++ ls). split.
  - now rewrite allocated_alloc_all, Hw, app_assoc.
  - now rewrite forallb_app, Hs, Hls.
Qed.

Lemma keeps_new (w0 : world) (l : layer) :
  Layer_sized l = true -> keeps (allocated_sized w0) (new l) (fun _ => True).
Proof.
  intros Hl w Hw. split; [|exact I].
  apply (allocated_sized_alloc_all w0 w [l]); [|exact Hw].
  simpl. now rewrite Hl.
Qed.

Lemma Conv2d_sized (ci co k p s : Z) (b : bool) (wt : Param Sample) :
  0 < ci -> 0 < co -> 0 < k -> 0 <= p -> 0 < s ->
  Layer_sized (ActCtor := ActCtor) (Conv2d ci co k p s b wt) = true.
Proof.
  intros Hci Hco Hk Hp Hs. unfold Layer_sized.
  rewrite !(proj2 (Z.ltb_lt 0 _)) by assumption.
  now rewrite (proj2 (Z.leb_le 0 p)) by assumption.
Qed.

Lemma BatchNorm2d_sized (nf : Z) (wt bs : Param Sample) :
  0 < nf -> Layer_sized (ActCtor := ActCtor) (BatchNorm2d nf wt bs) = true.
Proof. intros Hnf. now apply Z.ltb_lt. Qed.

(** The layers of a block built with positive channel counts. *)
Lemma built_block_sized cls c_in act subsample c_out :
  0 < c_in -> 0 < c_out ->
  forallb Layer_sized (Block_layers (built_block cls c_in act subsample c_out)) = true.
Proof.
  intros Hi Ho.
  destruct cls, subsample; simpl;
    rewrite !(proj2 (Z.ltb_lt 0 _)) by assumption; reflexivity.
Qed.

Lemma keeps_call_block_class (w0 : world) cls c_in act subsample c_out :
  0 < c_in -> 0 < c_out ->
  keeps (allocated_sized w0) (call_block_class cls c_in act subsample c_out)
    (fun _ => True).
Proof.
  intros Hi Ho w Hw. rewrite call_block_class_run. split; [|exact I].
  apply allocated_sized_alloc_all; [now apply built_block_sized | exact Hw].
Qed.

Lemma Forall_pos_elem (l : list Z) (x : Z) :
  Forall (fun c => 0 < c) l -> x ∈ l -> 0 < x.
Proof. intros Hl Hx. exact (proj1 (Forall_forall _ _) Hl _ Hx). Qed.

Lemma keeps_create_blocks (w0 : world) hp :
  Forall (fun c => 0 < c) (c_hidden hp) ->
  keeps (allocated_sized w0) (create_blocks hp) (fun _ => True).
Proof.
  intros Hch. unfold create_blocks. apply keeps_for_each. intros acc [i n].
  apply keeps_for_each. intros acc' j. cbv zeta.
  apply (keeps_bind _ _ _ (fun x => x ∈ c_hidden hp));
    [destruct (_ && _); apply keeps_list_getitem | intros c_in Hin].
  apply (keeps_bind _ _ _ (fun x => x ∈ c_hidden hp));
    [apply keeps_list_getitem | intros c_out Hout].
  apply (keeps_bind _ _ _ (fun _ => True)); [|intros b _; now apply keeps_ret].
  apply keeps_call_block_class.
  - exact (Forall_pos_elem _ _ Hch Hin).
  - exact (Forall_pos_elem _ _ Hch Hout).
Qed.

Lemma keeps_create_input_net (w0 : world) hp :
  Forall (fun c => 0 < c) (c_hidden hp) ->
  keeps (allocated_sized w0) (create_input_net hp) (fun _ => True).
Proof.
  intros Hch. unfold create_input_net. destruct (decide _).
  - apply (keeps_bind _ _ _ (fun x => x ∈ c_hidden hp));
      [apply keeps_list_getitem | intros c0 Hc0].
    pose proof (Forall_pos_elem _ _ Hch Hc0).
    apply (keeps_bind _ _ _ (fun _ => True));
      [apply keeps_new; apply Conv2d_sized; lia | intros conv _].
    now apply keeps_ret.
  - apply (keeps_bind _ _ _ (fun x => x ∈ c_hidden hp));
      [apply keeps_list_getitem | intros c0 Hc0].
    pose proof (Forall_pos_elem _ _ Hch Hc0).
    apply (keeps_bind _ _ _ (fun _ => True));
      [apply keeps_new; apply Conv2d_sized; lia | intros conv _].
    apply (keeps_bind _ _ _ (fun x => x ∈ c_hidden hp));
      [apply keeps_list_getitem | intros c0' Hc0'].
    pose proof (Forall_pos_elem _ _ Hch Hc0').
    apply (keeps_bind _ _ _ (fun _ => True));
      [apply keeps_new; now apply BatchNorm2d_sized | intros bn _].
    apply (keeps_bind _ _ _ (fun _ => True));
      [now apply keeps_new | intros a _].
    now apply keeps_ret.
Qed.

Lemma keeps__create_network (w0 : world) hp :
  0 < num_classes hp -> Forall (fun c => 0 < c) (c_hidden hp) ->
  keeps (allocated_sized w0) (_create_network hp) (fun _ => True).
Proof.
  intros Hnc Hch. unfold _create_network.
  apply (keeps_bind _ _ _ (fun _ => True));
    [now apply keeps_create_input_net | intros inp _].
  apply (keeps_bind _ _ _ (fun _ => True));
    [now apply keeps_create_blocks | intros bs _].
  apply (keeps_bind _ _ _ (fun _ => True)); [now apply keeps_new | intros pool _].
  apply (keeps_bind _ _ _ (fun _ => True)); [now apply keeps_new | intros fl _].
  apply (keeps_bind _ _ _ (fun x => x ∈ c_hidden hp));
    [apply keeps_list_getitem | intros c_last Hlast].
  pose proof (Forall_pos_elem _ _ Hch Hlast).
  apply (keeps_bind _ _ _ (fun _ => True)); [|intros lin _; now apply keeps_ret].
  apply keeps_new. unfold Layer_sized.
  now rewrite !(proj2 (Z.ltb_lt 0 _)) by assumption.
Qed.

(** The initialisation allocates nothing, whether it returns or raises. *)
Lemma init_module_allocated name (m : layer) (w : world) :
  allocated (snd (init_module name m w)) = allocated w.
Proof.
  destruct m; try reflexivity.
  unfold init_module, bind, kaiming_normal_fan_out.
  destruct (nonlinearity_supported name); [|reflexivity].
  now destruct (normal_ (generator w)).
Qed.

Lemma keeps_init_module (w0 : world) name (m : layer) :
  keeps (allocated_sized w0) (init_module name m) (fun _ => True).
Proof.
  intros w (ls & Hw & Hs). split; [|now destruct (fst _)].
  exists ls. now rewrite init_module_allocated.
Qed.

Lemma keeps_init_block (w0 : world) name (b : block) :
  keeps (allocated_sized w0) (init_block name b) (fun _ => True).
Proof.
  destruct b as [net down act | net down]; unfold init_block.
  - apply (keeps_bind _ _ _ (fun _ => True));
      [apply keeps_mapM; intros m; apply keeps_init_module | intros net' _].
    apply (keeps_bind _ _ _ (fun _ => True)); [|intros down' _].
    { destruct down as [d|]; [|now apply keeps_ret].
      apply (keeps_bind _ _ _ (fun _ => True));
        [apply keeps_init_module | intros d' _; now apply keeps_ret]. }
    apply (keeps_bind _ _ _ (fun _ => True));
      [apply keeps_init_module | intros act' _; now apply keeps_ret].
  - apply (keeps_bind _ _ _ (fun _ => True));
      [apply keeps_mapM; intros m; apply keeps_init_module | intros net' _].
    apply (keeps_bind _ _ _ (fun _ => True)); [|intros down' _; now apply keeps_ret].
    destruct down as [d|]; [|now apply keeps_ret].
    apply (keeps_bind _ _ _ (fun _ => True));
      [apply keeps_mapM; intros m; apply keeps_init_module
      | intros d' _; now apply keeps_ret].
Qed.

Lemma keeps__init_params (w0 : world) (net : resnet) :
  keeps (allocated_sized w0) (_init_params net) (fun _ => True).
Proof.
  unfold _init_params. cbv zeta.
  apply (keeps_bind _ _ _ (fun _ => True));
    [apply keeps_mapM; intros m; apply keeps_init_module | intros i' _].
  apply (keeps_bind _ _ _ (fun _ => True));
    [apply keeps_mapM; intros b; apply keeps_init_block | intros b' _].
  apply (keeps_bind _ _ _ (fun _ => True));
    [apply keeps_mapM; intros m; apply keeps_init_module | intros o' _].
  now apply keeps_ret.
Qed.

(** X12.  Whatever its outcome, a returned network or an exception, a call
    of [ResNet.__init__] with positive widths and a positive number of
    classes has called the layer constructors with positive sizes only:
    every layer it has allocated has positive channel or feature counts,
    a positive kernel and stride and a padding that is not negative. *)
Theorem build_allocates_positive_sizes
    (num_classes : Z) (num_blocks c_hidden : list Z)
    (act_fn_name block_name : string) (w : world) :
  0 < num_classes ->
  Forall (fun c => 0 < c) c_hidden ->
  exists ls,
    allocated (snd (ResNet_init num_classes num_blocks c_hidden act_fn_name block_name w))
    = allocated w ++ ls
    /\ forallb Layer_sized ls = true.
Proof.
  intros Hnc Hch.
  assert (keeps (allocated_sized w)
            (ResNet_init num_classes num_blocks c_hidden act_fn_name block_name)
            (fun _ => True)) as Hkeeps.
  { unfold ResNet_init.
    apply (keeps_bind _ _ _ (fun _ => True)); [|intros _ _].
    { unfold assert_. destruct (dict_contains _ _);
        [now apply keeps_ret | apply keeps_raise]. }
    apply (keeps_bind _ _ _ (fun _ => True)); [|intros act _].
    { unfold dict_getitem. destruct (_ !! _); [now apply keeps_ret | apply keeps_raise]. }
    apply (keeps_bind _ _ _ (fun _ => True)); [|intros cls _].
    { unfold dict_getitem. destruct (_ !! _); [now apply keeps_ret | apply keeps_raise]. }
    apply (keeps_bind _ _ _ (fun _ => True)); [|intros self _; apply keeps__init_params].
    now apply keeps__create_network. }
  apply Hkeeps. exists []. now rewrite app_nil_r.
Qed.

(** ** Shapes through [forward] *)

Section Shapes.
Variable training : bool.

Section ShapeRuntime.
Context {Tensor Store : Type}.
Variable layer_forward : layer -> Tensor -> M Store Tensor.
Variable tensor_add : Tensor -> Tensor -> M Store Tensor.
Variable shape_of : Tensor -> list Z.
Hypothesis runtime_ok : shape_respecting training layer_forward tensor_add shape_of.

Lemma follows_bind (r : ShapeRule) (k : list Z -> ShapeRule)
    (m : M Store Tensor) (f : Tensor -> M Store Tensor) (s : Store) :
  follows_shape shape_of r (m s) ->
  (forall y s', follows_shape shape_of (k (shape_of y)) (f y s')) ->
  follows_shape shape_of (rule_bind r k) (bind m f s).
Proof.
  intros Hm Hk. destruct r as [| |sh]; simpl in *.
  - exact I.
  - destruct Hm as (e & s' & Hm). unfold bind. rewrite Hm. eauto.
  - destruct Hm as (y & s' & Hm & <-). unfold bind. rewrite Hm. apply Hk.
Qed.

Lemma follows_bind_ret (r : ShapeRule) (m : M Store Tensor) (s : Store) :
  follows_shape shape_of r (m s) -> follows_shape shape_of r (bind m ret s).
Proof.
  intros Hm. destruct r as [| |sh]; simpl in *.
  - exact I.
  - destruct Hm as (e & s' & Hm). unfold bind. rewrite Hm. eauto.
  - destruct Hm as (y & s' & Hm & <-). unfold bind. rewrite Hm. now exists y, s'.
Qed.

Lemma Sequential_forward_follows (net : list layer) (x : Tensor) (s : Store) :
  follows_shape shape_of (Sequential_shape training net (shape_of x))
    (Sequential_forward layer_forward net x s).
Proof.
  unfold Sequential_forward.
  revert x s. induction net as [|l net IH]; intros x s; simpl.
  - now exists x, s.
  - apply follows_bind; [apply runtime_ok | intros y s'; apply IH].
Qed.

Lemma Block_forward_follows (b : block) (x : Tensor) (s : Store) :
  follows_shape shape_of (Block_shape training b (shape_of x))
    (Block_forward layer_forward tensor_add b x s).
Proof.
  destruct b as [net down act | net down]; unfold Block_forward, Block_shape.
  - unfold ResNetBlock_forward.
    apply follows_bind; [apply Sequential_forward_follows | intros z s1; cbv beta].
    apply follows_bind; [|intros x' s2; cbv beta].
    { destruct down as [d|]; [apply runtime_ok | now exists x, s1]. }
    apply follows_bind; [apply runtime_ok | intros out s3; cbv beta].
    apply follows_bind_ret. apply runtime_ok.
  - unfold PreActResNetBlock_forward.
    apply follows_bind; [apply Sequential_forward_follows | intros z s1; cbv beta].
    apply follows_bind; [|intros x' s2; cbv beta].
    { destruct down as [d|]; [apply Sequential_forward_follows | now exists x, s1]. }
    apply follows_bind_ret. apply runtime_ok.
Qed.

Lemma Blocks_forward_follows (bs : list block) (x : Tensor) (s : Store) :
  follows_shape shape_of (Blocks_shape training bs (shape_of x))
    (for_each bs (fun x b => Block_forward layer_forward tensor_add b x) x s).
Proof.
  revert x s. induction bs as [|b bs IH]; intros x s; simpl.
  - now exists x, s.
  - apply follows_bind; [apply Block_forward_follows | intros y s'; apply IH].
Qed.

Lemma ResNet_forward_follows (net : resnet) (x : Tensor) (s : Store) :
  follows_shape shape_of (ResNet_shape training net (shape_of x))
    (ResNet_forward layer_forward tensor_add net x s).
Proof.
  unfold ResNet_forward, ResNet_shape.
  apply follows_bind; [apply Sequential_forward_follows | intros y s1; cbv beta].
  apply follows_bind; [apply Blocks_forward_follows | intros z s2; cbv beta].
  apply follows_bind_ret. apply Sequential_forward_follows.
Qed.

End ShapeRuntime.

(** *** Shapes of what the constructors return *)

Lemma rule_bind_ext (r : ShapeRule) (k1 k2 : list Z -> ShapeRule) :
  (forall sh, k1 sh = k2 sh) -> rule_bind r k1 = rule_bind r k2.
Proof. intros H. destruct r; simpl; auto. Qed.

Lemma Layer_shape_as_constructed (l : layer) (sh : list Z) :
  Layer_shape training (Layer_as_constructed l) sh = Layer_shape training l sh.
Proof. now destruct l. Qed.

Lemma Sequential_shape_as_constructed (net : list layer) (sh : list Z) :
  Sequential_shape training (map Layer_as_constructed net) sh
  = Sequential_shape training net sh.
Proof.
  revert sh. induction net as [|l net IH]; intros sh; simpl; [done|].
  rewrite Layer_shape_as_constructed. now apply rule_bind_ext.
Qed.

Lemma Block_shape_as_constructed (b : block) (sh : list Z) :
  Block_shape training (Block_as_constructed b) sh = Block_shape training b sh.
Proof.
  destruct b as [net down act | net down]; simpl;
    rewrite Sequential_shape_as_constructed; apply rule_bind_ext; intros z.
  - destruct down as [d|]; simpl; rewrite ?Layer_shape_as_constructed;
      repeat (apply rule_bind_ext; intros ?); apply Layer_shape_as_constructed.
  - destruct down as [d|]; simpl; rewrite ?Sequential_shape_as_constructed;
      reflexivity.
Qed.

Lemma Blocks_shape_as_constructed (bs : list block) (sh : list Z) :
  Blocks_shape training (map Block_as_constructed bs) sh = Blocks_shape training bs sh.
Proof.
  revert sh. induction bs as [|b bs IH]; intros sh; simpl; [done|].
  rewrite Block_shape_as_constructed. now apply rule_bind_ext.
Qed.

Lemma ResNet_shape_init_net_rel (net0 net : resnet) (sh : list Z) :
  init_net_rel net0 net -> ResNet_shape training net sh = ResNet_shape training net0 sh.
Proof.
  intros Hrel. unfold ResNet_shape.
  rewrite <- (Sequential_shape_as_constructed (input_net net)),
    (Forall2_init_rel_as_constructed _ _ _ (init_input_net _ _ Hrel)),
    Sequential_shape_as_constructed.
  apply rule_bind_ext; intros a.
  rewrite <- (Blocks_shape_as_constructed (blocks net)),
    (init_net_rel_blocks_as_constructed _ _ Hrel), Blocks_shape_as_constructed.
  apply rule_bind_ext; intros b.
  now rewrite <- (Sequential_shape_as_constructed (output_net net)),
    (Forall2_init_rel_as_constructed _ _ _ (init_output_net _ _ Hrel)),
    Sequential_shape_as_constructed.
Qed.

Lemma positive_dims_4 (n c h w : Z) :
  0 < n -> 0 < c -> 0 < h -> 0 < w -> positive_dims [n; c; h; w] = true.
Proof.
  intros Hn Hc Hh Hw. unfold positive_dims. cbn [forallb].
  now rewrite !(proj2 (Z.ltb_lt 0 _)) by assumption.
Qed.

Lemma positive_dims_2 (n f : Z) : 0 < n -> 0 < f -> positive_dims [n; f] = true.
Proof.
  intros Hn Hf. unfold positive_dims. cbn [forallb].
  now rewrite !(proj2 (Z.ltb_lt 0 _)) by assumption.
Qed.

Lemma broadcast_rev_same (a : list Z) : broadcast_rev a a = Some a.
Proof.
  induction a as [|x a IH]; simpl; [done|]. now rewrite Z.eqb_refl, IH.
Qed.

Lemma add_shape_same (n c h w : Z) :
  0 < n -> 0 < c -> 0 < h -> 0 < w ->
  add_shape [n; c; h; w] [n; c; h; w] = Gives [n; c; h; w].
Proof.
  intros Hn Hc Hh Hw. unfold add_shape.
  rewrite positive_dims_4 by assumption. cbn [andb].
  rewrite broadcast_rev_same. now rewrite rev_involutive.
Qed.

Lemma conv_size_3_1_1 (h : Z) : conv_size h 3 1 1 = h.
Proof. unfold conv_size. rewrite Z.div_1_r. lia. Qed.

Lemma conv_size_3_1_2 (h : Z) : conv_size h 3 1 2 = halve h.
Proof. unfold conv_size, halve. do 2 f_equal. lia. Qed.

Lemma conv_size_1_0_2 (h : Z) : conv_size h 1 0 2 = halve h.
Proof. unfold conv_size, halve. do 2 f_equal. lia. Qed.

Lemma halve_pos (h : Z) : 0 < h -> 0 < halve h.
Proof.
  intros Hh. unfold halve.
  assert (0 <= (h - 1) / 2) by (apply Z.div_pos; lia). lia.
Qed.

Lemma Conv2d_shape_ok (ci co k p s : Z) (b : bool) (wt : Param Sample) (n h w : Z) :
  0 < ci -> 0 < co -> 0 < k -> 0 <= p -> 0 < s ->
  0 < n -> 0 < h -> 0 < w ->
  k <= h + 2 * p -> k <= w + 2 * p ->
  Layer_shape training (ActCtor := ActCtor) (Conv2d ci co k p s b wt) [n; ci; h; w]
  = Gives [n; co; conv_size h k p s; conv_size w k p s].
Proof.
  intros Hci Hco Hk Hp Hs Hn Hh Hw Hkh Hkw. unfold Layer_shape, Layer_sized.
  rewrite positive_dims_4 by assumption.
  rewrite !(proj2 (Z.ltb_lt 0 _)) by assumption.
  rewrite (proj2 (Z.leb_le 0 p)) by assumption.
  rewrite Z.eqb_refl, (proj2 (Z.leb_le _ _) Hkh), (proj2 (Z.leb_le _ _) Hkw).
  reflexivity.
Qed.

Lemma Conv2d_shape_channels (ci co k p s : Z) (b : bool) (wt : Param Sample)
    (n c h w : Z) :
  0 < ci -> 0 < co -> 0 < k -> 0 <= p -> 0 < s ->
  0 < n -> 0 < c -> 0 < h -> 0 < w ->
  c <> ci ->
  Layer_shape training (ActCtor := ActCtor) (Conv2d ci co k p s b wt) [n; c; h; w]
  = Raises.
Proof.
  intros Hci Hco Hk Hp Hs Hn Hc Hh Hw Hne. unfold Layer_shape, Layer_sized.
  rewrite positive_dims_4 by assumption.
  rewrite !(proj2 (Z.ltb_lt 0 _)) by assumption.
  rewrite (proj2 (Z.leb_le 0 p)) by assumption.
  now rewrite (proj2 (Z.eqb_neq _ _) Hne).
Qed.

Lemma BatchNorm2d_shape_ok (nf : Z) (wt bs : Param Sample) (n h w : Z) :
  training = false \/ 1 < n -> 0 < nf -> 0 < n -> 0 < h -> 0 < w ->
  Layer_shape training (ActCtor := ActCtor) (BatchNorm2d nf wt bs) [n; nf; h; w]
  = Gives [n; nf; h; w].
Proof.
  intros Hmode Hnf Hn Hh Hw. unfold Layer_shape, Layer_sized.
  rewrite positive_dims_4 by assumption.
  rewrite (proj2 (Z.ltb_lt 0 nf)) by assumption. rewrite Z.eqb_refl.
  destruct Hmode as [->|Hn1]; [reflexivity|].
  rewrite (proj2 (Z.eqb_neq (n * h * w) 1)) by nia. now rewrite andb_false_r.
Qed.

Lemma BatchNorm2d_shape_channels (nf : Z) (wt bs : Param Sample) (n c h w : Z) :
  0 < nf -> 0 < n -> 0 < c -> 0 < h -> 0 < w ->
  c <> nf ->
  Layer_shape training (ActCtor := ActCtor) (BatchNorm2d nf wt bs) [n; c; h; w] = Raises.
Proof.
  intros Hnf Hn Hc Hh Hw Hne. unfold Layer_shape, Layer_sized.
  rewrite positive_dims_4 by assumption.
  rewrite (proj2 (Z.ltb_lt 0 nf)) by assumption.
  now rewrite (proj2 (Z.eqb_neq _ _) Hne).
Qed.

Lemma Activation_shape (a : ActCtor) (n c h w : Z) :
  0 < n -> 0 < c -> 0 < h -> 0 < w ->
  Layer_shape training (Sample := Sample) (Activation a) [n; c; h; w] = Gives [n; c; h; w].
Proof.
  intros Hn Hc Hh Hw. unfold Layer_shape, Layer_sized.
  now rewrite positive_dims_4 by assumption.
Qed.

Ltac shape_step :=
  first
    [ progress cbn [Sequential_shape Blocks_shape Block_shape built_block rule_bind
                      spec_Standard_transform spec_PreAct_transform]
    | rewrite Conv2d_shape_ok by lia
    | rewrite BatchNorm2d_shape_ok by first [ assumption | lia ]
    | rewrite Activation_shape by lia
    | rewrite conv_size_3_1_1
    | rewrite conv_size_3_1_2
    | rewrite conv_size_1_0_2
    | rewrite add_shape_same by lia ].

(** The shape rule of a block either class returns. *)
Lemma built_block_shape cls c_in act subsample c_out (n c h w : Z) :
  training = false \/ 1 < n -> 0 < n -> 0 < c -> 0 < h -> 0 < w ->
  0 < c_in -> 0 < c_out ->
  Block_shape training (built_block cls c_in act subsample c_out) [n; c; h; w]
  = if c =? c_in
    then Gives [ n; if subsample then c_out else c_in;
                 if subsample then halve h else h;
                 if subsample then halve w else w ]
    else Raises.
Proof.
  intros Hmode Hn Hc Hh Hw Hcin Hcout.
  pose proof (halve_pos h Hh). pose proof (halve_pos w Hw).
  destruct (Z.eqb_spec c c_in) as [->|Hne].
  - destruct cls, subsample; repeat shape_step; reflexivity.
  - destruct cls, subsample;
      cbn [Sequential_shape Block_shape built_block rule_bind
             spec_Standard_transform spec_PreAct_transform];
      first [ now rewrite Conv2d_shape_channels by lia
            | now rewrite BatchNorm2d_shape_channels by lia ].
Qed.

(** *** Shapes through the stages *)

Lemma Blocks_shape_app (bs1 bs2 : list block) (sh : list Z) :
  Blocks_shape training (bs1 ++ bs2) sh
  = rule_bind (Blocks_shape training bs1 sh) (Blocks_shape training bs2).
Proof.
  revert sh. induction bs1 as [|b bs1 IH]; intros sh; simpl; [done|].
  destruct (Block_shape training b sh); simpl; [done | done | apply IH].
Qed.

Lemma nth_Z_pos (l : list Z) (i : nat) :
  Forall (fun c => 0 < c) l -> (i < length l)%nat -> 0 < nth_Z l (Z.of_nat i).
Proof.
  intros Hl Hi. unfold nth_Z. rewrite Nat2Z.id.
  destruct (lookup_lt_is_Some_2 l i Hi) as [x Hx]. rewrite Hx. simpl.
  exact (Forall_lookup_1 _ _ _ _ Hl Hx).
Qed.

Lemma last_pos (l : list Z) :
  Forall (fun c => 0 < c) l -> l <> [] -> 0 < default 0 (last l).
Proof.
  intros Hl Hne. destruct (last l) as [x|] eqn:E.
  - simpl. apply last_Some in E as [l' ->].
    apply Forall_app in Hl as [_ Hx]. now inversion Hx.
  - now apply last_None in E.
Qed.

(** The blocks of a stage after its first keep the shape. *)
Lemma later_blocks_shape hp (i : Z) (js : list Z) (n h w : Z) :
  training = false \/ 1 < n -> 0 < n -> 0 < nth_Z (c_hidden hp) i ->
  Forall (fun j => j <> 0) js -> 0 < h -> 0 < w ->
  Blocks_shape training (map (block_at hp i) js) [n; nth_Z (c_hidden hp) i; h; w]
  = Gives [n; nth_Z (c_hidden hp) i; h; w].
Proof.
  intros Hmode Hn Hc Hjs Hh Hw. induction Hjs as [|j js Hj _ IH]; simpl; [done|].
  unfold block_at at 1. rewrite (proj2 (Z.eqb_neq j 0) Hj). cbn [andb].
  rewrite built_block_shape by done. rewrite Z.eqb_refl. exact IH.
Qed.

(** A stage with blocks: its first block asks for the width of the stage
    before (of the stage itself for stage 0), and the stage gives its own
    width, at half the size unless it is stage 0. *)
Lemma stage_shape hp (i m n c h w : Z) :
  training = false \/ 1 < n -> 0 < n -> 0 < c -> 0 < m -> 0 < h -> 0 < w ->
  0 < nth_Z (c_hidden hp) i ->
  0 < nth_Z (c_hidden hp) (if 0 <? i then i - 1 else i) ->
  Blocks_shape training (map (block_at hp i) (range m)) [n; c; h; w]
  = if c =? nth_Z (c_hidden hp) (if 0 <? i then i - 1 else i)
    then Gives [ n; nth_Z (c_hidden hp) i;
                 if 0 <? i then halve h else h;
                 if 0 <? i then halve w else w ]
    else Raises.
Proof.
  intros Hmode Hn Hc Hm Hh Hw Hci Hcp. unfold range. rewrite seqZ_cons by done.
  cbn [map Blocks_shape]. unfold block_at at 1.
  change (0 =? 0) with true. cbn [andb].
  rewrite built_block_shape by done.
  destruct (c =? _); [|done]. cbn [rule_bind].
  assert (Forall (fun j => j <> 0) (seqZ (Z.succ 0) (Z.pred m))) as Hjs.
  { apply Forall_forall. intros j Hj. apply elem_of_seqZ in Hj. lia. }
  destruct (0 <? i).
  - apply later_blocks_shape; try done; now apply halve_pos.
  - now apply later_blocks_shape.
Qed.

(** Stages that all have blocks, from stage [k] on. *)
Lemma stages_shape hp (l : list Z) (k : nat) (n c h w : Z) :
  training = false \/ 1 < n -> 0 < n ->
  Forall (fun m => 0 < m) l -> l <> [] ->
  (forall j : nat, (j < k + length l)%nat -> 0 < nth_Z (c_hidden hp) (Z.of_nat j)) ->
  c = nth_Z (c_hidden hp) (if 0 <? Z.of_nat k then Z.of_nat k - 1 else Z.of_nat k) ->
  0 < h -> 0 < w ->
  exists h' w',
    0 < h' /\ 0 < w'
    /\ Blocks_shape training
         (concat (map (fun '(i, m) => map (block_at hp i) (range m)) (enumerate_from k l)))
         [n; c; h; w]
       = Gives [n; nth_Z (c_hidden hp) (Z.of_nat (k + length l) - 1); h'; w'].
Proof.
  intros Hmode Hn Hl. revert k c h w.
  induction Hl as [|m l Hm Hl IH]; intros k c h w Hne Hwd Hc Hh Hw; [done|].
  assert (0 < nth_Z (c_hidden hp) (Z.of_nat k)) as Hck
    by (apply Hwd; simpl; lia).
  assert (0 < nth_Z (c_hidden hp)
                (if 0 <? Z.of_nat k then Z.of_nat k - 1 else Z.of_nat k)) as Hcp.
  { destruct (Z.ltb_spec 0 (Z.of_nat k)); [|exact Hck].
    replace (Z.of_nat k - 1) with (Z.of_nat (k - 1)) by lia.
    apply Hwd. simpl. lia. }
  rewrite enumerate_from_cons. cbn [map concat].
  rewrite Blocks_shape_app, stage_shape by (first [done | now rewrite Hc]).
  rewrite Hc, Z.eqb_refl. cbn [rule_bind].
  destruct (decide (l = [])) as [->|Hne'].
  - replace (Z.of_nat (k + length [m]) - 1) with (Z.of_nat k) by (simpl; lia).
    destruct (0 <? Z.of_nat k); eexists _, _;
      (split; [|split; [|reflexivity]]); auto using halve_pos.
  - destruct (IH (S k) (nth_Z (c_hidden hp) (Z.of_nat k))
                (if 0 <? Z.of_nat k then halve h else h)
                (if 0 <? Z.of_nat k then halve w else w) Hne')
      as (h' & w' & Hh' & Hw' & Heq).
    + intros j Hj. apply Hwd. simpl. lia.
    + replace (0 <? Z.of_nat (S k)) with true by (symmetry; apply Z.ltb_lt; lia).
      f_equal. lia.
    + destruct (0 <? Z.of_nat k); auto using halve_pos.
    + destruct (0 <? Z.of_nat k); auto using halve_pos.
    + exists h', w'. split; [done|]. split; [done|].
      rewrite Heq. do 4 f_equal. simpl. lia.
Qed.

Lemma expected_input_net_shape hp (n h w : Z) :
  training = false \/ 1 < n -> 0 < n -> 0 < h -> 0 < w ->
  0 < nth_Z (c_hidden hp) 0 ->
  Sequential_shape training (expected_input_net hp) [n; 3; h; w]
  = Gives [n; nth_Z (c_hidden hp) 0; h; w].
Proof.
  intros Hmode Hn Hh Hw Hc0. unfold expected_input_net.
  destruct (decide _); cbn [Sequential_shape];
    rewrite Conv2d_shape_ok, !conv_size_3_1_1 by lia; cbn [rule_bind];
    rewrite ?BatchNorm2d_shape_ok by done; cbn [rule_bind];
    rewrite ?Activation_shape by done; reflexivity.
Qed.

Lemma expected_output_net_shape hp (n c h w : Z) :
  0 < n -> 0 < c -> 0 < h -> 0 < w ->
  0 < default 0 (last (c_hidden hp)) -> 0 < num_classes hp ->
  Sequential_shape training (expected_output_net hp) [n; c; h; w]
  = if c =? default 0 (last (c_hidden hp))
    then Gives [n; num_classes hp] else Raises.
Proof.
  intros Hn Hc Hh Hw Hlast Hcls.
  unfold expected_output_net. cbn [Sequential_shape]. unfold Layer_shape, Layer_sized.
  rewrite positive_dims_4 by assumption. cbn [andb Z.ltb Z.compare rule_bind].
  rewrite positive_dims_4 by lia. cbn [andb rule_bind].
  replace (c * 1 * 1) with c by lia.
  rewrite positive_dims_2 by assumption.
  rewrite !(proj2 (Z.ltb_lt 0 _)) by assumption. cbn [andb].
  now destruct (c =? _).
Qed.

(** The shape the constructed network gives, when every stage has blocks. *)
Lemma expected_network_shape hp (n h w : Z) :
  training = false \/ 1 < n -> 0 < n ->
  Forall (fun m => 0 < m) (num_blocks hp) -> num_blocks hp <> [] ->
  (length (num_blocks hp) <= length (c_hidden hp))%nat ->
  Forall (fun c => 0 < c) (c_hidden hp) -> 0 < num_classes hp ->
  0 < h -> 0 < w ->
  ResNet_shape training (expected_network hp) [n; 3; h; w]
  = if nth_Z (c_hidden hp) (Z.of_nat (length (num_blocks hp)) - 1)
       =? default 0 (last (c_hidden hp))
    then Gives [n; num_classes hp] else Raises.
Proof.
  intros Hmode Hn Hpos Hne Hlen Hch Hcls Hh Hw.
  assert (0 < length (num_blocks hp))%nat
    by (destruct (num_blocks hp); [done | simpl; lia]).
  assert (c_hidden hp <> []) as Hchne by (destruct (c_hidden hp); [simpl in *; lia | done]).
  assert (forall j : nat, (j < length (num_blocks hp))%nat ->
            0 < nth_Z (c_hidden hp) (Z.of_nat j)) as Hwd
    by (intros j Hj; apply nth_Z_pos; [done | lia]).
  unfold ResNet_shape, expected_network. cbn [input_net blocks output_net].
  rewrite expected_input_net_shape by (first [done | apply (Hwd 0%nat); lia]).
  cbn [rule_bind].
  unfold expected_blocks. rewrite enumerate_from_0.
  destruct (stages_shape hp (num_blocks hp) 0 n (nth_Z (c_hidden hp) 0) h w)
    as (h' & w' & Hh' & Hw' & ->); try done.
  cbn [rule_bind].
  change (0 + length (num_blocks hp))%nat with (length (num_blocks hp)).
  apply expected_output_net_shape; try done.
  - replace (Z.of_nat (length (num_blocks hp)) - 1)
      with (Z.of_nat (length (num_blocks hp) - 1)) by lia.
    apply Hwd. lia.
  - now apply last_pos.
Qed.

Lemma nth_Z_lookup (l : list Z) (i : nat) (x : Z) :
  l !! i = Some x -> nth_Z l (Z.of_nat i) = x.
Proof. intros H. unfold nth_Z. now rewrite Nat2Z.id, H. Qed.

Lemma last_lookup_length (l : list Z) (i : nat) :
  length l = S i -> last l = l !! i.
Proof. intros H. rewrite last_lookup, H. reflexivity. Qed.

Lemma enumerate_from_app {A : Type} (k : nat) (l1 l2 : list A) :
  enumerate_from k (l1 ++ l2)
  = enumerate_from k l1 ++ enumerate_from (k + length l1) l2.
Proof.
  revert k. induction l1 as [|x l1 IH]; intros k.
  - simpl. now rewrite Nat.add_0_r.
  - rewrite <- app_comm_cons, !enumerate_from_cons, IH, <- app_comm_cons.
    do 3 f_equal. simpl. lia.
Qed.

(** A stage without blocks after stages with blocks, when the widths on
    its two sides differ: the shapes do not fit. *)
Lemma zero_stage_shape hp (pre suf : list Z) (a b n h w : Z) :
  num_blocks hp = pre ++ 0 :: suf ->
  length (num_blocks hp) = length (c_hidden hp) ->
  Forall (fun c => 0 < c) (c_hidden hp) -> 0 < num_classes hp ->
  pre <> [] ->
  Forall (fun m => 0 < m) pre -> Forall (fun m => 0 < m) suf ->
  c_hidden hp !! (length pre - 1)%nat = Some a ->
  c_hidden hp !! length pre = Some b ->
  a <> b ->
  training = false \/ 1 < n -> 0 < n ->
  0 < h -> 0 < w ->
  ResNet_shape training (expected_network hp) [n; 3; h; w] = Raises.
Proof.
  intros Hnb Hlen Hch Hcls Hne Hpre Hsuf Ha Hb Hab Hmode Hn Hh Hw.
  assert (0 < length pre)%nat by (destruct pre; [done | simpl; lia]).
  assert (length (c_hidden hp) = (length pre + S (length suf))%nat) as Hlen'
    by (rewrite <- Hlen, Hnb, length_app; reflexivity).
  assert (c_hidden hp <> []) as Hchne by (destruct (c_hidden hp); [simpl in *; lia | done]).
  assert (forall j : nat, (j < length (c_hidden hp))%nat ->
            0 < nth_Z (c_hidden hp) (Z.of_nat j)) as Hwd
    by (intros j Hj; now apply nth_Z_pos).
  assert (0 < a) as Hapos by exact (Forall_lookup_1 _ _ _ _ Hch Ha).
  assert (0 < b) as Hbpos by exact (Forall_lookup_1 _ _ _ _ Hch Hb).
  unfold ResNet_shape, expected_network. cbn [input_net blocks output_net].
  rewrite expected_input_net_shape by (first [done | apply (Hwd 0%nat); lia]).
  cbn [rule_bind].
  unfold expected_blocks. rewrite enumerate_from_0, Hnb, enumerate_from_app.
  rewrite map_app, concat_app, Blocks_shape_app.
  destruct (stages_shape hp pre 0 n (nth_Z (c_hidden hp) 0) h w)
    as (h' & w' & Hh' & Hw' & ->); try done.
  { intros j Hj. apply Hwd. lia. }
  cbn [rule_bind].
  replace (nth_Z (c_hidden hp) (Z.of_nat (0 + length pre) - 1)) with a; cycle 1.
  { symmetry. replace (Z.of_nat (0 + length pre) - 1) with (Z.of_nat (length pre - 1)) by lia.
    now apply nth_Z_lookup. }
  rewrite enumerate_from_cons. cbn [map concat].
  change (range 0) with (@nil Z). cbn [map app].
  destruct Hsuf as [|m suf Hm Hsuf].
  - cbn [enumerate_from imap map concat Blocks_shape rule_bind].
    rewrite expected_output_net_shape by (first [done | now apply last_pos]).
    rewrite (last_lookup_length (c_hidden hp) (length pre)); cycle 1.
    { rewrite Hlen'. simpl. lia. }
    rewrite Hb. simpl. now rewrite (proj2 (Z.eqb_neq a b) Hab).
  - rewrite enumerate_from_cons. cbn [map concat].
    rewrite Blocks_shape_app.
    replace (0 <? Z.of_nat (S (0 + length pre))) with true
      by (symmetry; apply Z.ltb_lt; lia).
    assert (nth_Z (c_hidden hp) (Z.of_nat (S (0 + length pre)) - 1) = b) as Hprev.
    { replace (Z.of_nat (S (0 + length pre)) - 1) with (Z.of_nat (length pre)) by lia.
      now apply nth_Z_lookup. }
    rewrite stage_shape; try done.
    + replace (0 <? Z.of_nat (S (0 + length pre))) with true
        by (symmetry; apply Z.ltb_lt; lia).
      rewrite Hprev. now rewrite (proj2 (Z.eqb_neq a b) Hab).
    + apply Hwd. rewrite Hlen'. simpl. lia.
    + replace (0 <? Z.of_nat (S (0 + length pre))) with true
        by (symmetry; apply Z.ltb_lt; lia).
      now rewrite Hprev.
Qed.

(** X5.  A block of either class, built with positive [c_in] and [c_out],
    on a runtime that follows the shape rules: applied to a tensor of
    shape [[n, c, h, w]] with positive dimensions (and [n > 1] in training
    mode), [forward] raises when [c] is not [c_in]; otherwise the
    transform and the shortcut give the same shape, the addition is
    defined, and the result has shape [[n, c_in, h, w]] without
    subsampling and [[n, c_out, ceil(h/2), ceil(w/2)]] with it. *)
Theorem Block_forward_shape
    (Tensor Store : Type)
    (layer_forward : layer -> Tensor -> M Store Tensor)
    (tensor_add : Tensor -> Tensor -> M Store Tensor)
    (shape_of : Tensor -> list Z)
    (cls : BlockClass) (c_in : Z) (act : ActCtor) (subsample : bool) (c_out : Z)
    (w0 : world) (x : Tensor) (s : Store) (batch c height width : Z) :
  shape_respecting training layer_forward tensor_add shape_of ->
  shape_of x = [batch; c; height; width] ->
  0 < c_in -> 0 < c_out ->
  training = false \/ 1 < batch ->
  0 < batch -> 0 < c -> 0 < height -> 0 < width ->
  exists b w1,
    call_block_class cls c_in act subsample c_out w0 = (inr b, w1)
    /\ follows_shape shape_of
         (if c =? c_in
          then Gives [ batch; if subsample then c_out else c_in;
                       if subsample then halve height else height;
                       if subsample then halve width else width ]
          else Raises)
         (Block_forward layer_forward tensor_add b x s).
Proof.
  intros Hrt Hx Hcin Hcout Hmode Hn Hc Hh Hw.
  eexists _, _. split; [apply call_block_class_run|].
  rewrite <- (built_block_shape cls c_in act subsample c_out batch c height width
                Hmode Hn Hc Hh Hw Hcin Hcout).
  rewrite <- Hx. now apply Block_forward_follows.
Qed.

(** X6.  For valid hyperparameters with an activation name that
    [kaiming_normal_] accepts, and a runtime that follows the shape rules,
    [ResNet.__init__] returns a network whose [forward], on a tensor of
    shape [[n, 3, h, w]] for any positive [n], [h] and [w] ([n > 1] in
    training mode), raises nothing and returns a tensor of shape
    [[n, num_classes]]. *)
Theorem ResNet_forward_valid_shape
    (Tensor Store : Type)
    (layer_forward : layer -> Tensor -> M Store Tensor)
    (tensor_add : Tensor -> Tensor -> M Store Tensor)
    (shape_of : Tensor -> list Z)
    (num_classes : Z) (num_blocks c_hidden : list Z)
    (act_fn_name block_name : string) (w0 : world)
    (x : Tensor) (s : Store) (batch height width : Z) :
  valid_hparams num_classes num_blocks c_hidden act_fn_name block_name ->
  nonlinearity_supported act_fn_name = true ->
  shape_respecting training layer_forward tensor_add shape_of ->
  shape_of x = [batch; 3; height; width] ->
  training = false \/ 1 < batch -> 0 < batch -> 0 < height -> 0 < width ->
  exists net w1,
    ResNet_init num_classes num_blocks c_hidden act_fn_name block_name w0 = (inr net, w1)
    /\ exists y s',
        ResNet_forward layer_forward tensor_add net x s = (inr y, s')
        /\ shape_of y = [batch; num_classes].
Proof.
  intros Hvalid Hs Hrt Hx Hmode Hn Hh Hw.
  pose proof (valid_stages_indexable _ _ _ _ _ Hvalid) as Hidx.
  pose proof (valid_num_blocks _ _ _ _ _ Hvalid) as [Hpos Hnbne].
  destruct Hvalid as (Hcls0 & _ & Hch & Hlen & Hne & [act Hact] & [cls Hcls]).
  destruct (ResNet_init_run num_classes num_blocks c_hidden act_fn_name block_name
              act cls w0 Hact Hcls Hidx Hs) as (net & g & Hrun & _ & _ & Hrel).
  eexists net, _. split; [exact Hrun|].
  pose proof (ResNet_forward_follows layer_forward tensor_add shape_of Hrt net x s) as Hf.
  rewrite Hx, (ResNet_shape_init_net_rel _ _ _ Hrel) in Hf.
  rewrite expected_network_shape in Hf; try done; [|simpl; lia].
  simpl in Hf.
  assert (nth_Z c_hidden (Z.of_nat (length num_blocks) - 1) = default 0 (last c_hidden))
    as Heq.
  { destruct (length c_hidden) as [|i] eqn:Hi; [destruct c_hidden; simpl in *; congruence|].
    rewrite (last_lookup_length c_hidden i Hi), Hlen. unfold nth_Z.
    do 2 f_equal. lia. }
  rewrite Heq, Z.eqb_refl in Hf. exact Hf.
Qed.

(** X7.  The network that [ResNet.__init__] returns when [num_blocks] is
    the shorter list (all counts, widths and the number of classes
    positive, an activation name [kaiming_normal_] accepts) cannot be
    applied, unless the width of the last stage built happens to be the
    last entry of [c_hidden]: on a runtime that follows the shape rules,
    [forward] on a tensor of shape [[n, 3, h, w]] (positive dimensions,
    [n > 1] in training mode) raises, the input width of the linear layer
    being [c_hidden[-1]]. *)
Theorem ResNet_forward_short_num_blocks
    (Tensor Store : Type)
    (layer_forward : layer -> Tensor -> M Store Tensor)
    (tensor_add : Tensor -> Tensor -> M Store Tensor)
    (shape_of : Tensor -> list Z)
    (num_classes : Z) (num_blocks c_hidden : list Z)
    (act_fn_name block_name : string) (act : ActCtor) (cls : BlockClass) (a b : Z)
    (w0 : world) (x : Tensor) (s : Store) (batch height width : Z) :
  act_fn_by_name !! act_fn_name = Some act ->
  resnet_blocks_by_name !! block_name = Some cls ->
  nonlinearity_supported act_fn_name = true ->
  0 < num_classes ->
  Forall (fun c => 0 < c) c_hidden ->
  Forall (fun m => 0 < m) num_blocks -> num_blocks <> [] ->
  (length num_blocks < length c_hidden)%nat ->
  c_hidden !! (length num_blocks - 1)%nat = Some a ->
  last c_hidden = Some b ->
  a <> b ->
  shape_respecting training layer_forward tensor_add shape_of ->
  shape_of x = [batch; 3; height; width] ->
  training = false \/ 1 < batch -> 0 < batch -> 0 < height -> 0 < width ->
  exists net w1,
    ResNet_init num_classes num_blocks c_hidden act_fn_name block_name w0 = (inr net, w1)
    /\ exists e s', ResNet_forward layer_forward tensor_add net x s = (inl e, s').
Proof.
  intros Hact Hcls Hs Hnc Hch Hpos Hne Hlen Ha Hb Hab Hrt Hx Hmode Hn Hh Hw.
  assert (stages_indexable num_blocks c_hidden) as Hidx.
  { apply shorter_stages_indexable; [lia|].
    destruct c_hidden; [simpl in *; lia | done]. }
  destruct (ResNet_init_run num_classes num_blocks c_hidden act_fn_name block_name
              act cls w0 Hact Hcls Hidx Hs) as (net & g & Hrun & _ & _ & Hrel).
  eexists net, _. split; [exact Hrun|].
  pose proof (ResNet_forward_follows layer_forward tensor_add shape_of Hrt net x s) as Hf.
  rewrite Hx, (ResNet_shape_init_net_rel _ _ _ Hrel) in Hf.
  rewrite expected_network_shape in Hf; try done; [|simpl; lia].
  simpl in Hf. rewrite Hb in Hf. simpl in Hf.
  assert (0 < length num_blocks)%nat by (destruct num_blocks; [done | simpl; lia]).
  replace (Z.of_nat (length num_blocks) - 1) with (Z.of_nat (length num_blocks - 1)) in Hf
    by lia.
  rewrite (nth_Z_lookup _ _ _ Ha), (proj2 (Z.eqb_neq a b) Hab) in Hf. exact Hf.
Qed.

(** X8.  The network that [ResNet.__init__] returns for a stage [i > 0]
    with [num_blocks[i] == 0] (lists of equal length, every other count,
    the widths and the number of classes positive, an activation name
    [kaiming_normal_] accepts) cannot be applied when [c_hidden[i-1]] and
    [c_hidden[i]] differ: the next block built, or the linear layer when
    stage [i] is the last, expects [c_hidden[i]] channels and is given
    [c_hidden[i-1]]; on a runtime that follows the shape rules [forward]
    raises (input of shape [[n, 3, h, w]], positive dimensions, [n > 1] in
    training mode). *)
Theorem ResNet_forward_zero_block_stage
    (Tensor Store : Type)
    (layer_forward : layer -> Tensor -> M Store Tensor)
    (tensor_add : Tensor -> Tensor -> M Store Tensor)
    (shape_of : Tensor -> list Z)
    (num_classes : Z) (num_blocks c_hidden : list Z)
    (act_fn_name block_name : string) (act : ActCtor) (cls : BlockClass)
    (i : nat) (a b : Z)
    (w0 : world) (x : Tensor) (s : Store) (batch height width : Z) :
  act_fn_by_name !! act_fn_name = Some act ->
  resnet_blocks_by_name !! block_name = Some cls ->
  nonlinearity_supported act_fn_name = true ->
  0 < num_classes ->
  Forall (fun c => 0 < c) c_hidden ->
  length num_blocks = length c_hidden ->
  num_blocks !! i = Some 0 -> (0 < i)%nat ->
  (forall k m, k <> i -> num_blocks !! k = Some m -> 0 < m) ->
  c_hidden !! (i - 1)%nat = Some a ->
  c_hidden !! i = Some b ->
  a <> b ->
  shape_respecting training layer_forward tensor_add shape_of ->
  shape_of x = [batch; 3; height; width] ->
  training = false \/ 1 < batch -> 0 < batch -> 0 < height -> 0 < width ->
  exists net w1,
    ResNet_init num_classes num_blocks c_hidden act_fn_name block_name w0 = (inr net, w1)
    /\ exists e s', ResNet_forward layer_forward tensor_add net x s = (inl e, s').
Proof.
  intros Hact Hcls Hs Hnc Hch Hlen Hi Hipos Hothers Ha Hb Hab Hrt Hx Hmode Hn Hh Hw.
  assert (stages_indexable num_blocks c_hidden) as Hidx.
  { apply shorter_stages_indexable; [lia|].
    apply lookup_lt_Some in Hi. destruct c_hidden; [simpl in *; lia | done]. }
  destruct (ResNet_init_run num_classes num_blocks c_hidden act_fn_name block_name
              act cls w0 Hact Hcls Hidx Hs) as (net & g & Hrun & _ & _ & Hrel).
  eexists net, _. split; [exact Hrun|].
  pose proof (ResNet_forward_follows layer_forward tensor_add shape_of Hrt net x s) as Hf.
  rewrite Hx, (ResNet_shape_init_net_rel _ _ _ Hrel) in Hf.
  pose proof (lookup_lt_Some _ _ _ Hi) as Hilt.
  assert (length (take i num_blocks) = i) as Hpre by (rewrite length_take; lia).
  rewrite (zero_stage_shape _ (take i num_blocks) (drop (S i) num_blocks) a b) in Hf;
    [exact Hf | ..]; try done.
  - simpl. symmetry. now apply take_drop_middle.
  - intros Hnil. rewrite Hnil in Hpre. simpl in Hpre. lia.
  - apply Forall_forall. intros m Hm.
    apply elem_of_take in Hm as (k & Hk & Hlt). apply (Hothers k m); [lia | done].
  - apply Forall_forall. intros m Hm.
    apply list_elem_of_lookup in Hm as (k & Hk). rewrite lookup_drop in Hk.
    apply (Hothers (S i + k)%nat m); [lia | done].
  - simpl. now rewrite Hpre.
  - simpl. now rewrite Hpre.
Qed.

Lemma empty_first_stage_shape hp (rest : list Z) (n h w : Z) :
  num_blocks hp = 0 :: rest ->
  length (num_blocks hp) = length (c_hidden hp) ->
  Forall (fun c => 0 < c) (c_hidden hp) -> 0 < num_classes hp ->
  Forall (fun m => 0 < m) rest ->
  training = false \/ 1 < n -> 0 < n ->
  0 < h -> 0 < w ->
  ResNet_shape training (expected_network hp) [n; 3; h; w] = Gives [n; num_classes hp].
Proof.
  intros Hnb Hlen Hch Hcls Hrest Hmode Hn Hh Hw. rewrite Hnb in Hlen.
  assert (c_hidden hp <> []) as Hchne by (destruct (c_hidden hp); [simpl in *; lia | done]).
  assert (forall j : nat, (j < length (c_hidden hp))%nat ->
            0 < nth_Z (c_hidden hp) (Z.of_nat j)) as Hwd
    by (intros j Hj; now apply nth_Z_pos).
  unfold ResNet_shape, expected_network. cbn [input_net blocks output_net].
  rewrite expected_input_net_shape
    by (first [done | apply (Hwd 0%nat); simpl in Hlen; lia]).
  cbn [rule_bind].
  unfold expected_blocks. rewrite enumerate_from_0, Hnb.
  rewrite enumerate_from_cons. cbn [map concat].
  change (range 0) with (@nil Z). cbn [map app].
  destruct (decide (rest = [])) as [->|Hne].
  - cbn [enumerate_from imap map concat Blocks_shape rule_bind].
    rewrite expected_output_net_shape;
      [|first [done | apply (Hwd 0%nat); simpl in Hlen; lia | now apply last_pos] ..].
    rewrite (last_lookup_length (c_hidden hp) 0) by (simpl in Hlen; lia).
    unfold nth_Z. change (Z.to_nat 0) with 0%nat.
    now rewrite Z.eqb_refl.
  - destruct (stages_shape hp rest 1 n (nth_Z (c_hidden hp) 0) h w)
      as (h' & w' & Hh' & Hw' & ->); try done.
    { intros j Hj. apply Hwd. simpl in Hlen. lia. }
    cbn [rule_bind].
    rewrite expected_output_net_shape; try done; cycle 1.
    { replace (Z.of_nat (1 + length rest) - 1) with (Z.of_nat (length rest)) by lia.
      apply Hwd. simpl in Hlen. lia. }
    { now apply last_pos. }
    rewrite (last_lookup_length (c_hidden hp) (length rest)) by (simpl in Hlen; lia).
    unfold nth_Z.
    replace (Z.to_nat (Z.of_nat (1 + length rest) - 1)) with (length rest) by lia.
    now rewrite Z.eqb_refl.
Qed.

(** X9.  A first stage without blocks does fit: with lists of equal
    length, [num_blocks[0] == 0], every later count, the widths and the
    number of classes positive, and an activation name [kaiming_normal_]
    accepts, [ResNet.__init__] returns a network whose [forward], on a
    tensor of shape [[n, 3, h, w]] (positive dimensions, [n > 1] in
    training mode), returns a tensor of shape [[n, num_classes]] on a
    runtime that follows the shape rules (the first block built takes
    [c_hidden[0]] channels, which the input convolution gives). *)
Theorem ResNet_forward_empty_first_stage
    (Tensor Store : Type)
    (layer_forward : layer -> Tensor -> M Store Tensor)
    (tensor_add : Tensor -> Tensor -> M Store Tensor)
    (shape_of : Tensor -> list Z)
    (num_classes : Z) (rest c_hidden : list Z)
    (act_fn_name block_name : string) (act : ActCtor) (cls : BlockClass)
    (w0 : world) (x : Tensor) (s : Store) (batch height width : Z) :
  act_fn_by_name !! act_fn_name = Some act ->
  resnet_blocks_by_name !! block_name = Some cls ->
  nonlinearity_supported act_fn_name = true ->
  0 < num_classes ->
  Forall (fun c => 0 < c) c_hidden ->
  length (0 :: rest) = length c_hidden ->
  Forall (fun m => 0 < m) rest ->
  shape_respecting training layer_forward tensor_add shape_of ->
  shape_of x = [batch; 3; height; width] ->
  training = false \/ 1 < batch -> 0 < batch -> 0 < height -> 0 < width ->
  exists net w1,
    ResNet_init num_classes (0 :: rest) c_hidden act_fn_name block_name w0 = (inr net, w1)
    /\ exists y s',
        ResNet_forward layer_forward tensor_add net x s = (inr y, s')
        /\ shape_of y = [batch; num_classes].
Proof.
  intros Hact Hcls Hs Hnc Hch Hlen Hrest Hrt Hx Hmode Hn Hh Hw.
  assert (stages_indexable (0 :: rest) c_hidden) as Hidx.
  { apply shorter_stages_indexable; [lia|].
    destruct c_hidden; [simpl in *; lia | done]. }
  destruct (ResNet_init_run num_classes (0 :: rest) c_hidden act_fn_name block_name
              act cls w0 Hact Hcls Hidx Hs) as (net & g & Hrun & _ & _ & Hrel).
  eexists net, _. split; [exact Hrun|].
  pose proof (ResNet_forward_follows layer_forward tensor_add shape_of Hrt net x s) as Hf.
  rewrite Hx, (ResNet_shape_init_net_rel _ _ _ Hrel) in Hf.
  rewrite (empty_first_stage_shape _ rest) in Hf by done.
  exact Hf.
Qed.

End Shapes.

(** *** What the network is made of *)

Ltac conforms_layers :=
  repeat first [ apply Forall_nil | apply Forall_cons; split ];
  simpl; first [ exact I | reflexivity | split; [reflexivity | lia] ].

Lemma built_block_conforms cls c_in act subsample c_out :
  Forall (Layer_conforms act) (Block_layers (built_block cls c_in act subsample c_out)).
Proof.
  destruct cls, subsample; simpl; conforms_layers.
Qed.

Lemma expected_network_conforms hp :
  Forall (Layer_conforms (act_fn hp)) (ResNet_layers (expected_network hp)).
Proof.
  unfold ResNet_layers, expected_network. simpl.
  apply Forall_app. split; [|apply Forall_app; split].
  - unfold expected_input_net. destruct (decide _); conforms_layers.
  - unfold expected_blocks.
    induction (enumerate (num_blocks hp)) as [|[i n] xs IH]; simpl; [constructor|].
    rewrite map_app, concat_app. apply Forall_app. split; [|exact IH].
    induction (range n) as [|j js IHj]; simpl; [constructor|].
    apply Forall_app. split; [apply built_block_conforms | exact IHj].
  - conforms_layers.
Qed.

Lemma init_rel_conforms name act (m m' : layer) :
  init_rel name m m' -> Layer_conforms act m -> Layer_conforms act m'.
Proof. destruct m; simpl; [intros [noise ->] | intros -> ..]; auto. Qed.

(** X10.  Every primitive layer of a network [ResNet.__init__] returns is
    one of the module's kinds: each convolution is without bias and is 3x3
    with padding 1 and stride 1 or 2, or 1x1 with padding 0 and stride 2,
    and each activation is an instance of the constructor registered under
    [act_fn_name]. *)
Theorem build_layers_conform
    (num_classes : Z) (num_blocks c_hidden : list Z)
    (act_fn_name block_name : string) (act : ActCtor) (w w' : world) (net : resnet) :
  ResNet_init num_classes num_blocks c_hidden act_fn_name block_name w = (inr net, w') ->
  act_fn_by_name !! act_fn_name = Some act ->
  Forall (Layer_conforms act) (ResNet_layers net).
Proof.
  intros Hrun Hact.
  apply ResNet_init_returns_inv in Hrun as (act' & cls & Hact' & _ & _ & Hrel).
  rewrite Hact in Hact'. injection Hact' as <-.
  pose proof (init_net_rel_layers _ _ Hrel) as Hl.
  pose proof (expected_network_conforms
                (mkHParams num_classes num_blocks c_hidden act_fn_name act cls)) as Hc.
  simpl in Hc. revert Hc.
  induction Hl as [|m m' ms ms' Hm _ IH]; intros Hc; [constructor|].
  apply Forall_cons in Hc as [Hc1 Hc2]. constructor; [|now apply IH].
  now apply (init_rel_conforms _ _ m m' Hm).
Qed.

(** *** Subsampling blocks *)

Lemma built_block_subsamples cls c_in act subsample c_out :
  Block_subsamples (built_block cls c_in act subsample c_out) = subsample.
Proof. destruct cls, subsample; reflexivity. Qed.

Lemma later_blocks_subsample hp (i : Z) (js : list Z) :
  Forall (fun j => j <> 0) js ->
  filter (fun b => Block_subsamples b = true) (map (block_at hp i) js) = [].
Proof.
  induction 1 as [|j js Hj _ IH]; simpl; [done|].
  rewrite filter_cons_False; [exact IH|].
  unfold block_at. rewrite built_block_subsamples.
  rewrite (proj2 (Z.eqb_neq j 0) Hj). discriminate.
Qed.

Lemma stage_subsample hp (k : nat) (m : Z) :
  length (filter (fun b => Block_subsamples b = true)
            (map (block_at hp (Z.of_nat (S k))) (range m)))
  = if 0 <? m then 1%nat else 0%nat.
Proof.
  destruct (Z.ltb_spec 0 m) as [Hm|Hm].
  - unfold range. rewrite seqZ_cons by done. cbn [map].
    rewrite filter_cons_True.
    + rewrite later_blocks_subsample; [reflexivity|].
      apply Forall_forall. intros j Hj. apply elem_of_seqZ in Hj. lia.
    + unfold block_at. rewrite built_block_subsamples.
      change (0 =? 0) with true. cbn [andb]. apply Z.ltb_lt. lia.
  - unfold range. now rewrite seqZ_nil by lia.
Qed.

Lemma stages_subsample hp (l : list Z) (k : nat) :
  length (filter (fun b => Block_subsamples b = true)
            (concat (map (fun '(i, m) => map (block_at hp i) (range m))
                       (enumerate_from (S k) l))))
  = length (filter (fun m => 0 < m) l).
Proof.
  revert k. induction l as [|m l IH]; intros k; [reflexivity|].
  rewrite enumerate_from_cons. cbn [map concat].
  rewrite filter_app, length_app, stage_subsample, IH.
  destruct (Z.ltb_spec 0 m).
  - now rewrite filter_cons_True by done.
  - now rewrite filter_cons_False by lia.
Qed.

Lemma stage_0_subsample hp (m : Z) :
  filter (fun b => Block_subsamples b = true) (map (block_at hp (Z.of_nat 0)) (range m)) = [].
Proof.
  induction (range m) as [|j js IH]; simpl; [done|].
  rewrite filter_cons_False; [exact IH|].
  unfold block_at. rewrite built_block_subsamples.
  change (0 <? 0) with false. rewrite andb_false_r. discriminate.
Qed.

Lemma Forall2_init_block_rel_subsamples name (bs bs' : list block) :
  Forall2 (init_block_rel name) bs bs' ->
  length (filter (fun b => Block_subsamples b = true) bs')
  = length (filter (fun b => Block_subsamples b = true) bs).
Proof.
  induction 1 as [|b b' bs bs' Hb _ IH]; [reflexivity|].
  pose proof (init_block_rel_subsamples _ _ _ Hb) as Hs.
  destruct (Block_subsamples b) eqn:E.
  - rewrite !filter_cons_True by congruence. simpl. now rewrite IH.
  - rewrite !filter_cons_False by congruence. exact IH.
Qed.

(** X11.  The number of subsampling blocks of every network
    [ResNet.__init__] returns is the number of stages other than stage 0
    that have a positive block count: stage 0 never subsamples, and each
    later stage does so once, in its first block. *)
Theorem build_subsample_count
    (num_classes : Z) (num_blocks c_hidden : list Z)
    (act_fn_name block_name : string) (w w' : world) (net : resnet) :
  ResNet_init num_classes num_blocks c_hidden act_fn_name block_name w = (inr net, w') ->
  length (filter (fun b => Block_subsamples b = true) (blocks net))
  = length (filter (fun m => 0 < m) (tail num_blocks)).
Proof.
  intros Hrun.
  apply ResNet_init_returns_inv in Hrun as (act & cls & _ & _ & _ & Hrel).
  rewrite (Forall2_init_block_rel_subsamples _ _ _ (init_blocks _ _ Hrel)). simpl.
  unfold expected_blocks. rewrite enumerate_from_0. simpl.
  destruct num_blocks as [|m0 rest]; [reflexivity|].
  rewrite enumerate_from_cons. cbn [map concat tail].
  rewrite filter_app, length_app, stage_0_subsample. simpl.
  apply stages_subsample.
Qed.

End Construction.

(** ** The construction on concrete inputs *)

Local Abbreviation example_build :=
  (ResNet_init example_act_fn_by_name example_default_init example_normal_
     example_nonlinearity_supported).

Local Abbreviation example_valid :=
  (valid_hparams example_act_fn_by_name).

Ltac example_valid_hparams :=
  unfold valid_hparams;
  repeat match goal with
         | |- _ /\ _ => split
         | |- (0 < _)%Z => lia
         | |- Forall _ _ => repeat constructor; lia
         | |- length _ = length _ => reflexivity
         | |- _ <> [] => discriminate
         | |- is_Some _ => eexists; vm_compute; reflexivity
         end.

(** C1: the specification's own example, [num_blocks=[3,3]] with
    [c_hidden=[12,32,64]], raises no exception at all; and with
    [num_blocks=[3,3,3]] and [c_hidden=[12,32]] the exception is
    [IndexError], raised after 40 layers have been allocated. *)
Lemma build_mismatched_stage_lengths_counterexample :
  length [3; 3] <> length [12; 32; 64]
  /\ (forall e w',
        example_build 10 [3; 3] [12; 32; 64] "relu" "ResNetBlock" example_world
        <> (inl e, w'))
  /\ length [3; 3; 3] <> length [12; 32]
  /\ fst (example_build 10 [3; 3; 3] [12; 32] "relu" "ResNetBlock" example_world)
     = inl IndexError
  /\ length (allocated
               (snd (example_build 10 [3; 3; 3] [12; 32] "relu" "ResNetBlock"
                       example_world))) = 40%nat.
Proof.
  split; [simpl; lia|]. split; [|split; [simpl; lia|]].
  - intros e w'. vm_compute. discriminate.
  - split; vm_compute; reflexivity.
Qed.

Lemma build_mismatched_stage_lengths_witness :
  example_act_fn_by_name !! "relu" = Some "ReLU"
  /\ resnet_blocks_by_name !! "ResNetBlock" = Some class_ResNetBlock
  /\ Forall (fun c => 0 < c) [12; 32; 64]
  /\ Forall (fun c => 0 < c) [12; 32]
  /\ example_nonlinearity_supported "relu" = true
  /\ (exists net w',
        example_build 10 [3; 3] [12; 32; 64] "relu" "ResNetBlock" example_world
        = (inr net, w')
        /\ Forall2 (built_at example_default_init class_ResNetBlock "ReLU" [12; 32; 64])
             (spec_positions [3; 3]) (blocks net))
  /\ (exists w',
        example_build 10 [3; 3; 3] [12; 32] "relu" "ResNetBlock" example_world
        = (inl IndexError, w')
        /\ ([12; 32] <> [] -> (length (allocated example_world) < length (allocated w'))%nat)).
Proof.
  assert (example_act_fn_by_name !! "relu" = Some "ReLU") as Hact
    by (vm_compute; reflexivity).
  assert (resnet_blocks_by_name !! "ResNetBlock" = Some class_ResNetBlock) as Hcls
    by (vm_compute; reflexivity).
  assert (Forall (fun c => 0 < c) [12; 32; 64]) as Hw3 by (repeat constructor; lia).
  assert (Forall (fun c => 0 < c) [12; 32]) as Hw2 by (repeat constructor; lia).
  split; [exact Hact|]. split; [exact Hcls|]. split; [exact Hw3|]. split; [exact Hw2|].
  split; [reflexivity|]. split.
  - apply (proj1 (build_mismatched_stage_lengths example_act_fn_by_name
                    example_default_init example_normal_ example_nonlinearity_supported
                    10 [3; 3] [12; 32; 64]
                    "relu" "ResNetBlock" "ReLU" class_ResNetBlock example_world
                    Hact Hcls Hw3)).
    + simpl; lia.
    + lia.
    + reflexivity.
  - apply (proj2 (build_mismatched_stage_lengths example_act_fn_by_name
                    example_default_init example_normal_ example_nonlinearity_supported
                    10 [3; 3; 3] [12; 32]
                    "relu" "ResNetBlock" "ReLU" class_ResNetBlock example_world
                    Hact Hcls Hw2)).
    + simpl; lia.
    + repeat constructor; lia.
Defined.

Lemma build_block_sequence_witness :
  example_valid 10 [3; 3; 3] [12; 32; 64] "relu" "ResNetBlock"
  /\ example_act_fn_by_name !! "relu" = Some "ReLU"
  /\ resnet_blocks_by_name !! "ResNetBlock" = Some class_ResNetBlock
  /\ example_nonlinearity_supported "relu" = true
  /\ (exists net0 w0,
        _create_network example_default_init
          (mkHParams 10 [3; 3; 3] [12; 32; 64] "relu" "ReLU" class_ResNetBlock)
          example_world = (inr net0, w0)
        /\ Forall2 (built_at example_default_init class_ResNetBlock "ReLU" [12; 32; 64])
             (spec_positions [3; 3; 3]) (blocks net0)
        /\ exists b, head (blocks net0) = Some b /\ Block_subsamples b = false)
  /\ exists net w',
      example_build 10 [3; 3; 3] [12; 32; 64] "relu" "ResNetBlock" example_world
      = (inr net, w')
      /\ Forall2 (built_at example_default_init class_ResNetBlock "ReLU" [12; 32; 64])
           (spec_positions [3; 3; 3]) (blocks net)
      /\ exists b, head (blocks net) = Some b /\ Block_subsamples b = false.
Proof.
  assert (example_valid 10 [3; 3; 3] [12; 32; 64] "relu" "ResNetBlock") as Hvalid
    by example_valid_hparams.
  assert (example_act_fn_by_name !! "relu" = Some "ReLU") as Hact
    by (vm_compute; reflexivity).
  assert (resnet_blocks_by_name !! "ResNetBlock" = Some class_ResNetBlock) as Hcls
    by (vm_compute; reflexivity).
  split; [exact Hvalid|]. split; [exact Hact|]. split; [exact Hcls|].
  split; [reflexivity|].
  destruct (build_block_sequence example_act_fn_by_name example_default_init
              example_normal_ example_nonlinearity_supported
              10 [3; 3; 3] [12; 32; 64] "relu" "ResNetBlock" "ReLU" class_ResNetBlock
              example_world Hvalid Hact Hcls) as (Hcreate & Hret & Hruns).
  split; [exact Hcreate|].
  destruct (Hruns eq_refl) as (net & w' & Hrun).
  exists net, w'. split; [exact Hrun|]. exact (Hret net w' Hrun).
Defined.

Lemma build_unknown_block_variant_witness :
  "nonexistent" <> "ResNetBlock" /\ "nonexistent" <> "PreActResNetBlock"
  /\ example_build 10 [3; 3; 3] [12; 32; 64] "relu" "nonexistent" example_world
     = (inl AssertionError, example_world).
Proof.
  assert ("nonexistent" <> "ResNetBlock") as H1 by discriminate.
  assert ("nonexistent" <> "PreActResNetBlock") as H2 by discriminate.
  split; [exact H1 | split; [exact H2|]].
  exact (build_unknown_block_variant example_act_fn_by_name example_default_init
           example_normal_ example_nonlinearity_supported
           10 [3; 3; 3] [12; 32; 64] "relu" "nonexistent"
           example_world H1 H2).
Defined.

Lemma build_input_adapter_witness :
  example_valid 10 [3; 3; 3] [12; 32; 64] "tanh" "PreActResNetBlock"
  /\ example_act_fn_by_name !! "tanh" = Some "Tanh"
  /\ resnet_blocks_by_name !! "PreActResNetBlock" = Some class_PreActResNetBlock
  /\ [12; 32; 64] !! 0%nat = Some 12
  /\ example_nonlinearity_supported "tanh" = true
  /\ (exists net0 w0,
        _create_network example_default_init
          (mkHParams 10 [3; 3; 3] [12; 32; 64] "tanh" "Tanh" class_PreActResNetBlock)
          example_world = (inr net0, w0)
        /\ input_net net0 = [ Conv2d 3 12 3 1 1 false [] ])
  /\ exists net w',
      example_build 10 [3; 3; 3] [12; 32; 64] "tanh" "PreActResNetBlock" example_world
      = (inr net, w')
      /\ map Layer_as_constructed (input_net net) = [ Conv2d 3 12 3 1 1 false [] ].
Proof.
  assert (example_valid 10 [3; 3; 3] [12; 32; 64] "tanh" "PreActResNetBlock") as Hvalid
    by example_valid_hparams.
  assert (example_act_fn_by_name !! "tanh" = Some "Tanh") as Hact
    by (vm_compute; reflexivity).
  assert (resnet_blocks_by_name !! "PreActResNetBlock" = Some class_PreActResNetBlock)
    as Hcls by (vm_compute; reflexivity).
  split; [exact Hvalid|]. split; [exact Hact|]. split; [exact Hcls|].
  split; [reflexivity|]. split; [reflexivity|].
  destruct (build_input_adapter example_act_fn_by_name example_default_init
              example_normal_ example_nonlinearity_supported
              10 [3; 3; 3] [12; 32; 64] "tanh" "PreActResNetBlock" "Tanh"
              class_PreActResNetBlock 12 example_world Hvalid Hact Hcls eq_refl)
    as (Hcreate & Hret & Hruns).
  split; [exact Hcreate|].
  destruct (Hruns eq_refl) as (net & w' & Hrun).
  exists net, w'. split; [exact Hrun|]. exact (Hret net w' Hrun).
Defined.

Lemma build_initializes_parameters_witness :
  exists net w',
    example_build 10 [1; 1] [12; 32] "relu" "ResNetBlock" example_world = (inr net, w')
    /\ exists net0 w0,
        _create_network example_default_init (hparams net) example_world = (inr net0, w0)
        /\ _init_params example_normal_ example_nonlinearity_supported net0 w0
           = (inr net, w')
        /\ allocated w0 = allocated example_world ++ ResNet_layers net0
        /\ allocated w' = allocated w0
        /\ forallb Layer_untouched (ResNet_layers net0) = true
        /\ hparams net = hparams net0
        /\ map Layer_as_constructed (input_net net) = input_net net0
        /\ map Block_as_constructed (blocks net) = blocks net0
        /\ map Layer_as_constructed (output_net net) = output_net net0
        /\ map Layer_as_constructed (ResNet_layers net) = ResNet_layers net0
        /\ Forall2 (init_rel "relu") (ResNet_layers net0) (ResNet_layers net)
        /\ forallb (Layer_initialized "relu") (ResNet_layers net) = true.
Proof.
  destruct (example_build 10 [1; 1] [12; 32] "relu" "ResNetBlock" example_world)
    as [[e|net] w'] eqn:Hrun.
  - vm_compute in Hrun. discriminate.
  - exists net, w'. split; [reflexivity|].
    exact (build_initializes_parameters example_act_fn_by_name
             example_default_init example_normal_ example_nonlinearity_supported
             10 [1; 1] [12; 32] "relu" "ResNetBlock" example_world w' net Hrun).
Defined.

Lemma build_unknown_activation_witness :
  example_act_fn_by_name !! "elu" = None
  /\ example_build 10 [3; 3; 3] [12; 32; 64] "elu" "ResNetBlock" example_world
     = (inl (KeyError "elu"), example_world).
Proof.
  assert (example_act_fn_by_name !! "elu" = None) as Hnone by (vm_compute; reflexivity).
  split; [exact Hnone|].
  apply (build_unknown_activation example_act_fn_by_name example_default_init
           example_normal_ example_nonlinearity_supported
           10 [3; 3; 3] [12; 32; 64] "elu" "ResNetBlock"
           example_world Hnone).
  eexists. vm_compute. reflexivity.
Defined.

Lemma build_deterministic_witness :
  example_valid 10 [3; 3; 3] [12; 32; 64] "relu" "ResNetBlock"
  /\ example_nonlinearity_supported "relu" = true
  /\ exists net1 net2,
      fst (example_build 10 [3; 3; 3] [12; 32; 64] "relu" "ResNetBlock" example_world)
      = inr net1
      /\ fst (example_build 10 [3; 3; 3] [12; 32; 64] "relu" "ResNetBlock"
                (mkWorld 41%nat [Flatten]))
         = inr net2
      /\ ResNet_structure net1 = ResNet_structure net2
      /\ allocated
           (snd (example_build 10 [3; 3; 3] [12; 32; 64] "relu" "ResNetBlock"
                   example_world))
         = allocated example_world ++ map Layer_as_constructed (ResNet_layers net1)
      /\ allocated
           (snd (example_build 10 [3; 3; 3] [12; 32; 64] "relu" "ResNetBlock"
                   (mkWorld 41%nat [Flatten])))
         = [Flatten] ++ map Layer_as_constructed (ResNet_layers net2).
Proof.
  assert (example_valid 10 [3; 3; 3] [12; 32; 64] "relu" "ResNetBlock") as Hvalid
    by example_valid_hparams.
  split; [exact Hvalid|]. split; [reflexivity|].
  destruct (build_deterministic example_act_fn_by_name example_default_init
              example_normal_ example_nonlinearity_supported
              10 [3; 3; 3] [12; 32; 64] "relu" "ResNetBlock" example_world
              (mkWorld 41%nat [Flatten]) Hvalid) as [(ls & Ha1 & Ha2 & Hm) Hret].
  destruct (Hret eq_refl) as (net1 & net2 & H1 & H2).
  rewrite H1, H2 in Hm. destruct Hm as (Hst & Hl1 & Hl2).
  exists net1, net2.
  split; [exact H1|]. split; [exact H2|]. split; [exact Hst|].
  split; [rewrite Hl1; exact Ha1 | rewrite Hl2; exact Ha2].
Defined.



(** ** Further properties on concrete inputs *)

Lemma example_runtime_shape_respecting :
  shape_respecting true example_layer_forward example_tensor_add (fun sh : list Z => sh).
Proof.
  split.
  - intros l x s. unfold example_layer_forward.
    destruct (Layer_shape true l x) as [| |r]; simpl; first [exact I | eauto].
  - intros x y s. unfold example_tensor_add.
    destruct (add_shape x y) as [| |r]; simpl; first [exact I | eauto].
Qed.

Lemma ResNet_init_outcome_witness :
  0 < 10
  /\ Forall (fun c => 0 < c) [12; 32; 64]
  /\ fst (example_build 10 [3; 3; 3] [12; 32; 64] "gelu" "ResNetBlock" example_world)
     = inl (ValueError "gelu")
  /\ match
       fst (example_build 10 [3; 3; 3] [12; 32; 64] "gelu" "ResNetBlock" example_world)
     with
     | inr _ =>
         is_Some (resnet_blocks_by_name !! "ResNetBlock")
         /\ is_Some (example_act_fn_by_name !! "gelu")
         /\ stages_indexable [3; 3; 3] [12; 32; 64]
         /\ example_nonlinearity_supported "gelu" = true
     | inl e =>
         (resnet_blocks_by_name !! "ResNetBlock" = None /\ e = AssertionError)
         \/ (is_Some (resnet_blocks_by_name !! "ResNetBlock")
             /\ example_act_fn_by_name !! "gelu" = None /\ e = KeyError "gelu")
         \/ (is_Some (resnet_blocks_by_name !! "ResNetBlock")
             /\ is_Some (example_act_fn_by_name !! "gelu")
             /\ ~ stages_indexable [3; 3; 3] [12; 32; 64] /\ e = IndexError)
         \/ (is_Some (resnet_blocks_by_name !! "ResNetBlock")
             /\ is_Some (example_act_fn_by_name !! "gelu")
             /\ stages_indexable [3; 3; 3] [12; 32; 64]
             /\ example_nonlinearity_supported "gelu" = false
             /\ e = ValueError "gelu")
     end.
Proof.
  assert (0 < 10) as Hnc by lia.
  assert (Forall (fun c => 0 < c) [12; 32; 64]) as Hw by (repeat constructor; lia).
  split; [exact Hnc|]. split; [exact Hw|]. split; [vm_compute; reflexivity|].
  exact (ResNet_init_outcome example_act_fn_by_name example_default_init example_normal_
           example_nonlinearity_supported 10 [3; 3; 3] [12; 32; 64] "gelu" "ResNetBlock"
           example_world Hnc Hw).
Defined.

Lemma build_output_head_witness :
  exists net w',
    example_build 10 [3; 3] [12; 32; 64] "relu" "ResNetBlock" example_world = (inr net, w')
    /\ exists c_last,
        last [12; 32; 64] = Some c_last
        /\ output_net net = [ AdaptiveAvgPool2d 1 1; Flatten; Linear c_last 10 ].
Proof.
  destruct (example_build 10 [3; 3] [12; 32; 64] "relu" "ResNetBlock" example_world)
    as [[e|net] w'] eqn:Hrun.
  - vm_compute in Hrun. discriminate.
  - exists net, w'. split; [reflexivity|].
    exact (build_output_head example_act_fn_by_name example_default_init example_normal_
             example_nonlinearity_supported
             10 [3; 3] [12; 32; 64] "relu" "ResNetBlock" example_world w' net Hrun).
Defined.

Lemma build_block_count_witness :
  exists net w',
    example_build 10 [3; -2; 1] [12; 32; 64] "relu" "PreActResNetBlock" example_world
    = (inr net, w')
    /\ length (blocks net) = sum_list_with Z.to_nat [3; -2; 1].
Proof.
  destruct (example_build 10 [3; -2; 1] [12; 32; 64] "relu" "PreActResNetBlock"
              example_world) as [[e|net] w'] eqn:Hrun.
  - vm_compute in Hrun. discriminate.
  - exists net, w'. split; [reflexivity|].
    exact (build_block_count example_act_fn_by_name example_default_init example_normal_
             example_nonlinearity_supported
             10 [3; -2; 1] [12; 32; 64] "relu" "PreActResNetBlock" example_world w' net
             Hrun).
Defined.

Lemma _init_params_keeps_architecture_witness :
  example_nonlinearity_supported "tanh" = true
  /\ example_nonlinearity_supported "gelu" = false
  /\ (exists net' w',
        _init_params example_normal_ example_nonlinearity_supported
          (mkResNet (mkHParams 10 [] [4] "tanh" "Tanh" class_ResNetBlock)
             [Conv2d 3 4 3 1 1 false []] [] [Flatten])
          example_world = (inr net', w')
        /\ allocated w' = allocated example_world
        /\ Forall2 (init_rel "tanh") [Conv2d 3 4 3 1 1 false []; Flatten]
             (ResNet_layers net'))
  /\ _init_params example_normal_ example_nonlinearity_supported
       (mkResNet (mkHParams 10 [] [4] "gelu" "GELU" class_ResNetBlock)
          [Conv2d 3 4 3 1 1 false []] [] [Flatten])
       example_world = (inl (ValueError "gelu"), example_world).
Proof.
  split; [reflexivity|]. split; [reflexivity|]. split.
  - destruct (_init_params_keeps_architecture example_normal_
                example_nonlinearity_supported
                (mkResNet (mkHParams 10 [] [4] "tanh" "Tanh" class_ResNetBlock)
                   [Conv2d 3 4 3 1 1 false []] [] [Flatten])
                example_world) as (Hkeep & Hret & _).
    destruct (Hret eq_refl) as (net' & w' & Hrun).
    exists net', w'. split; [exact Hrun|].
    destruct (Hkeep net' w' Hrun) as (Ha & _ & _ & _ & _ & Hl).
    split; [exact Ha | exact Hl].
  - destruct (_init_params_keeps_architecture example_normal_
                example_nonlinearity_supported
                (mkResNet (mkHParams 10 [] [4] "gelu" "GELU" class_ResNetBlock)
                   [Conv2d 3 4 3 1 1 false []] [] [Flatten])
                example_world) as (_ & _ & Hraise).
    apply (Hraise eq_refl 3 4 3 1 1 false [] [] eq_refl); lia.
Defined.

Lemma Block_forward_shape_witness :
  exists b w1,
    call_block_class example_default_init class_ResNetBlock 12 "ReLU" true 32 example_world
    = (inr b, w1)
    /\ follows_shape (fun sh : list Z => sh) (Gives [2; 32; halve 31; halve 31])
         (Block_forward example_layer_forward example_tensor_add b [2; 12; 31; 31] tt).
Proof.
  apply (Block_forward_shape example_default_init true (list Z) unit
           example_layer_forward example_tensor_add (fun sh : list Z => sh)
           class_ResNetBlock 12 "ReLU" true 32 example_world [2; 12; 31; 31] tt
           2 12 31 31 example_runtime_shape_respecting);
    first [ reflexivity | right; lia | lia ].
Defined.

Lemma ResNet_forward_valid_shape_witness :
  example_valid 10 [3; 3; 3] [12; 32; 64] "relu" "ResNetBlock"
  /\ example_nonlinearity_supported "relu" = true
  /\ exists net w1,
      example_build 10 [3; 3; 3] [12; 32; 64] "relu" "ResNetBlock" example_world
      = (inr net, w1)
      /\ exists y s',
          ResNet_forward example_layer_forward example_tensor_add net [2; 3; 32; 32] tt
          = (inr y, s')
          /\ y = [2; 10].
Proof.
  assert (example_valid 10 [3; 3; 3] [12; 32; 64] "relu" "ResNetBlock") as Hvalid
    by example_valid_hparams.
  split; [exact Hvalid|]. split; [reflexivity|].
  apply (ResNet_forward_valid_shape example_act_fn_by_name example_default_init
           example_normal_ example_nonlinearity_supported
           true (list Z) unit example_layer_forward example_tensor_add
           (fun sh : list Z => sh) 10 [3; 3; 3] [12; 32; 64] "relu" "ResNetBlock"
           example_world [2; 3; 32; 32] tt 2 32 32 Hvalid eq_refl
           example_runtime_shape_respecting);
    first [ reflexivity | right; lia | lia ].
Defined.

Lemma ResNet_forward_short_num_blocks_witness :
  exists net w1,
    example_build 10 [3; 3] [12; 32; 64] "relu" "ResNetBlock" example_world = (inr net, w1)
    /\ exists e s',
        ResNet_forward example_layer_forward example_tensor_add net [2; 3; 32; 32] tt
        = (inl e, s').
Proof.
  apply (ResNet_forward_short_num_blocks example_act_fn_by_name example_default_init
           example_normal_ example_nonlinearity_supported
           true (list Z) unit example_layer_forward example_tensor_add
           (fun sh : list Z => sh) 10 [3; 3] [12; 32; 64] "relu" "ResNetBlock"
           "ReLU" class_ResNetBlock 32 64 example_world [2; 3; 32; 32] tt 2 32 32);
    first [ exact example_runtime_shape_respecting
          | repeat constructor; lia
          | vm_compute; reflexivity
          | discriminate
          | simpl; lia
          | right; lia
          | lia ].
Defined.

Lemma ResNet_forward_zero_block_stage_witness :
  exists net w1,
    example_build 10 [3; 0; 3] [12; 32; 64] "relu" "ResNetBlock" example_world
    = (inr net, w1)
    /\ exists e s',
        ResNet_forward example_layer_forward example_tensor_add net [2; 3; 32; 32] tt
        = (inl e, s').
Proof.
  apply (ResNet_forward_zero_block_stage example_act_fn_by_name example_default_init
           example_normal_ example_nonlinearity_supported
           true (list Z) unit example_layer_forward example_tensor_add
           (fun sh : list Z => sh) 10 [3; 0; 3] [12; 32; 64] "relu" "ResNetBlock"
           "ReLU" class_ResNetBlock 1%nat 12 32 example_world [2; 3; 32; 32] tt 2 32 32);
    first [ exact example_runtime_shape_respecting
          | intros [|[|[|k]]] m Hk Hm; simpl in Hm; [inversion Hm; lia | congruence
                                                     | inversion Hm; lia | discriminate]
          | repeat constructor; lia
          | vm_compute; reflexivity
          | reflexivity
          | discriminate
          | right; lia
          | lia ].
Defined.

Lemma ResNet_forward_empty_first_stage_witness :
  exists net w1,
    example_build 10 [0; 3; 3] [12; 32; 64] "relu" "PreActResNetBlock" example_world
    = (inr net, w1)
    /\ exists y s',
        ResNet_forward example_layer_forward example_tensor_add net [2; 3; 32; 32] tt
        = (inr y, s')
        /\ y = [2; 10].
Proof.
  apply (ResNet_forward_empty_first_stage example_act_fn_by_name example_default_init
           example_normal_ example_nonlinearity_supported
           true (list Z) unit example_layer_forward example_tensor_add
           (fun sh : list Z => sh) 10 [3; 3] [12; 32; 64] "relu" "PreActResNetBlock"
           "ReLU" class_PreActResNetBlock example_world [2; 3; 32; 32] tt 2 32 32);
    first [ exact example_runtime_shape_respecting
          | repeat constructor; lia
          | vm_compute; reflexivity
          | reflexivity
          | right; lia
          | lia ].
Defined.

Lemma build_layers_conform_witness :
  exists net w',
    example_build 10 [2; 1] [12; 32] "relu" "PreActResNetBlock" example_world = (inr net, w')
    /\ example_act_fn_by_name !! "relu" = Some "ReLU"
    /\ Forall (Layer_conforms "ReLU") (ResNet_layers net).
Proof.
  assert (example_act_fn_by_name !! "relu" = Some "ReLU") as Hact
    by (vm_compute; reflexivity).
  destruct (example_build 10 [2; 1] [12; 32] "relu" "PreActResNetBlock" example_world)
    as [[e|net] w'] eqn:Hrun.
  - vm_compute in Hrun. discriminate.
  - exists net, w'. split; [reflexivity|]. split; [exact Hact|].
    exact (build_layers_conform example_act_fn_by_name example_default_init example_normal_
             example_nonlinearity_supported
             10 [2; 1] [12; 32] "relu" "PreActResNetBlock" "ReLU" example_world w' net
             Hrun Hact).
Defined.

Lemma build_subsample_count_witness :
  exists net w',
    example_build 10 [3; 0; 2] [12; 32; 64] "relu" "ResNetBlock" example_world = (inr net, w')
    /\ length (filter (fun b => Block_subsamples b = true) (blocks net))
       = length (filter (fun m => 0 < m) (tail [3; 0; 2])).
Proof.
  destruct (example_build 10 [3; 0; 2] [12; 32; 64] "relu" "ResNetBlock" example_world)
    as [[e|net] w'] eqn:Hrun.
  - vm_compute in Hrun. discriminate.
  - exists net, w'. split; [reflexivity|].
    exact (build_subsample_count example_act_fn_by_name example_default_init example_normal_
             example_nonlinearity_supported
             10 [3; 0; 2] [12; 32; 64] "relu" "ResNetBlock" example_world w' net Hrun).
Defined.

Lemma build_allocates_positive_sizes_witness :
  0 < 10
  /\ Forall (fun c => 0 < c) [12; 32]
  /\ fst (example_build 10 [3; 3; 3] [12; 32] "relu" "ResNetBlock" example_world)
     = inl IndexError
  /\ exists ls,
      allocated (snd (example_build 10 [3; 3; 3] [12; 32] "relu" "ResNetBlock"
                        example_world))
      = allocated example_world ++ ls
      /\ forallb Layer_sized ls = true.
Proof.
  assert (0 < 10) as Hnc by lia.
  assert (Forall (fun c => 0 < c) [12; 32]) as Hw by (repeat constructor; lia).
  split; [exact Hnc|]. split; [exact Hw|]. split; [vm_compute; reflexivity|].
  exact (build_allocates_positive_sizes example_act_fn_by_name example_default_init
           example_normal_ example_nonlinearity_supported
           10 [3; 3; 3] [12; 32] "relu" "ResNetBlock" example_world Hnc Hw).
Defined.
